(** * Template assembly and extension resolution engine (pkg/engine/engine.go)

    A shallow embedding of the functions of [engine.go] and the properties
    the specification states about them.

    Conventions of the embedding
    - A Go [string] is a Rocq [string]: a sequence of 8-bit bytes.
    - A Go [int] is a [Z]; arithmetic on it goes through [int_wrap], the
      64-bit two's complement wrap-around.
    - A Go [error] is its message ([err.Error()]), a [string].
    - Functions and constants that [engine.go] imports from other packages
      (the asset store, [net/http], [compress/gzip], [encoding/json],
      [net.ParseIP], the [api] and [helpers] packages, the Unicode case
      folding table) are the fields of the class [Env].
    - Code that reads the network or writes to standard output threads the
      run-time state [RT] explicitly.

    The file is organised as the model first (Part I) and the theorems
    second (Part II). *)

From Stdlib Require Import ZArith Lia List Ascii String Permutation Bool.
From stdpp Require Import base gmap strings list fin_maps pretty.
Import ListNotations.

Open Scope string_scope.
Open Scope Z_scope.

(* stdpp blocks the unfolding of string append by simpl; the proofs below
   compute with it. *)
#[local] Arguments String.append : simpl nomatch.

(** * Part I: the model *)

(** ** Go values *)

(** The double quote character, as a one-byte string. *)
Definition dq : string := String "034"%char EmptyString.

(** Line feed and carriage return. *)
Definition LF : ascii := "010"%char.
Definition CR : ascii := "013"%char.

(** Go's [int] on a 64-bit platform: the representative of [z] in
    [-2^63, 2^63). *)
Definition int_wrap (z : Z) : Z := (z + 2 ^ 63) mod 2 ^ 64 - 2 ^ 63.

Definition int_add (a b : Z) : Z := int_wrap (a + b).

(** A [byte]: the representative of [z] in [0, 256). *)
Definition byte_wrap (z : Z) : Z := z mod 256.

(** Go's [(T, error)] results. *)
Inductive result (A : Type) : Type :=
| Ok (a : A)
| Err (msg : string).
Arguments Ok {A} a.
Arguments Err {A} msg.

(** A call that either returns or panics. *)
Inductive outcome (A : Type) : Type :=
| Returns (a : A)
| Panics (msg : string).
Arguments Returns {A} a.
Arguments Panics {A} msg.

(** ** Package [strings] *)

Module GoStrings.

(** [strings.HasPrefix s p]. *)
Fixpoint HasPrefix (s p : string) {struct p} : bool :=
  match p with
  | EmptyString => true
  | String c p' =>
      match s with
      | EmptyString => false
      | String d s' => Ascii.eqb c d && HasPrefix s' p'
      end
  end.

(** [strings.Contains s substr]. *)
Fixpoint Contains (s substr : string) : bool :=
  HasPrefix s substr ||
  match s with
  | EmptyString => false
  | String _ s' => Contains s' substr
  end.

(** The scan of [strings.Replace s old new (-1)] for a non-empty [old]:
    occurrences are found from the left and do not overlap.  [skip] counts
    the bytes of the occurrence just replaced that are still to be passed. *)
Fixpoint replace_from (old new : string) (skip : nat) (s : string) : string :=
  match s with
  | EmptyString => EmptyString
  | String c s' =>
      match skip with
      | S k => replace_from old new k s'
      | O =>
          if HasPrefix s old
          then new +:+ replace_from old new (Nat.pred (String.length old)) s'
          else String c (replace_from old new O s')
      end
  end.

(** [strings.Replace s old new (-1)].  Every call in [engine.go] passes a
    non-empty literal for [old]; for an empty [old] (where Go inserts [new]
    around every rune) this model leaves [s] as it is. *)
Definition Replace (s old new : string) : string :=
  match old with
  | EmptyString => s
  | _ => replace_from old new O s
  end.

End GoStrings.

(** ** Package [fmt]: the verbs [engine.go] uses *)

Inductive fmtarg : Type :=
| FInt (z : Z)
| FStr (s : string).

(** An operand formatted by [%d], [%s] or [%v]: an [int] in decimal, a
    string as it is. *)
Definition fmt_operand (a : fmtarg) : string :=
  match a with
  | FInt z => pretty z
  | FStr s => s
  end.

(** [fmt.Sprintf format args] for formats whose verbs are [%d], [%s] and
    [%v], each applied to an operand of the fitting type. *)
Fixpoint Sprintf (format : string) (args : list fmtarg) : string :=
  match format with
  | EmptyString => EmptyString
  | String "%" (String v rest as tl) =>
      if (Ascii.eqb v "d" || Ascii.eqb v "s" || Ascii.eqb v "v")%bool
      then match args with
           | a :: args' => fmt_operand a +:+ Sprintf rest args'
           | [] => String "%" (Sprintf tl args)
           end
      else String "%" (Sprintf tl args)
  | String c rest => String c (Sprintf rest args)
  end.

(** ** Network topology generator *)

(** [getSecurityRule]'s format string. *)
Definition securityRuleFormat : string :=
  Eval vm_compute in
"          {
            " +:+ dq +:+ "name" +:+ dq +:+ ": " +:+ dq +:+ "Allow_%d" +:+ dq +:+ ",
            " +:+ dq +:+ "properties" +:+ dq +:+ ": {
              " +:+ dq +:+ "access" +:+ dq +:+ ": " +:+ dq +:+ "Allow" +:+ dq +:+ ",
              " +:+ dq +:+ "description" +:+ dq +:+ ": " +:+ dq +:+ "Allow traffic from the Internet to port %d" +:+ dq +:+ ",
              " +:+ dq +:+ "destinationAddressPrefix" +:+ dq +:+ ": " +:+ dq +:+ "*" +:+ dq +:+ ",
              " +:+ dq +:+ "destinationPortRange" +:+ dq +:+ ": " +:+ dq +:+ "%d" +:+ dq +:+ ",
              " +:+ dq +:+ "direction" +:+ dq +:+ ": " +:+ dq +:+ "Inbound" +:+ dq +:+ ",
              " +:+ dq +:+ "priority" +:+ dq +:+ ": %d,
              " +:+ dq +:+ "protocol" +:+ dq +:+ ": " +:+ dq +:+ "*" +:+ dq +:+ ",
              " +:+ dq +:+ "sourceAddressPrefix" +:+ dq +:+ ": " +:+ dq +:+ "Internet" +:+ dq +:+ ",
              " +:+ dq +:+ "sourcePortRange" +:+ dq +:+ ": " +:+ dq +:+ "*" +:+ dq +:+ "
            }
          }".

Definition BaseLBPriority : Z := 200.

Definition getSecurityRule (port portIndex : Z) : string :=
  Sprintf securityRuleFormat
    [FInt port; FInt port; FInt port; FInt (int_add BaseLBPriority portIndex)].

(** The [for index, port := range ports] loop of [getSecurityRules]:
    [index] is the loop index on entry, [buf] the buffer so far. *)
Fixpoint getSecurityRules_loop (index : Z) (ports : list Z) (buf : string) : string :=
  match ports with
  | [] => buf
  | port :: rest =>
      let buf := if 0 <? index then buf +:+ ",
" else buf in
      getSecurityRules_loop (index + 1) rest (buf +:+ getSecurityRule port index)
  end.

Definition getSecurityRules (ports : list Z) : string :=
  getSecurityRules_loop 0 ports "".

(** ** Package [api]: the parts of the cluster specification the engine reads

    Pointers that the functions modelled here dereference without a nil
    check ([MasterProfile], the elements of [AgentPoolProfiles] and
    [ExtensionProfiles]) are plain values: the model is of the calls in
    which they are not nil, and says nothing of a call with a nil one,
    which panics at the first read.  Pointers these functions test against
    nil are options. *)

Module Extension.
Record t : Type := { Name : string; SingleOrAll : string }.
End Extension.

Module ExtensionProfile.
Record t : Type := {
  Name : string;
  Version : string;
  RootURL : string;
  Script : string;
  URLQuery : string
}.
End ExtensionProfile.

Module PrivateCluster.
Record t : Type := { Enabled : option bool }.
End PrivateCluster.

Module KubernetesConfig.
Record t : Type := { PrivateCluster : option PrivateCluster.t }.
End KubernetesConfig.

Module OrchestratorProfile.
Record t : Type := {
  OrchestratorType : string;
  KubernetesConfig : option KubernetesConfig.t
}.
End OrchestratorProfile.

Module CertificateProfile.
Record t : Type := {
  CaCertificate : string;
  KubeConfigCertificate : string;
  KubeConfigPrivateKey : string
}.
End CertificateProfile.

Module AADProfile.
Record t : Type := {
  ClientAppID : string;
  ServerAppID : string;
  TenantID : string
}.
End AADProfile.

Module MasterProfile.
Record t : Type := {
  Count : Z;
  DNSPrefix : string;
  Subnet : string;
  FirstConsecutiveStaticIP : string;
  Extensions : list Extension.t;
  PreprovisionExtension : option Extension.t
}.
End MasterProfile.

Module AgentPoolProfile.
Record t : Type := {
  Name : string;
  Count : Z;
  OSType : string;
  AvailabilityProfile : string;
  Subnet : string;
  Extensions : list Extension.t;
  PreprovisionExtension : option Extension.t
}.
End AgentPoolProfile.

Module Properties.
Record t : Type := {
  OrchestratorProfile : option OrchestratorProfile.t;
  MasterProfile : MasterProfile.t;
  AgentPoolProfiles : list AgentPoolProfile.t;
  ExtensionProfiles : list ExtensionProfile.t;
  CertificateProfile : option CertificateProfile.t;
  AADProfile : option AADProfile.t
}.
End Properties.

(** ** What [engine.go] imports *)

(** The outcome of [http.Get url] followed by [ioutil.ReadAll res.Body]. *)
Inductive http_result : Type :=
| HttpError (err : string)
| HttpResponse (StatusCode : Z) (Status : string) (Body : result string).

Class Env : Type := {
  (** the asset store, [Asset name], and the name of the kubeconfig asset *)
  Asset : string -> result string;
  kubeConfigJSON : string;
  (** the constant [DefaultInternalLbStaticIPOffset], a byte *)
  DefaultInternalLbStaticIPOffset : Z;
  (** [api.Windows], the method [IsAvailabilitySets] of an agent pool profile and
      [api.FormatAzureProdFQDNByLocation prefix location] *)
  Windows : string;
  IsAvailabilitySets : AgentPoolProfile.t -> bool;
  FormatAzureProdFQDNByLocation : string -> string -> string;
  (** [helpers.IsTrueBoolPointer] and [helpers.GetCloudTargetEnv] *)
  IsTrueBoolPointer : option bool -> bool;
  GetCloudTargetEnv : string -> string;
  (** [net.ParseIP s] followed by [To4]: the four bytes, or nil *)
  ParseIP_To4 : string -> option (Z * Z * Z * Z);
  (** the walk of [strings.EqualFold] along [unicode.SimpleFold]: whether
      the orbit of the smaller rune reaches the larger one *)
  SimpleFold_reaches : Z -> Z -> bool;
  (** [gzip.NewWriter], [Write], [Close]: the compressed stream *)
  gzip_compress : string -> string;
  (** [json.Unmarshal] into a [[]string] *)
  json_Unmarshal_strings : string -> option (list string);
  (** the network: a request changes the state of the world *)
  World : Type;
  http_Get : string -> World -> http_result * World
}.

Section Topology.
Context `{Env}.

(** The format of one agent pool entry in [getVNETAddressPrefixes]. *)
Definition agentAddressPrefixFormat : string :=
  Eval vm_compute in
",
            " +:+ dq +:+ "[variables('%sSubnet')]" +:+ dq.

(** The entry [getVNETAddressPrefixes] starts its buffer with. *)
Definition masterAddressPrefix : string :=
  Eval vm_compute in dq +:+ "[variables('masterSubnet')]" +:+ dq.

(** The loop of [getVNETAddressPrefixes] over the agent pools.  The source
    reads [visitedSubnets] in the loop and does not write to it, so the
    map is the same in every iteration. *)
Fixpoint getVNETAddressPrefixes_loop (visitedSubnets : gmap string bool)
    (profiles : list AgentPoolProfile.t) (buf : string) : string :=
  match profiles with
  | [] => buf
  | profile :: rest =>
      let buf :=
        match visitedSubnets !! AgentPoolProfile.Subnet profile with
        | None =>
            buf +:+ Sprintf agentAddressPrefixFormat
                      [FStr (AgentPoolProfile.Name profile)]
        | Some _ => buf
        end in
      getVNETAddressPrefixes_loop visitedSubnets rest buf
  end.

Definition getVNETAddressPrefixes (properties : Properties.t) : string :=
  let visitedSubnets : gmap string bool := ∅ in
  let buf := masterAddressPrefix in
  let visitedSubnets :=
    <[MasterProfile.Subnet (Properties.MasterProfile properties) := true]>
      visitedSubnets in
  getVNETAddressPrefixes_loop visitedSubnets
    (Properties.AgentPoolProfiles properties) buf.

(** [getKubernetesSubnets]'s format string. *)
Definition subnetString : string :=
  Eval vm_compute in
"{
            " +:+ dq +:+ "name" +:+ dq +:+ ": " +:+ dq +:+ "podCIDR%d" +:+ dq +:+ ",
            " +:+ dq +:+ "properties" +:+ dq +:+ ": {
              " +:+ dq +:+ "addressPrefix" +:+ dq +:+ ": " +:+ dq +:+ "10.244.%d.0/24" +:+ dq +:+ ",
              " +:+ dq +:+ "networkSecurityGroup" +:+ dq +:+ ": {
                " +:+ dq +:+ "id" +:+ dq +:+ ": " +:+ dq +:+ "[variables('nsgID')]" +:+ dq +:+ "
              },
              " +:+ dq +:+ "routeTable" +:+ dq +:+ ": {
                " +:+ dq +:+ "id" +:+ dq +:+ ": " +:+ dq +:+ "[variables('routeTableID')]" +:+ dq +:+ "
              }
            }
          }".

(** The loop of [getKubernetesPodStartIndex] over the agent pools. *)
Fixpoint getKubernetesPodStartIndex_loop (profiles : list AgentPoolProfile.t)
    (nodeCount : Z) : Z :=
  match profiles with
  | [] => nodeCount
  | agentProfile :: rest =>
      getKubernetesPodStartIndex_loop rest
        (if negb (String.eqb (AgentPoolProfile.OSType agentProfile) Windows)
         then int_add nodeCount (AgentPoolProfile.Count agentProfile)
         else nodeCount)
  end.

Definition getKubernetesPodStartIndex (properties : Properties.t) : Z :=
  let nodeCount := 0 in
  let nodeCount :=
    int_add nodeCount (MasterProfile.Count (Properties.MasterProfile properties)) in
  let nodeCount :=
    getKubernetesPodStartIndex_loop (Properties.AgentPoolProfiles properties)
      nodeCount in
  int_add nodeCount 1.

(** The inner loop [for i := 0; i < agentProfile.Count; i++] of
    [getKubernetesSubnets]: [n] iterations are left; the state is
    [cidrIndex] and the buffer. *)
Fixpoint getKubernetesSubnets_vms (n : nat) (cidrIndex : Z) (buf : string)
    : Z * string :=
  match n with
  | O => (cidrIndex, buf)
  | S n' =>
      let buf := buf +:+ ",
" in
      let buf := buf +:+ Sprintf subnetString [FInt cidrIndex; FInt cidrIndex] in
      getKubernetesSubnets_vms n' (int_add cidrIndex 1) buf
  end.

(** The outer loop of [getKubernetesSubnets] over the agent pools.  A
    count that is zero or negative gives no iteration of the inner loop. *)
Fixpoint getKubernetesSubnets_loop (profiles : list AgentPoolProfile.t)
    (cidrIndex : Z) (buf : string) : string :=
  match profiles with
  | [] => buf
  | agentProfile :: rest =>
      if String.eqb (AgentPoolProfile.OSType agentProfile) Windows
      then
        let '(cidrIndex, buf) :=
          getKubernetesSubnets_vms
            (Z.to_nat (AgentPoolProfile.Count agentProfile)) cidrIndex buf in
        getKubernetesSubnets_loop rest cidrIndex buf
      else getKubernetesSubnets_loop rest cidrIndex buf
  end.

Definition getKubernetesSubnets (properties : Properties.t) : string :=
  let cidrIndex := getKubernetesPodStartIndex properties in
  getKubernetesSubnets_loop (Properties.AgentPoolProfiles properties)
    cidrIndex "".

End Topology.

(** *** The text of a security rule, by its fields

    The text [getSecurityRule] is compared with: the rule for [port] up to
    its priority field, the key of that field, and the text that follows
    the priority. *)

Definition securityRule_head (port : Z) : string :=
  "          {
            " +:+ dq +:+ "name" +:+ dq +:+ ": " +:+ dq +:+ "Allow_" +:+
  pretty port +:+
  "" +:+ dq +:+ ",
            " +:+ dq +:+ "properties" +:+ dq +:+ ": {
              " +:+ dq +:+ "access" +:+ dq +:+ ": " +:+ dq +:+ "Allow" +:+ dq +:+ ",
              " +:+ dq +:+ "description" +:+ dq +:+ ": " +:+ dq +:+ "Allow traffic from the Internet to port " +:+
  pretty port +:+
  "" +:+ dq +:+ ",
              " +:+ dq +:+ "destinationAddressPrefix" +:+ dq +:+ ": " +:+ dq +:+ "*" +:+ dq +:+ ",
              " +:+ dq +:+ "destinationPortRange" +:+ dq +:+ ": " +:+ dq +:+ "" +:+
  pretty port +:+
  "" +:+ dq +:+ ",
              " +:+ dq +:+ "direction" +:+ dq +:+ ": " +:+ dq +:+ "Inbound" +:+ dq +:+ ",
              ".

Definition priorityKey : string := dq +:+ "priority" +:+ dq +:+ ": ".

Definition securityRule_tail : string :=
  Eval vm_compute in
",
              " +:+ dq +:+ "protocol" +:+ dq +:+ ": " +:+ dq +:+ "*" +:+ dq +:+ ",
              " +:+ dq +:+ "sourceAddressPrefix" +:+ dq +:+ ": " +:+ dq +:+ "Internet" +:+ dq +:+ ",
              " +:+ dq +:+ "sourcePortRange" +:+ dq +:+ ": " +:+ dq +:+ "*" +:+ dq +:+ "
            }
          }".

Definition securityRuleWithPriority (port priority : Z) : string :=
  securityRule_head port +:+ priorityKey +:+ pretty priority +:+
  securityRule_tail.

(** The separator the list builders write between two fragments. *)
Definition fragmentSeparator : string := ",
".

(** The fragments for the elements of [xs] from index [k] on, each one
    but the first of the whole list preceded by the separator: what a loop
    of the shape [if index > 0 { write separator }; write fragment] leaves
    in its buffer. *)
Fixpoint fragments_from {A : Type} (fragment : nat -> A -> string) (k : nat)
    (xs : list A) : string :=
  match xs with
  | [] => ""
  | x :: rest =>
      (match k with O => "" | S _ => fragmentSeparator end) +:+
      fragment k x +:+ fragments_from fragment (S k) rest
  end.

(** *** The text of a pod subnet, and the node counts of a pool list

    The text [getKubernetesSubnets] is compared with: the fragment for the
    third octet [k], separator included. *)

Definition podSubnetFragment (k : Z) : string :=
  fragmentSeparator +:+
  "{
            " +:+ dq +:+ "name" +:+ dq +:+ ": " +:+ dq +:+ "podCIDR" +:+
  pretty k +:+
  "" +:+ dq +:+ ",
            " +:+ dq +:+ "properties" +:+ dq +:+ ": {
              " +:+ dq +:+ "addressPrefix" +:+ dq +:+ ": " +:+ dq +:+ "10.244." +:+
  pretty k +:+
  ".0/24" +:+ dq +:+ ",
              " +:+ dq +:+ "networkSecurityGroup" +:+ dq +:+ ": {
                " +:+ dq +:+ "id" +:+ dq +:+ ": " +:+ dq +:+ "[variables('nsgID')]" +:+ dq +:+ "
              },
              " +:+ dq +:+ "routeTable" +:+ dq +:+ ": {
                " +:+ dq +:+ "id" +:+ dq +:+ ": " +:+ dq +:+ "[variables('routeTableID')]" +:+ dq +:+ "
              }
            }
          }".

(** The concatenation of a list of texts. *)
Definition strcat (l : list string) : string := fold_right String.append "" l.

Section NodeCounts.
Context `{Env}.

(** The nodes of the pools that are not Windows pools. *)
Fixpoint nonWindowsNodeCount (profiles : list AgentPoolProfile.t) : Z :=
  match profiles with
  | [] => 0
  | p :: rest =>
      (if String.eqb (AgentPoolProfile.OSType p) Windows
       then 0 else AgentPoolProfile.Count p) + nonWindowsNodeCount rest
  end.

(** The virtual machines of the Windows pools. *)
Fixpoint windowsNodeCount (profiles : list AgentPoolProfile.t) : Z :=
  match profiles with
  | [] => 0
  | p :: rest =>
      (if String.eqb (AgentPoolProfile.OSType p) Windows
       then AgentPoolProfile.Count p else 0) + windowsNodeCount rest
  end.

End NodeCounts.

(** ** Package [unicode/utf8] *)

Module utf8.

Definition RuneError : Z := 65533.

Definition byte_of (c : ascii) : Z := Z.of_N (N_of_ascii c).

Definition in_range (lo hi : Z) (c : ascii) : bool :=
  (lo <=? byte_of c) && (byte_of c <=? hi).

(** [utf8.DecodeRuneInString s]: the first rune of [s] and its width in
    bytes; [(RuneError, 1)] for a byte sequence that is no encoding, and
    [(RuneError, 0)] for the empty string. *)
Definition DecodeRuneInString (s : string) : Z * nat :=
  match s with
  | EmptyString => (RuneError, O)
  | String c0 t0 =>
      let s0 := byte_of c0 in
      if s0 <? 128 then (s0, 1%nat)
      else if (s0 <? 194) || (244 <? s0) then (RuneError, 1%nat)
      else
        let lo := if s0 =? 224 then 160 else if s0 =? 240 then 144 else 128 in
        let hi := if s0 =? 237 then 159 else if s0 =? 244 then 143 else 191 in
        match t0 with
        | EmptyString => (RuneError, 1%nat)
        | String c1 t1 =>
            if negb (in_range lo hi c1) then (RuneError, 1%nat)
            else if s0 <? 224
            then (Z.lor (Z.shiftl (Z.land s0 31) 6) (Z.land (byte_of c1) 63),
                  2%nat)
            else
              match t1 with
              | EmptyString => (RuneError, 1%nat)
              | String c2 t2 =>
                  if negb (in_range 128 191 c2) then (RuneError, 1%nat)
                  else if s0 <? 240
                  then (Z.lor (Z.shiftl (Z.land s0 15) 12)
                          (Z.lor (Z.shiftl (Z.land (byte_of c1) 63) 6)
                                 (Z.land (byte_of c2) 63)),
                        3%nat)
                  else
                    match t2 with
                    | EmptyString => (RuneError, 1%nat)
                    | String c3 _ =>
                        if negb (in_range 128 191 c3) then (RuneError, 1%nat)
                        else (Z.lor (Z.shiftl (Z.land s0 7) 18)
                                (Z.lor (Z.shiftl (Z.land (byte_of c1) 63) 12)
                                   (Z.lor (Z.shiftl (Z.land (byte_of c2) 63) 6)
                                          (Z.land (byte_of c3) 63))),
                              4%nat)
                    end
              end
        end
  end.

End utf8.

(** [s[n:]] and [s[:n]] for [n] within the length of [s]. *)
Fixpoint string_drop (n : nat) (s : string) : string :=
  match n, s with
  | S n', String _ s' => string_drop n' s'
  | _, _ => s
  end.

Fixpoint string_take (n : nat) (s : string) : string :=
  match n, s with
  | S n', String c s' => String c (string_take n' s')
  | _, _ => EmptyString
  end.

Section EqualFold.
Context `{Env}.

(** The loop of [strings.EqualFold]: both strings lose their first rune
    in every iteration, so the length of [s] bounds the iterations
    ([fuel]). *)
Fixpoint EqualFold_loop (fuel : nat) (s t : string) : bool :=
  match s, t with
  | EmptyString, _ | _, EmptyString => String.eqb s t
  | _, _ =>
      match fuel with
      | O => false
      | S fuel' =>
          let '(sr, sn) := utf8.DecodeRuneInString s in
          let '(tr, tn) := utf8.DecodeRuneInString t in
          let s' := string_drop sn s in
          let t' := string_drop tn t in
          if sr =? tr then EqualFold_loop fuel' s' t'
          else
            let '(sr, tr) := if tr <? sr then (tr, sr) else (sr, tr) in
            if tr <? 128
            then
              if (65 <=? sr) && (sr <=? 90) && (tr =? sr + 97 - 65)
              then EqualFold_loop fuel' s' t'
              else false
            else
              if SimpleFold_reaches sr tr
              then EqualFold_loop fuel' s' t'
              else false
      end
  end.

(** [strings.EqualFold s t]. *)
Definition EqualFold (s t : string) : bool :=
  EqualFold_loop (String.length s) s t.

End EqualFold.

(** ** Package [encoding/base64]: the standard encoding, with padding *)

Module base64.

Definition encodeStd : string :=
  "ABCDEFGHIJKLMNOPQRSTUVWXYZabcdefghijklmnopqrstuvwxyz0123456789+/".

Definition padChar : ascii := "="%char.

(** The character of a 6-bit value. *)
Definition enc (n : Z) : ascii :=
  match String.get (Z.to_nat n) encodeStd with
  | Some c => c
  | None => padChar
  end.

(** [base64.StdEncoding.EncodeToString src]. *)
Fixpoint EncodeToString (src : string) : string :=
  match src with
  | EmptyString => EmptyString
  | String a EmptyString =>
      let x := utf8.byte_of a in
      String (enc (x / 4)) (String (enc (x mod 4 * 16))
        (String padChar (String padChar EmptyString)))
  | String a (String b EmptyString) =>
      let x := utf8.byte_of a in
      let y := utf8.byte_of b in
      String (enc (x / 4)) (String (enc (x mod 4 * 16 + y / 16))
        (String (enc (y mod 16 * 4)) (String padChar EmptyString)))
  | String a (String b (String c rest)) =>
      let x := utf8.byte_of a in
      let y := utf8.byte_of b in
      let z := utf8.byte_of c in
      String (enc (x / 4)) (String (enc (x mod 4 * 16 + y / 16))
        (String (enc (y mod 16 * 4 + z / 64)) (String (enc (z mod 64))
          (EncodeToString rest))))
  end.

(** The 6-bit value of a character of the alphabet. *)
Fixpoint index_of (c : ascii) (alphabet : string) (i : Z) : option Z :=
  match alphabet with
  | EmptyString => None
  | String d rest => if Ascii.eqb c d then Some i else index_of c rest (i + 1)
  end.

Definition dec (c : ascii) : option Z := index_of c encodeStd 0.

Definition char_of (n : Z) : ascii := ascii_of_N (Z.to_N n).

(** [base64.StdEncoding.DecodeString] on a text without line breaks:
    groups of four characters, the last one padded. *)
Fixpoint DecodeString (s : string) : option string :=
  match s with
  | EmptyString => Some EmptyString
  | String c0 (String c1 (String c2 (String c3 rest))) =>
      match dec c0, dec c1 with
      | Some p, Some q =>
          if Ascii.eqb c2 padChar
          then
            if Ascii.eqb c3 padChar && String.eqb rest EmptyString
            then Some (String (char_of (p * 4 + q / 16)) EmptyString)
            else None
          else
            match dec c2 with
            | Some r =>
                if Ascii.eqb c3 padChar
                then
                  if String.eqb rest EmptyString
                  then Some (String (char_of (p * 4 + q / 16))
                               (String (char_of (q mod 16 * 16 + r / 4))
                                  EmptyString))
                  else None
                else
                  match dec c3, DecodeString rest with
                  | Some t, Some tail =>
                      Some (String (char_of (p * 4 + q / 16))
                              (String (char_of (q mod 16 * 16 + r / 4))
                                 (String (char_of (r mod 4 * 64 + t)) tail)))
                  | _, _ => None
                  end
            | None => None
            end
      | _, _ => None
      end
  | _ => None
  end.

End base64.

(** ** Package [regexp]: the constructs of [keyvaultSecretPathRe]

    Go's [regexp] gives the match a backtracking search finds first
    (leftmost, each greedy operator preferring the longer repetition).
    The matcher below is that search, in continuation passing style.

    A class is a set of bytes.  The two classes of [keyvaultSecretPathRe],
    [\S] and [[^/\s]], hold every byte of a multi-byte rune, and each
    repetition of them is followed by an ASCII byte or the end of the
    text, so repeating them byte by byte finds the matches that Go's rune
    by rune repetition finds. *)

Module regexp.

Inductive re : Type :=
| Lit (l : string)                 (* a literal text *)
| AnyCharNotNL                     (* [.] *)
| PlusClass (p : ascii -> bool)    (* [c+] for a class [c], greedy *)
| Cat (r1 r2 : re)                 (* [r1 r2] *)
| Group (n : nat) (r : re)         (* [(r)], the capture group number [n] *)
| Opt (r : re)                     (* [r?], greedy *)
| BeginText                        (* [^] *)
| EndText.                         (* [$] *)

(** The state of a search: the submatches found so far, by group number. *)
Definition captures : Type := list string.

(** A continuation takes the text just matched, the text that is left
    and the submatches. *)
Definition cont : Type := string -> string -> captures -> option captures.

(** [c+]: at least one byte of the class, then as many as the rest of
    the pattern allows, the longest repetition first.  [acc] is the text
    the repetition holds so far. *)
Fixpoint plus_class (p : ascii -> bool) (k : string -> string -> option captures)
    (acc : string) (s : string) : option captures :=
  match s with
  | EmptyString => None
  | String c s' =>
      if p c
      then
        let acc' := acc +:+ String c EmptyString in
        match plus_class p k acc' s' with
        | Some found => Some found
        | None => k acc' s'
        end
      else None
  end.

(** The search for [r] at the head of [s]; [bot] tells whether [s] is the
    whole text. *)
Fixpoint exec (r : re) (bot : bool) (s : string) (caps : captures) (k : cont)
    : option captures :=
  match r with
  | Lit l =>
      if GoStrings.HasPrefix s l
      then k l (string_drop (String.length l) s) caps
      else None
  | AnyCharNotNL =>
      let '(rune, width) := utf8.DecodeRuneInString s in
      match width with
      | O => None
      | _ =>
          if rune =? 10 then None
          else k (string_take width s) (string_drop width s) caps
      end
  | PlusClass p => plus_class p (fun m rest => k m rest caps) EmptyString s
  | Cat r1 r2 =>
      exec r1 bot s caps (fun m1 s1 caps1 =>
        exec r2 (bot && String.eqb m1 EmptyString) s1 caps1 (fun m2 s2 caps2 =>
          k (m1 +:+ m2) s2 caps2))
  | Group n r =>
      exec r bot s caps (fun m s' caps' => k m s' (<[n := m]> caps'))
  | Opt r =>
      match exec r bot s caps k with
      | Some found => Some found
      | None => k EmptyString s caps
      end
  | BeginText => if bot then k EmptyString s caps else None
  | EndText =>
      match s with
      | EmptyString => k EmptyString s caps
      | _ => None
      end
  end.

(** The search for a match of [r] that starts in [s], the leftmost start
    first. *)
Fixpoint search (r : re) (ngroups : nat) (bot : bool) (s : string)
    : option captures :=
  match exec r bot s (replicate (S ngroups) EmptyString)
          (fun m _ caps => Some (<[O := m]> caps)) with
  | Some found => Some found
  | None =>
      match s with
      | EmptyString => None
      | String _ s' => search r ngroups false s'
      end
  end.

(** [re.FindStringSubmatch s] for a pattern [r] with [ngroups] capture
    groups: nil ([None]) without a match, else the text of the match and
    of each group, the empty string for a group that took no part. *)
Definition FindStringSubmatch (r : re) (ngroups : nat) (s : string)
    : option (list string) :=
  search r ngroups true s.

(** [\s] is the ASCII white space: tab, line feed, form feed, carriage
    return and space. *)
Definition isSpace (c : ascii) : bool :=
  let b := utf8.byte_of c in
  (b =? 9) || (b =? 10) || (b =? 12) || (b =? 13) || (b =? 32).

(** [\S] *)
Definition notSpace (c : ascii) : bool := negb (isSpace c).

(** [[^/\s]] *)
Definition notSlashNorSpace (c : ascii) : bool :=
  negb (Ascii.eqb c "/") && negb (isSpace c).

End regexp.

(** ** Parameter and secret encoder *)

Import regexp.

Declare Scope re_scope.
Delimit Scope re_scope with re.
Notation "r1 ;; r2" := (Cat r1 r2) (at level 100, r2 at level 200) : re_scope.

(** The pattern compiled in [init]:
    [^(/subscriptions/\S+/resourceGroups/\S+/providers/Microsoft.KeyVault/vaults/\S+)/secrets/([^/\s]+)(/(\S+))?$] *)
Definition keyvaultSecretPathRe : re :=
 (BeginText ;;
  Group 1 (Lit "/subscriptions/" ;; PlusClass notSpace ;;
           Lit "/resourceGroups/" ;; PlusClass notSpace ;;
           Lit "/providers/Microsoft" ;; AnyCharNotNL ;; Lit "KeyVault/vaults/" ;;
           PlusClass notSpace) ;;
  Lit "/secrets/" ;;
  Group 2 (PlusClass notSlashNorSpace) ;;
  Opt (Group 3 (Lit "/" ;; Group 4 (PlusClass notSpace))) ;;
  EndText)%re.

Module KeyVaultID.
Record t : Type := { ID : string }.
End KeyVaultID.

Module KeyVaultRef.
Record t : Type := {
  KeyVault : KeyVaultID.t;
  SecretName : string;
  SecretVersion : string
}.
End KeyVaultRef.

(** An [interface{}] value as the encoder meets it: nil, a scalar, a
    pointer to a [KeyVaultRef], or a [paramsMap]. *)
#[warnings="-register-all"]
Inductive value : Type :=
| VNil
| VBool (b : bool)
| VInt (z : Z)
| VString (s : string)
| VKeyVaultRef (r : KeyVaultRef.t)
| VParams (m : gmap string value).

(** [paramsMap] is [map[string]interface{}].  A Go map is updated in
    place; the model returns the updated map. *)
Abbreviation paramsMap := (gmap string value).

Definition addValue (m : paramsMap) (k : string) (v : value) : paramsMap :=
  <[k := VParams {[ "value" := v ]}]> m.

Definition addKeyvaultReference (m : paramsMap) (k : string)
    (vaultID secretName secretVersion : string) : paramsMap :=
  <[k := VParams {[ "reference" :=
                      VKeyVaultRef
                        {| KeyVaultRef.KeyVault := {| KeyVaultID.ID := vaultID |};
                           KeyVaultRef.SecretName := secretName;
                           KeyVaultRef.SecretVersion := secretVersion |} ]}]> m.

Definition addSecret (m : paramsMap) (k : string) (v : value) (encode : bool)
    : paramsMap :=
  match v with
  | VString str =>
      match FindStringSubmatch keyvaultSecretPathRe 4 str with
      | Some [_; part1; part2; _; part4] =>
          addKeyvaultReference m k part1 part2 part4
      | _ =>
          if encode
          then addValue m k (VString (base64.EncodeToString str))
          else addValue m k (VString str)
      end
  | _ => addValue m k v
  end.

(** ** Package [strconv] *)

Module strconv.

(** The value of a string of decimal digits, most significant first;
    [acc] is the value of the digits read so far. *)
Fixpoint digits_value (s : string) (acc : Z) : option Z :=
  match s with
  | EmptyString => Some acc
  | String c s' =>
      let d := utf8.byte_of c - 48 in
      if (0 <=? d) && (d <=? 9) then digits_value s' (acc * 10 + d) else None
  end.

(** [strconv.Atoi s]: an optional sign and at least one decimal digit,
    the value within the range of [int]; [None] stands for the error. *)
Definition Atoi (s : string) : option Z :=
  let '(negative, digits) :=
    match s with
    | String "-" s' => (true, s')
    | String "+" s' => (false, s')
    | _ => (false, s)
    end in
  match digits with
  | EmptyString => None
  | _ =>
      match digits_value digits 0 with
      | Some n =>
          let v := if negative then - n else n in
          if (- 2 ^ 63 <=? v) && (v <? 2 ^ 63) then Some v else None
      | None => None
      end
  end.

(** [strconv.Itoa]. *)
Definition Itoa (z : Z) : string := pretty z.

End strconv.

(** ** Package [github.com/pkg/errors]

    An error is its message; a nil error is [None]. *)

Module errors.

(** [errors.Wrap err message]: nil for a nil [err]. *)
Definition Wrap (err : option string) (message : string) : option string :=
  match err with
  | None => None
  | Some e => Some (message +:+ ": " +:+ e)
  end.

End errors.

(** ** KubeConfig generator *)

Section KubeConfig.
Context `{Env}.

Definition caCertificatePlaceholder : string :=
  Eval vm_compute in
  "{{WrapAsVerbatim " +:+ dq +:+ "parameters('caCertificate')" +:+ dq +:+ "}}".

Definition fqdnPlaceholder : string :=
  Eval vm_compute in
  "{{WrapAsVerbatim " +:+ dq +:+
  "reference(concat('Microsoft.Network/publicIPAddresses/', variables('masterPublicIPAddressName'))).dnsSettings.fqdn"
  +:+ dq +:+ "}}".

Definition resourceGroupPlaceholder : string :=
  Eval vm_compute in
  "{{WrapAsVariable " +:+ dq +:+ "resourceGroup" +:+ dq +:+ "}}".

Definition authInfoPlaceholder : string := "{{authInfo}}".

Definition certAuthInfoFormat : string :=
  Eval vm_compute in
  "{" +:+ dq +:+ "client-certificate-data" +:+ dq +:+ ":" +:+ dq +:+ "%v" +:+ dq
  +:+ "," +:+ dq +:+ "client-key-data" +:+ dq +:+ ":" +:+ dq +:+ "%v" +:+ dq +:+ "}".

Definition aadAuthInfoFormat : string :=
  Eval vm_compute in
  "{" +:+ dq +:+ "auth-provider" +:+ dq +:+ ":{" +:+ dq +:+ "name" +:+ dq +:+ ":"
  +:+ dq +:+ "azure" +:+ dq +:+ "," +:+ dq +:+ "config" +:+ dq +:+ ":{"
  +:+ dq +:+ "environment" +:+ dq +:+ ":" +:+ dq +:+ "%v" +:+ dq +:+ ","
  +:+ dq +:+ "tenant-id" +:+ dq +:+ ":" +:+ dq +:+ "%v" +:+ dq +:+ ","
  +:+ dq +:+ "apiserver-id" +:+ dq +:+ ":" +:+ dq +:+ "%v" +:+ dq +:+ ","
  +:+ dq +:+ "client-id" +:+ dq +:+ ":" +:+ dq +:+ "%v" +:+ dq +:+ "}}}".

(** [net.IP.String] of a four byte address. *)
Definition IPv4_String (ip : Z * Z * Z * Z) : string :=
  let '(a, b, c, d) := ip in
  pretty a +:+ "." +:+ pretty b +:+ "." +:+ pretty c +:+ "." +:+ pretty d.

(** The condition of the first branch of [GenerateKubeConfig]: all of
    [OrchestratorProfile], [KubernetesConfig] and [PrivateCluster] are
    there and [PrivateCluster.Enabled] is a true pointer. *)
Definition privateClusterEnabled (properties : Properties.t) : bool :=
  match Properties.OrchestratorProfile properties with
  | Some orchestratorProfile =>
      match OrchestratorProfile.KubernetesConfig orchestratorProfile with
      | Some kubernetesConfig =>
          match KubernetesConfig.PrivateCluster kubernetesConfig with
          | Some privateCluster =>
              IsTrueBoolPointer (PrivateCluster.Enabled privateCluster)
          | None => false
          end
      | None => false
      end
  | None => false
  end.

(** The value of [authInfo] at the end of [GenerateKubeConfig]. *)
Definition authInfo (certificateProfile : CertificateProfile.t)
    (aadProfile : option AADProfile.t) (location : string) : string :=
  match aadProfile with
  | None =>
      Sprintf certAuthInfoFormat
        [FStr (base64.EncodeToString
                 (CertificateProfile.KubeConfigCertificate certificateProfile));
         FStr (base64.EncodeToString
                 (CertificateProfile.KubeConfigPrivateKey certificateProfile))]
  | Some aad =>
      let tenantID := AADProfile.TenantID aad in
      let tenantID :=
        if (String.length tenantID =? 0)%nat then "common" else tenantID in
      Sprintf aadAuthInfoFormat
        [FStr (GetCloudTargetEnv location);
         FStr tenantID;
         FStr (AADProfile.ServerAppID aad);
         FStr (AADProfile.ClientAppID aad)]
  end.

Definition GenerateKubeConfig (properties : option Properties.t)
    (location : string) : result string :=
  match properties with
  | None => Err "Properties nil in GenerateKubeConfig"
  | Some properties =>
  match Properties.CertificateProfile properties with
  | None => Err "CertificateProfile property may not be nil in GenerateKubeConfig"
  | Some certificateProfile =>
  match Asset kubeConfigJSON with
  | Err err =>
      Err (Sprintf "error reading kube config template file %s"
             [FStr kubeConfigJSON] +:+ ": " +:+ err)
  | Ok b =>
      let kubeconfig := b in
      let kubeconfig :=
        GoStrings.Replace kubeconfig caCertificatePlaceholder
          (base64.EncodeToString
             (CertificateProfile.CaCertificate certificateProfile)) in
      let masterProfile := Properties.MasterProfile properties in
      let finish (kubeconfig : string) : result string :=
        let kubeconfig :=
          GoStrings.Replace kubeconfig resourceGroupPlaceholder
            (MasterProfile.DNSPrefix masterProfile) in
        let authInfo :=
          authInfo certificateProfile (Properties.AADProfile properties)
            location in
        Ok (GoStrings.Replace kubeconfig authInfoPlaceholder authInfo) in
      if privateClusterEnabled properties
      then
        if 1 <? MasterProfile.Count masterProfile
        then
          match ParseIP_To4 (MasterProfile.FirstConsecutiveStaticIP masterProfile) with
          | None =>
              Err (Sprintf
                     "MasterProfile.FirstConsecutiveStaticIP '%s' is an invalid IP address"
                     [FStr (MasterProfile.FirstConsecutiveStaticIP masterProfile)])
          | Some (ip0, ip1, ip2, ip3) =>
              let lbIP :=
                (ip0, ip1, ip2,
                 byte_wrap (ip3 + DefaultInternalLbStaticIPOffset)) in
              finish (GoStrings.Replace kubeconfig fqdnPlaceholder
                        (IPv4_String lbIP))
          end
        else
          finish (GoStrings.Replace kubeconfig fqdnPlaceholder
                    (MasterProfile.FirstConsecutiveStaticIP masterProfile))
      else
        finish (GoStrings.Replace kubeconfig fqdnPlaceholder
                  (FormatAzureProdFQDNByLocation
                     (MasterProfile.DNSPrefix masterProfile) location))
  end end end.

End KubeConfig.

(** ** Custom script packager *)

Section CustomScript.
Context `{Env}.

Definition crlf : string := String CR (String LF EmptyString).
Definition lf : string := String LF EmptyString.

Definition getBase64CustomScriptFromStr (str : string) : string :=
  base64.EncodeToString (gzip_compress str).

Definition getBase64CustomScript (csFilename : string) : outcome string :=
  match Asset csFilename with
  | Err err => Panics (Sprintf "BUG: %s" [FStr err])
  | Ok b =>
      let csStr := b in
      let csStr := GoStrings.Replace csStr crlf lf in
      Returns (getBase64CustomScriptFromStr csStr)
  end.

End CustomScript.

(** ** Extension resolver *)

Section Extensions.
Context `{Env}.

(** The part of the process state the resolver acts on: the network, and
    the lines written to standard output. *)
Record RT : Type := { world : World; stdout : list string }.

(** A computation that reads and changes the run-time state. *)
Definition M (A : Type) : Type := RT -> A * RT.

#[export] Instance M_ret : MRet M := fun A (a : A) rt => (a, rt).

#[export] Instance M_bind : MBind M := fun A B (f : A -> M B) (m : M A) rt =>
  let '(a, rt') := m rt in f a rt'.

(** [http.Get url], with the body read. *)
Definition httpGet (url : string) : M http_result := fun rt =>
  let '(res, w) := http_Get url (world rt) in
  (res, {| world := w; stdout := stdout rt |}).

(** [fmt.Println line]. *)
Definition Println (line : string) : M unit := fun rt =>
  (tt, {| world := world rt; stdout := stdout rt ++ [line] |}).

Definition getExtensionURL (rootURL extensionName version fileName query : string)
    : string :=
  let extensionsDir := "extensions" in
  let url :=
    rootURL +:+ extensionsDir +:+ "/" +:+ extensionName +:+ "/" +:+ version
    +:+ "/" +:+ fileName in
  if negb (String.eqb query "") then url +:+ "?" +:+ query else url.

Fixpoint stringInSlice (a : string) (list : list string) : bool :=
  match list with
  | [] => false
  | b :: rest => if String.eqb b a then true else stringInSlice a rest
  end.

Definition getExtensionResource
    (rootURL extensionName version fileName query : string)
    : M (string * option string) :=
  let requestURL := getExtensionURL rootURL extensionName version fileName query in
  res ← httpGet requestURL;
  match res with
  | HttpError err =>
      mret ("", Some (Sprintf
        "Unable to GET extension resource for extension: %s with version %s with filename %s at URL: %s"
        [FStr extensionName; FStr version; FStr fileName; FStr requestURL]
        +:+ ": " +:+ err))
  | HttpResponse StatusCode Status Body =>
      if negb (StatusCode =? 200)
      then
        mret ("", Some (Sprintf
          "Unable to GET extension resource for extension: %s with version %s with filename %s at URL: %s StatusCode: %s: Status: %s"
          [FStr extensionName; FStr version; FStr fileName; FStr requestURL;
           FStr (strconv.Itoa StatusCode); FStr Status]))
      else
        match Body with
        | Err err =>
            mret ("", Some (Sprintf
              "Unable to GET extension resource for extension: %s with version %s  with filename %s at URL: %s"
              [FStr extensionName; FStr version; FStr fileName; FStr requestURL]
              +:+ ": " +:+ err))
        | Ok body => mret (body, None)
        end
  end.

Definition orchestratorSupportsExtension
    (rootURL orchestrator extensionName version query : string)
    : M (bool * option string) :=
  '(orchestratorBytes, err) ←
    getExtensionResource rootURL extensionName version
      "supported-orchestrators.json" query;
  match err with
  | Some _ => mret (false, err)
  | None =>
      match json_Unmarshal_strings orchestratorBytes with
      | None =>
          mret (false, Some (Sprintf
            "Unable to parse supported-orchestrators.json for Extension %s Version %s"
            [FStr extensionName; FStr version]))
      | Some supportedOrchestrators =>
          if negb (stringInSlice orchestrator supportedOrchestrators)
          then
            mret (false, Some (Sprintf
              "Orchestrator: %s not in list of supported orchestrators for Extension: %s Version %s"
              [FStr orchestrator; FStr extensionName; FStr version]))
          else mret (true, None)
      end
  end.

Definition getLinkedTemplateTextForURL
    (rootURL orchestrator extensionName version query : string)
    : M (string * option string) :=
  '(supportsExtension, err) ←
    orchestratorSupportsExtension rootURL orchestrator extensionName version query;
  if negb supportsExtension
  then mret ("", errors.Wrap err "Extension not supported for orchestrator")
  else
    '(templateLinkBytes, err) ←
      getExtensionResource rootURL extensionName version "template-link.json" query;
    match err with
    | Some _ => mret ("", err)
    | None => mret (templateLinkBytes, None)
    end.

(** The placeholder of the loop count between its double quotes. *)
Definition quotedLoopCountPlaceholder : string :=
  Eval vm_compute in dq +:+ "EXTENSION_LOOP_COUNT" +:+ dq.

Definition internalGetPoolLinkedTemplateText
    (extTargetVMNamePrefix orchestratorType loopCount loopOffset : string)
    (extensionProfile : ExtensionProfile.t) : M (string * option string) :=
  '(dta, e) ←
    getLinkedTemplateTextForURL (ExtensionProfile.RootURL extensionProfile)
      orchestratorType (ExtensionProfile.Name extensionProfile)
      (ExtensionProfile.Version extensionProfile)
      (ExtensionProfile.URLQuery extensionProfile);
  match e with
  | Some _ => mret ("", e)
  | None =>
      let dta :=
        if GoStrings.Contains extTargetVMNamePrefix "master"
        then GoStrings.Replace dta "EXTENSION_TARGET_VM_TYPE" "master"
        else GoStrings.Replace dta "EXTENSION_TARGET_VM_TYPE" "agent" in
      let extensionsParameterReference :=
        Sprintf "[parameters('%sParameters')]"
          [FStr (ExtensionProfile.Name extensionProfile)] in
      let dta :=
        GoStrings.Replace dta "EXTENSION_PARAMETERS_REPLACE"
          extensionsParameterReference in
      let dta :=
        GoStrings.Replace dta "EXTENSION_URL_REPLACE"
          (ExtensionProfile.RootURL extensionProfile) in
      let dta :=
        GoStrings.Replace dta "EXTENSION_TARGET_VM_NAME_PREFIX"
          extTargetVMNamePrefix in
      let dta :=
        match strconv.Atoi loopCount with
        | Some _ => GoStrings.Replace dta quotedLoopCountPlaceholder loopCount
        | None => GoStrings.Replace dta "EXTENSION_LOOP_COUNT" loopCount
        end in
      let dta := GoStrings.Replace dta "EXTENSION_LOOP_OFFSET" loopOffset in
      mret (dta, None)
  end.

Definition getMasterLinkedTemplateText (masterProfile : MasterProfile.t)
    (orchestratorType : string) (extensionProfile : ExtensionProfile.t)
    (singleOrAll : string) : M (string * option string) :=
  let extTargetVMNamePrefix := "variables('masterVMNamePrefix')" in
  let loopCount := "[sub(variables('masterCount'), variables('masterOffset'))]" in
  let loopOffset := "variables('masterOffset')" in
  let loopCount := if EqualFold singleOrAll "single" then "1" else loopCount in
  internalGetPoolLinkedTemplateText extTargetVMNamePrefix orchestratorType
    loopCount loopOffset extensionProfile.

Definition getAgentPoolLinkedTemplateText (agentPoolProfile : AgentPoolProfile.t)
    (orchestratorType : string) (extensionProfile : ExtensionProfile.t)
    (singleOrAll : string) : M (string * option string) :=
  let name := AgentPoolProfile.Name agentPoolProfile in
  let extTargetVMNamePrefix := Sprintf "variables('%sVMNamePrefix')" [FStr name] in
  let loopCount := Sprintf "[variables('%sCount'))]" [FStr name] in
  let loopOffset := "" in
  let '(loopCount, loopOffset) :=
    if IsAvailabilitySets agentPoolProfile
    then (Sprintf "[sub(variables('%sCount'), variables('%sOffset'))]"
            [FStr name; FStr name],
          Sprintf "variables('%sOffset')" [FStr name])
    else (loopCount, loopOffset) in
  let loopCount := if EqualFold singleOrAll "single" then "1" else loopCount in
  internalGetPoolLinkedTemplateText extTargetVMNamePrefix orchestratorType
    loopCount loopOffset extensionProfile.

Fixpoint validateProfileOptedForExtension (extensionName : string)
    (profileExtensions : list Extension.t) : bool * string :=
  match profileExtensions with
  | [] => (false, "")
  | extension :: rest =>
      if String.eqb extensionName (Extension.Name extension)
      then (true, Extension.SingleOrAll extension)
      else validateProfileOptedForExtension extensionName rest
  end.

(** How an iteration of a loop of [getLinkedTemplatesForExtensions] ends:
    with the next value of [result], or with a [return] of the
    function. *)
Inductive loop_end : Type :=
| Continue (result : string)
| Return (value : string).

(** One opted-in target of an extension: the separator, then the linked
    template text, or the way out when there is an error. *)
Definition appendLinkedTemplate (result : string)
    (linkedTemplateText : M (string * option string)) : M loop_end :=
  let result := result +:+ "," in
  '(dta, e) ← linkedTemplateText;
  match e with
  | Some msg => _ ← Println msg; mret (Return "")
  | None => mret (Continue (result +:+ dta))
  end.

(** The inner loop, over the agent pools. *)
Fixpoint agentPools_loop (orchestratorType : string)
    (extensionProfile : ExtensionProfile.t)
    (agentPoolProfiles : list AgentPoolProfile.t) (result : string)
    : M loop_end :=
  match agentPoolProfiles with
  | [] => mret (Continue result)
  | agentPoolProfile :: rest =>
      let poolProfileExtensions := AgentPoolProfile.Extensions agentPoolProfile in
      let '(poolOptedForExtension, singleOrAll) :=
        validateProfileOptedForExtension
          (ExtensionProfile.Name extensionProfile) poolProfileExtensions in
      step ←
        (if poolOptedForExtension
         then appendLinkedTemplate result
                (getAgentPoolLinkedTemplateText agentPoolProfile
                   orchestratorType extensionProfile singleOrAll)
         else mret (Continue result));
      match step with
      | Return v => mret (Return v)
      | Continue result =>
          agentPools_loop orchestratorType extensionProfile rest result
      end
  end.

(** The outer loop, over the extension profiles. *)
Fixpoint extensions_loop (properties : Properties.t) (orchestratorType : string)
    (extensions : list ExtensionProfile.t) (result : string) : M loop_end :=
  match extensions with
  | [] => mret (Continue result)
  | extensionProfile :: rest =>
      let masterProfileExtensions :=
        MasterProfile.Extensions (Properties.MasterProfile properties) in
      let '(masterOptedForExtension, singleOrAll) :=
        validateProfileOptedForExtension
          (ExtensionProfile.Name extensionProfile) masterProfileExtensions in
      step ←
        (if masterOptedForExtension
         then appendLinkedTemplate result
                (getMasterLinkedTemplateText
                   (Properties.MasterProfile properties) orchestratorType
                   extensionProfile singleOrAll)
         else mret (Continue result));
      match step with
      | Return v => mret (Return v)
      | Continue result =>
          step ←
            agentPools_loop orchestratorType extensionProfile
              (Properties.AgentPoolProfiles properties) result;
          match step with
          | Return v => mret (Return v)
          | Continue result =>
              extensions_loop properties orchestratorType rest result
          end
      end
  end.

(** [getLinkedTemplatesForExtensions], for properties with a master
    profile; reading [OrchestratorType] through a nil [OrchestratorProfile]
    panics. *)
Definition getLinkedTemplatesForExtensions (properties : Properties.t)
    : M (outcome string) :=
  let result := "" in
  let extensions := Properties.ExtensionProfiles properties in
  match Properties.OrchestratorProfile properties with
  | None => mret (Panics "invalid memory address or nil pointer dereference")
  | Some orchestratorProfile =>
      let orchestratorType :=
        OrchestratorProfile.OrchestratorType orchestratorProfile in
      step ← extensions_loop properties orchestratorType extensions result;
      match step with
      | Return v => mret (Returns v)
      | Continue result => mret (Returns result)
      end
  end.

End Extensions.

(** ** Extension script commands *)

Section ExtensionScripts.
Context `{Env}.

(** The loop both command builders start with: the first extension
    profile whose name equals the name of the extension, letter case put
    aside; nil ([None]) when there is none. *)
Fixpoint lookupExtensionProfile (extension : Extension.t)
    (extensionProfiles : list ExtensionProfile.t) : option ExtensionProfile.t :=
  match extensionProfiles with
  | [] => None
  | eP :: rest =>
      if EqualFold (ExtensionProfile.Name eP) (Extension.Name extension)
      then Some eP
      else lookupExtensionProfile extension rest
  end.

Definition linuxScriptCommandsFormat : string :=
  Eval vm_compute in
"- sudo /usr/bin/curl --retry 5 --retry-delay 10 --retry-max-time 30 -o %s --create-dirs " +:+ dq +:+ "%s" +:+ dq +:+ " 
- sudo /bin/chmod 744 %s 
- sudo %s ',%s,' > /var/log/%s-output.log".

Definition windowsScriptCommandsFormat : string :=
  Eval vm_compute in
"New-Item -ItemType Directory -Force -Path " +:+ dq +:+ "%s" +:+ dq +:+ " ; Invoke-WebRequest -Uri " +:+ dq +:+ "%s" +:+ dq +:+ " -OutFile " +:+ dq +:+ "%s" +:+ dq +:+ " ; powershell " +:+ dq +:+ "%s %s" +:+ dq +:+ "
".

Definition makeExtensionScriptCommands (extension : Extension.t)
    (extensionProfiles : list ExtensionProfile.t) (copyIndex : string)
    : outcome string :=
  match lookupExtensionProfile extension extensionProfiles with
  | None =>
      Panics (Sprintf
        "%s extension referenced was not found in the extension profile"
        [FStr (Extension.Name extension)])
  | Some extensionProfile =>
      let name := ExtensionProfile.Name extensionProfile in
      let extensionsParameterReference :=
        Sprintf "parameters('%sParameters')" [FStr name] in
      let scriptURL :=
        getExtensionURL (ExtensionProfile.RootURL extensionProfile) name
          (ExtensionProfile.Version extensionProfile)
          (ExtensionProfile.Script extensionProfile)
          (ExtensionProfile.URLQuery extensionProfile) in
      let scriptFilePath :=
        Sprintf "/opt/azure/containers/extensions/%s/%s"
          [FStr name; FStr (ExtensionProfile.Script extensionProfile)] in
      Returns (Sprintf linuxScriptCommandsFormat
        [FStr scriptFilePath; FStr scriptURL; FStr scriptFilePath;
         FStr scriptFilePath; FStr extensionsParameterReference; FStr name])
  end.

Definition makeWindowsExtensionScriptCommands (extension : Extension.t)
    (extensionProfiles : list ExtensionProfile.t) (copyIndex : string)
    : outcome string :=
  match lookupExtensionProfile extension extensionProfiles with
  | None =>
      Panics (Sprintf
        "%s extension referenced was not found in the extension profile"
        [FStr (Extension.Name extension)])
  | Some extensionProfile =>
      let name := ExtensionProfile.Name extensionProfile in
      let scriptURL :=
        getExtensionURL (ExtensionProfile.RootURL extensionProfile) name
          (ExtensionProfile.Version extensionProfile)
          (ExtensionProfile.Script extensionProfile)
          (ExtensionProfile.URLQuery extensionProfile) in
      let scriptFileDir :=
        Sprintf "$env:SystemDrive:/AzureData/extensions/%s" [FStr name] in
      let scriptFilePath :=
        Sprintf "%s/%s"
          [FStr scriptFileDir; FStr (ExtensionProfile.Script extensionProfile)] in
      Returns (Sprintf windowsScriptCommandsFormat
        [FStr scriptFileDir; FStr scriptURL; FStr scriptFilePath;
         FStr scriptFilePath; FStr "$preprovisionExtensionParams"])
  end.

End ExtensionScripts.

(** ** A concrete environment

    An instance of [Env] on which the model runs, used to evaluate the
    functions on examples: a two-file asset store; the dotted decimal
    form of IPv4 addresses; JSON arrays of plain strings; a compressor
    that frames its input without shrinking it; and a network whose state
    is the table of the documents it serves. *)

Module Demo.

(** The text before the first [sep] and the text after it. *)
Fixpoint cut (sep : ascii) (s : string) : string * option string :=
  match s with
  | EmptyString => (EmptyString, None)
  | String c s' =>
      if Ascii.eqb c sep then (EmptyString, Some s')
      else let '(a, b) := cut sep s' in (String c a, b)
  end.

(** A decimal byte without sign or leading zero. *)
Definition octet (s : string) : option Z :=
  match s with
  | EmptyString => None
  | String "0" (String _ _) => None
  | _ =>
      match strconv.digits_value s 0 with
      | Some v => if v <=? 255 then Some v else None
      | None => None
      end
  end.

Definition parseIPv4 (s : string) : option (Z * Z * Z * Z) :=
  match cut "." s with
  | (a, Some r1) =>
      match cut "." r1 with
      | (b, Some r2) =>
          match cut "." r2 with
          | (c, Some d) =>
              match octet a, octet b, octet c, octet d with
              | Some a, Some b, Some c, Some d => Some (a, b, c, d)
              | _, _, _, _ => None
              end
          | _ => None
          end
      | _ => None
      end
  | _ => None
  end.

(** The elements of a JSON array of strings that hold neither a double
    quote nor a backslash; [s] is the text after a double quote that
    opens an element. *)
Fixpoint jsonStrings (s : string) (current : string) : option (list string) :=
  match s with
  | EmptyString => None
  | String c s' =>
      if Ascii.eqb c "034"
      then
        match s' with
        | String "]" EmptyString => Some [current]
        | String "," (String q s'') =>
            if Ascii.eqb q "034"
            then option_map (cons current) (jsonStrings s'' EmptyString)
            else None
        | _ => None
        end
      else if Ascii.eqb c "\" then None
      else jsonStrings s' (current +:+ String c EmptyString)
  end.

Definition jsonUnmarshalStrings (s : string) : option (list string) :=
  match s with
  | String "[" (String "]" EmptyString) => Some []
  | String "[" (String q s') =>
      if Ascii.eqb q "034" then jsonStrings s' EmptyString else None
  | _ => None
  end.

Definition frame (s : string) : string := "GZ" +:+ s.

Definition unframe (s : string) : option string :=
  match s with
  | String "G" (String "Z" s') => Some s'
  | _ => None
  end.

Fixpoint serve (documents : list (string * string)) (url : string) : http_result :=
  match documents with
  | [] => HttpResponse 404 "404 Not Found" (Ok "")
  | (u, body) :: rest =>
      if String.eqb u url then HttpResponse 200 "200 OK" (Ok body)
      else serve rest url
  end.

Definition kubeconfigAsset : string :=
  "server=https://" +:+ fqdnPlaceholder +:+ " ca=" +:+ caCertificatePlaceholder
  +:+ " name=" +:+ resourceGroupPlaceholder +:+ " user=" +:+ authInfoPlaceholder.

Definition scriptAsset : string :=
  "#!/bin/bash" +:+ crlf +:+ "echo provisioned" +:+ crlf.

#[export] Instance env : Env := {|
  Asset name :=
    if String.eqb name "k8s/kubeconfig.json" then Ok kubeconfigAsset
    else if String.eqb name "k8s/provision.sh" then Ok scriptAsset
    else Err ("Asset " +:+ name +:+ " not found");
  kubeConfigJSON := "k8s/kubeconfig.json";
  DefaultInternalLbStaticIPOffset := 10;
  Windows := "Windows";
  IsAvailabilitySets p :=
    String.eqb (AgentPoolProfile.AvailabilityProfile p) "AvailabilitySet";
  FormatAzureProdFQDNByLocation prefix location :=
    prefix +:+ "." +:+ location +:+ ".cloudapp.azure.com";
  IsTrueBoolPointer b := match b with Some true => true | _ => false end;
  GetCloudTargetEnv location := "AzurePublicCloud";
  ParseIP_To4 := parseIPv4;
  SimpleFold_reaches sr tr := false;
  gzip_compress := frame;
  json_Unmarshal_strings := jsonUnmarshalStrings;
  World := list (string * string);
  http_Get url documents := (serve documents url, documents)
|}.

(** A cluster: one master, a Linux pool of two nodes and a Windows pool
    of three. *)
Definition master : MasterProfile.t := {|
  MasterProfile.Count := 1;
  MasterProfile.DNSPrefix := "demo";
  MasterProfile.Subnet := "10.240.0.0/16";
  MasterProfile.FirstConsecutiveStaticIP := "10.0.0.4";
  MasterProfile.Extensions := [];
  MasterProfile.PreprovisionExtension := None
|}.

Definition pool (name osType subnet : string) (count : Z)
    (extensions : list Extension.t) : AgentPoolProfile.t := {|
  AgentPoolProfile.Name := name;
  AgentPoolProfile.Count := count;
  AgentPoolProfile.OSType := osType;
  AgentPoolProfile.AvailabilityProfile := "VirtualMachineScaleSets";
  AgentPoolProfile.Subnet := subnet;
  AgentPoolProfile.Extensions := extensions;
  AgentPoolProfile.PreprovisionExtension := None
|}.

Definition cluster (masterProfile : MasterProfile.t)
    (pools : list AgentPoolProfile.t) (extensions : list ExtensionProfile.t)
    : Properties.t := {|
  Properties.OrchestratorProfile :=
    Some {| OrchestratorProfile.OrchestratorType := "Kubernetes";
            OrchestratorProfile.KubernetesConfig := None |};
  Properties.MasterProfile := masterProfile;
  Properties.AgentPoolProfiles := pools;
  Properties.ExtensionProfiles := extensions;
  Properties.CertificateProfile := None;
  Properties.AADProfile := None
|}.

Definition mixedCluster : Properties.t :=
  cluster master
    [pool "linuxpool" "Linux" "10.1.0.0/16" 2 [];
     pool "windowspool" "Windows" "10.2.0.0/16" 3 []] [].

(** Two agent pools on one subnet that is not the subnet of the master. *)
Definition sharedSubnetCluster : Properties.t :=
  cluster master
    [pool "agent1" "Linux" "10.1.0.0/16" 1 [];
     pool "agent2" "Linux" "10.1.0.0/16" 1 []] [].

End Demo.

(** *** The address prefix entry of an agent pool *)

Definition agentAddressPrefix (name : string) : string :=
  Sprintf agentAddressPrefixFormat [FStr name].

(** *** The invariant of a [paramsMap], and sequences of writes *)

(** An entry has its [value] field set, or its [reference] field. *)
Definition hasValue (entry : value) : Prop :=
  match entry with
  | VParams fields => is_Some (fields !! "value")
  | _ => False
  end.

Definition hasReference (entry : value) : Prop :=
  match entry with
  | VParams fields => is_Some (fields !! "reference")
  | _ => False
  end.

(** Exactly one of the two fields is set. *)
Definition exactlyOneField (entry : value) : Prop :=
  (hasValue entry /\ ~ hasReference entry) \/
  (hasReference entry /\ ~ hasValue entry).

(** The invariant: every entry of the map has exactly one field set. *)
Definition paramsMapInvariant (m : paramsMap) : Prop :=
  forall (k : string) (entry : value), m !! k = Some entry -> exactlyOneField entry.

(** A call of one of the three functions that write an entry. *)
Inductive paramsWrite : Type :=
| WriteValue (k : string) (v : value)
| WriteKeyvaultReference (k vaultID secretName secretVersion : string)
| WriteSecret (k : string) (v : value) (encode : bool).

Definition runWrite (m : paramsMap) (w : paramsWrite) : paramsMap :=
  match w with
  | WriteValue k v => addValue m k v
  | WriteKeyvaultReference k vaultID secretName secretVersion =>
      addKeyvaultReference m k vaultID secretName secretVersion
  | WriteSecret k v encode => addSecret m k v encode
  end.

Definition runWrites (m : paramsMap) (ws : list paramsWrite) : paramsMap :=
  fold_left runWrite ws m.

(** Whether [addSecret] takes its key vault branch on [v]: [v] is a
    string that the pattern matches, with five submatches. *)
Definition isSecretPath (v : value) : bool :=
  match v with
  | VString str =>
      match FindStringSubmatch keyvaultSecretPathRe 4 str with
      | Some [_; _; _; _; _] => true
      | _ => false
      end
  | _ => false
  end.

(** *** The splice of a linked template, by the kind of its loop count *)

(** A loop count is the text of an integer, or an expression of the
    template language. *)
Inductive loopCountText : Type :=
| LiteralCount (digits : string)
| ExpressionCount (expression : string).

(** The four substitutions that come before the loop count. *)
Definition spliceBeforeLoopCount (extTargetVMNamePrefix : string)
    (extensionProfile : ExtensionProfile.t) (dta : string) : string :=
  let dta :=
    GoStrings.Replace dta "EXTENSION_TARGET_VM_TYPE"
      (if GoStrings.Contains extTargetVMNamePrefix "master"
       then "master" else "agent") in
  let dta :=
    GoStrings.Replace dta "EXTENSION_PARAMETERS_REPLACE"
      ("[parameters('" +:+ ExtensionProfile.Name extensionProfile
       +:+ "Parameters')]") in
  let dta :=
    GoStrings.Replace dta "EXTENSION_URL_REPLACE"
      (ExtensionProfile.RootURL extensionProfile) in
  GoStrings.Replace dta "EXTENSION_TARGET_VM_NAME_PREFIX" extTargetVMNamePrefix.

(** A literal count takes the place of the placeholder and of the double
    quotes around it; an expression takes the place of the placeholder
    and leaves what is around it. *)
Definition spliceLoopCount (loopCount : loopCountText) (dta : string) : string :=
  match loopCount with
  | LiteralCount digits =>
      GoStrings.Replace dta (dq +:+ "EXTENSION_LOOP_COUNT" +:+ dq) digits
  | ExpressionCount expression =>
      GoStrings.Replace dta "EXTENSION_LOOP_COUNT" expression
  end.

Definition spliceLinkedTemplate (extTargetVMNamePrefix : string)
    (extensionProfile : ExtensionProfile.t) (loopCount : loopCountText)
    (loopOffset : string) (dta : string) : string :=
  GoStrings.Replace
    (spliceLoopCount loopCount
       (spliceBeforeLoopCount extTargetVMNamePrefix extensionProfile dta))
    "EXTENSION_LOOP_OFFSET" loopOffset.

(** The loop count and offset of the master, and of an agent pool, when
    the extension goes to all instances. *)
Definition masterLoopCountExpression : string :=
  "[sub(variables('masterCount'), variables('masterOffset'))]".

Definition agentLoopCountExpression `{Env} (agentPoolProfile : AgentPoolProfile.t)
    : string :=
  let name := AgentPoolProfile.Name agentPoolProfile in
  if IsAvailabilitySets agentPoolProfile
  then "[sub(variables('" +:+ name +:+ "Count'), variables('" +:+ name
       +:+ "Offset'))]"
  else "[variables('" +:+ name +:+ "Count'))]".

Definition agentLoopOffset `{Env} (agentPoolProfile : AgentPoolProfile.t)
    : string :=
  let name := AgentPoolProfile.Name agentPoolProfile in
  if IsAvailabilitySets agentPoolProfile
  then "variables('" +:+ name +:+ "Offset')"
  else "".

(** [old] has no occurrence in [pre +:+ rest] that starts within [pre]. *)
Fixpoint noMatchWithin (old pre rest : string) : bool :=
  match pre with
  | EmptyString => true
  | String _ pre' =>
      negb (GoStrings.HasPrefix (pre +:+ rest) old) &&
      noMatchWithin old pre' rest
  end.

(** The run-time state of the concrete environment in which the network
    serves [documents] and nothing has been printed. *)
Definition demoState (documents : list (string * string)) : RT (H := Demo.env) :=
  @Build_RT Demo.env documents [].

(** The extension [hello-world], and a server that has it for Kubernetes. *)
Definition helloWorld : ExtensionProfile.t := {|
  ExtensionProfile.Name := "hello-world";
  ExtensionProfile.Version := "v1";
  ExtensionProfile.RootURL := "https://example.com/";
  ExtensionProfile.Script := "hello.sh";
  ExtensionProfile.URLQuery := ""
|}.

Definition helloWorldTemplate : string :=
  "{" +:+ dq +:+ "count" +:+ dq +:+ ": " +:+ dq +:+ "EXTENSION_LOOP_COUNT" +:+ dq
  +:+ ", " +:+ dq +:+ "offset" +:+ dq +:+ ": " +:+ dq +:+ "EXTENSION_LOOP_OFFSET"
  +:+ dq +:+ "}".

Definition helloWorldServer : list (string * string) :=
  [("https://example.com/extensions/hello-world/v1/supported-orchestrators.json",
    "[" +:+ dq +:+ "Kubernetes" +:+ dq +:+ "]");
   ("https://example.com/extensions/hello-world/v1/template-link.json",
    helloWorldTemplate)].

(** *** The targets of a resolution, in the order of the resolver *)

Section Targets.
Context `{Env}.

(** A target: the computation of the linked template text of one
    extension for the master or for one agent pool. *)
Definition target : Type := M (string * option string).

Definition agentTargets (orchestratorType : string)
    (extensionProfile : ExtensionProfile.t)
    (agentPoolProfiles : list AgentPoolProfile.t) : list target :=
  flat_map (fun agentPoolProfile =>
    let '(opted, singleOrAll) :=
      validateProfileOptedForExtension (ExtensionProfile.Name extensionProfile)
        (AgentPoolProfile.Extensions agentPoolProfile) in
    if opted
    then [getAgentPoolLinkedTemplateText agentPoolProfile orchestratorType
            extensionProfile singleOrAll]
    else []) agentPoolProfiles.

Definition extensionTargets (properties : Properties.t)
    (orchestratorType : string) (extensionProfile : ExtensionProfile.t)
    : list target :=
  let masterProfile := Properties.MasterProfile properties in
  let '(opted, singleOrAll) :=
    validateProfileOptedForExtension (ExtensionProfile.Name extensionProfile)
      (MasterProfile.Extensions masterProfile) in
  (if opted
   then [getMasterLinkedTemplateText masterProfile orchestratorType
           extensionProfile singleOrAll]
   else []) ++
  agentTargets orchestratorType extensionProfile
    (Properties.AgentPoolProfiles properties).

(** The opted-in targets of all extension profiles. *)
Definition allTargets (properties : Properties.t) (orchestratorType : string)
    : list target :=
  flat_map (extensionTargets properties orchestratorType)
    (Properties.ExtensionProfiles properties).

(** The targets run one after the other from the state [rt]; the first
    one that ends with an error does so with the message [msg], in the
    state [rt']. *)
Inductive FirstFailure : list target -> RT -> string -> RT -> Prop :=
| FirstFailure_here (t : target) (rest : list target) (rt rt' : RT)
    (dta msg : string) :
    t rt = ((dta, Some msg), rt') ->
    FirstFailure (t :: rest) rt msg rt'
| FirstFailure_later (t : target) (rest : list target) (rt rt1 rt' : RT)
    (dta msg : string) :
    t rt = ((dta, None), rt1) ->
    FirstFailure rest rt1 msg rt' ->
    FirstFailure (t :: rest) rt msg rt'.

(** The targets run one after the other from the state [rt], none ends
    with an error; their texts are [texts] and the last state is [rt']. *)
Inductive AllResolved : list target -> RT -> list string -> RT -> Prop :=
| AllResolved_nil (rt : RT) : AllResolved [] rt [] rt
| AllResolved_cons (t : target) (rest : list target) (rt rt1 rt' : RT)
    (dta : string) (texts : list string) :
    t rt = ((dta, None), rt1) ->
    AllResolved rest rt1 texts rt' ->
    AllResolved (t :: rest) rt (dta :: texts) rt'.

(** The two loops of the resolver as one loop over the targets. *)
Fixpoint resolveAll (targets : list target) (result : string) : M loop_end :=
  match targets with
  | [] => mret (Continue result)
  | t :: rest =>
      step ← appendLinkedTemplate result t;
      match step with
      | Return v => mret (Return v)
      | Continue result => resolveAll rest result
      end
  end.

End Targets.

(** A cluster whose master has opted in to [hello-world], and the same
    cluster with no extension. *)
Definition optedInCluster : Properties.t :=
  Demo.cluster
    {| MasterProfile.Count := 1;
       MasterProfile.DNSPrefix := "demo";
       MasterProfile.Subnet := "10.240.0.0/16";
       MasterProfile.FirstConsecutiveStaticIP := "10.0.0.4";
       MasterProfile.Extensions :=
         [{| Extension.Name := "hello-world"; Extension.SingleOrAll := "All" |}];
       MasterProfile.PreprovisionExtension := None |}
    [] [helloWorld].

Definition plainCluster : Properties.t := Demo.cluster Demo.master [] [].

(** *** The texts a kubeconfig is compared with *)

(** The auth-info block for a client certificate and key. *)
Definition certificateAuthInfo (certificate key : string) : string :=
  "{" +:+ dq +:+ "client-certificate-data" +:+ dq +:+ ":" +:+ dq +:+
  base64.EncodeToString certificate +:+ dq +:+ "," +:+ dq +:+
  "client-key-data" +:+ dq +:+ ":" +:+ dq +:+ base64.EncodeToString key
  +:+ dq +:+ "}".

(** The auth-info block for an AAD profile. *)
Definition aadAuthInfo (environment tenantID serverAppID clientAppID : string)
    : string :=
  "{" +:+ dq +:+ "auth-provider" +:+ dq +:+ ":{" +:+ dq +:+ "name" +:+ dq +:+ ":"
  +:+ dq +:+ "azure" +:+ dq +:+ "," +:+ dq +:+ "config" +:+ dq +:+ ":{"
  +:+ dq +:+ "environment" +:+ dq +:+ ":" +:+ dq +:+ environment +:+ dq +:+ ","
  +:+ dq +:+ "tenant-id" +:+ dq +:+ ":" +:+ dq +:+ tenantID +:+ dq +:+ ","
  +:+ dq +:+ "apiserver-id" +:+ dq +:+ ":" +:+ dq +:+ serverAppID +:+ dq +:+ ","
  +:+ dq +:+ "client-id" +:+ dq +:+ ":" +:+ dq +:+ clientAppID +:+ dq +:+ "}}}".

(** The kubeconfig made from [template] with [server] as the address of
    the API server. *)
Definition kubeConfigWithServer `{Env} (template : string)
    (properties : Properties.t) (certificateProfile : CertificateProfile.t)
    (location : string) (server : string) : string :=
  let kubeconfig :=
    GoStrings.Replace template caCertificatePlaceholder
      (base64.EncodeToString
         (CertificateProfile.CaCertificate certificateProfile)) in
  let kubeconfig := GoStrings.Replace kubeconfig fqdnPlaceholder server in
  let kubeconfig :=
    GoStrings.Replace kubeconfig resourceGroupPlaceholder
      (MasterProfile.DNSPrefix (Properties.MasterProfile properties)) in
  GoStrings.Replace kubeconfig authInfoPlaceholder
    (authInfo certificateProfile (Properties.AADProfile properties) location).

(** Whether the byte [c1] is followed at once by the byte [c2] somewhere
    in [s]. *)
Fixpoint hasPair (c1 c2 : ascii) (s : string) : bool :=
  match s with
  | String x (String y _ as t) =>
      (Ascii.eqb x c1 && Ascii.eqb y c2) || hasPair c1 c2 t
  | _ => false
  end.

(** Whether [s] starts with the byte [c]. *)
Definition startsWith (c : ascii) (s : string) : bool :=
  match s with
  | String x _ => Ascii.eqb x c
  | EmptyString => false
  end.

(** Whether the byte [c] is in [s]. *)
Fixpoint hasByte (c : ascii) (s : string) : bool :=
  match s with
  | String x t => Ascii.eqb x c || hasByte c t
  | EmptyString => false
  end.

(** A private cluster with one master and a certificate profile, and the
    same cluster with three masters. *)
Definition privateCluster (masters : Z) : Properties.t := {|
  Properties.OrchestratorProfile :=
    Some {| OrchestratorProfile.OrchestratorType := "Kubernetes";
            OrchestratorProfile.KubernetesConfig :=
              Some {| KubernetesConfig.PrivateCluster :=
                        Some {| PrivateCluster.Enabled := Some true |} |} |};
  Properties.MasterProfile :=
    {| MasterProfile.Count := masters;
       MasterProfile.DNSPrefix := "demo";
       MasterProfile.Subnet := "10.240.0.0/16";
       MasterProfile.FirstConsecutiveStaticIP := "10.0.0.4";
       MasterProfile.Extensions := [];
       MasterProfile.PreprovisionExtension := None |};
  Properties.AgentPoolProfiles := [];
  Properties.ExtensionProfiles := [];
  Properties.CertificateProfile :=
    Some {| CertificateProfile.CaCertificate := "ca";
            CertificateProfile.KubeConfigCertificate := "cert";
            CertificateProfile.KubeConfigPrivateKey := "key" |};
  Properties.AADProfile := None
|}.

(** *** Line endings *)

(** [s] without the carriage returns that a line feed follows at once. *)
Fixpoint normalizeLineEndings (s : string) : string :=
  match s with
  | EmptyString => EmptyString
  | String c s' =>
      if Ascii.eqb c CR && startsWith LF s'
      then normalizeLineEndings s'
      else String c (normalizeLineEndings s')
  end.

(** *** What a pattern matches

    The relation between a pattern, a text [m] it matches, the text
    [rest] that follows and the submatches before and after; [bot] tells
    whether [m] starts the whole text.  It says which texts match, not
    which match the search prefers. *)

(** Every byte of [s] is in the class [p]. *)
Fixpoint allBytes (p : ascii -> bool) (s : string) : bool :=
  match s with
  | EmptyString => true
  | String c s' => p c && allBytes p s'
  end.

Fixpoint matches (r : re) (bot : bool) (m rest : string)
    (caps caps' : captures) : Prop :=
  match r with
  | Lit l => m = l /\ caps' = caps
  | AnyCharNotNL =>
      exists (rune : Z) (width : nat),
        utf8.DecodeRuneInString (m +:+ rest) = (rune, width) /\
        width <> O /\ rune <> 10 /\
        m = string_take width (m +:+ rest) /\
        rest = string_drop width (m +:+ rest) /\ caps' = caps
  | PlusClass p => m <> "" /\ allBytes p m = true /\ caps' = caps
  | Cat r1 r2 =>
      exists (m1 m2 : string) (caps1 : captures),
        m = m1 +:+ m2 /\
        matches r1 bot m1 (m2 +:+ rest) caps caps1 /\
        matches r2 (bot && String.eqb m1 "") m2 rest caps1 caps'
  | Group n r =>
      exists caps1 : captures,
        matches r bot m rest caps caps1 /\ caps' = <[n := m]> caps1
  | Opt r => matches r bot m rest caps caps' \/ (m = "" /\ caps' = caps)
  | BeginText => bot = true /\ m = "" /\ caps' = caps
  | EndText => rest = "" /\ m = "" /\ caps' = caps
  end.

(** The parts of a text between the occurrences of the byte [sep]. *)
Fixpoint splitOn (sep : ascii) (s : string) : list string :=
  match s with
  | EmptyString => [EmptyString]
  | String c s' =>
      if Ascii.eqb c sep then EmptyString :: splitOn sep s'
      else
        match splitOn sep s' with
        | part :: parts => String c part :: parts
        | [] => [String c EmptyString]
        end
  end.

(** The parts put together again, [sep] between them. *)
Fixpoint joinWith (sep : ascii) (parts : list string) : string :=
  match parts with
  | [] => EmptyString
  | [part] => part
  | part :: rest => part +:+ String sep (joinWith sep rest)
  end.

(** A segment of a secret path: not empty, without slash or white
    space. *)
Definition isSegment (s : string) : Prop :=
  s <> "" /\ allBytes notSlashNorSpace s = true.

(** The path of a secret. *)
Definition vaultPath (subscription resourceGroup vault : string) : string :=
  "/subscriptions/" +:+ subscription +:+ "/resourceGroups/" +:+ resourceGroup
  +:+ "/providers/Microsoft.KeyVault/vaults/" +:+ vault.

Definition secretPath (subscription resourceGroup vault name : string)
    (version : option string) : string :=
  vaultPath subscription resourceGroup vault +:+ "/secrets/" +:+ name +:+
  match version with
  | Some v => "/" +:+ v
  | None => ""
  end.

(** The entry the encoder writes for a reference to a secret. *)
Definition referenceEntry (vaultID secretName secretVersion : string) : value :=
  VParams {[ "reference" :=
    VKeyVaultRef
      {| KeyVaultRef.KeyVault := {| KeyVaultID.ID := vaultID |};
         KeyVaultRef.SecretName := secretName;
         KeyVaultRef.SecretVersion := secretVersion |} ]}.

(** The entry the encoder writes for a value. *)
Definition valueEntry (v : value) : value := VParams {[ "value" := v ]}.

(** A text without white space that is not empty: what [\S+] matches. *)
Definition isNonBlank (s : string) : Prop :=
  s <> "" /\ allBytes notSpace s = true.

(** A text that [.] matches: the first rune of some text, and no line
    feed. *)
Definition isOneRune (d : string) : Prop :=
  exists (rest : string) (rune : Z) (width : nat),
    utf8.DecodeRuneInString (d +:+ rest) = (rune, width) /\
    width <> O /\ rune <> 10 /\ d = string_take width (d +:+ rest).

(** A text that the first group of [keyvaultSecretPathRe] matches. *)
Definition isVaultID (g : string) : Prop :=
  exists subscription resourceGroup dot vault : string,
    g = "/subscriptions/" +:+ subscription +:+ "/resourceGroups/" +:+
        resourceGroup +:+ "/providers/Microsoft" +:+ dot +:+
        "KeyVault/vaults/" +:+ vault
    /\ isNonBlank subscription /\ isNonBlank resourceGroup
    /\ isOneRune dot /\ isNonBlank vault.

(** A text that the optional tail of [keyvaultSecretPathRe] matches, and
    its fourth group: nothing, or a slash and a version. *)
Definition isVersionTail (tail version : string) : Prop :=
  (tail = "" /\ version = "") \/
  (tail = "/" +:+ version /\ isNonBlank version).

(** The key a write goes to. *)
Definition writeKey (w : paramsWrite) : string :=
  match w with
  | WriteValue k _ => k
  | WriteKeyvaultReference k _ _ _ => k
  | WriteSecret k _ _ => k
  end.

(** A tab, as a one-byte string. *)
Definition tab : string := String "009"%char EmptyString.

(** ** Subnets, load balancer rules and probes *)

(** The format strings of [getVNETSubnetDependencies], [getVNETSubnets],
    [getLBRule] and [getProbe]. *)
Definition subnetDependencyFormat : string :=
  Eval vm_compute in
  "        " +:+ dq +:+ "[concat('Microsoft.Network/networkSecurityGroups/', variables('%sNSGName'))]" +:+ dq.

Definition masterSubnetString : string :=
  Eval vm_compute in
  "{
            " +:+ dq +:+ "name" +:+ dq +:+ ": " +:+ dq +:+ "[variables('masterSubnetName')]" +:+ dq +:+ ",
            " +:+ dq +:+ "properties" +:+ dq +:+ ": {
              " +:+ dq +:+ "addressPrefix" +:+ dq +:+ ": " +:+ dq +:+ "[variables('masterSubnet')]" +:+ dq +:+ "
            }
          }".

Definition agentSubnetFormat : string :=
  Eval vm_compute in
  "          {
            " +:+ dq +:+ "name" +:+ dq +:+ ": " +:+ dq +:+ "[variables('%sSubnetName')]" +:+ dq +:+ ",
            " +:+ dq +:+ "properties" +:+ dq +:+ ": {
              " +:+ dq +:+ "addressPrefix" +:+ dq +:+ ": " +:+ dq +:+ "[variables('%sSubnet')]" +:+ dq +:+ "
            }
          }".

Definition agentSubnetNSGFormat : string :=
  Eval vm_compute in
  "          {
            " +:+ dq +:+ "name" +:+ dq +:+ ": " +:+ dq +:+ "[variables('%sSubnetName')]" +:+ dq +:+ ",
            " +:+ dq +:+ "properties" +:+ dq +:+ ": {
              " +:+ dq +:+ "addressPrefix" +:+ dq +:+ ": " +:+ dq +:+ "[variables('%sSubnet')]" +:+ dq +:+ ",
              " +:+ dq +:+ "networkSecurityGroup" +:+ dq +:+ ": {
                " +:+ dq +:+ "id" +:+ dq +:+ ": " +:+ dq +:+ "[resourceId('Microsoft.Network/networkSecurityGroups', variables('%sNSGName'))]" +:+ dq +:+ "
              }
            }
          }".

Definition lbRuleFormat : string :=
  Eval vm_compute in
  tab +:+ "          {
            " +:+ dq +:+ "name" +:+ dq +:+ ": " +:+ dq +:+ "LBRule%d" +:+ dq +:+ ",
            " +:+ dq +:+ "properties" +:+ dq +:+ ": {
              " +:+ dq +:+ "backendAddressPool" +:+ dq +:+ ": {
                " +:+ dq +:+ "id" +:+ dq +:+ ": " +:+ dq +:+ "[concat(variables('%sLbID'), '/backendAddressPools/', variables('%sLbBackendPoolName'))]" +:+ dq +:+ "
              },
              " +:+ dq +:+ "backendPort" +:+ dq +:+ ": %d,
              " +:+ dq +:+ "enableFloatingIP" +:+ dq +:+ ": false,
              " +:+ dq +:+ "frontendIPConfiguration" +:+ dq +:+ ": {
                " +:+ dq +:+ "id" +:+ dq +:+ ": " +:+ dq +:+ "[variables('%sLbIPConfigID')]" +:+ dq +:+ "
              },
              " +:+ dq +:+ "frontendPort" +:+ dq +:+ ": %d,
              " +:+ dq +:+ "idleTimeoutInMinutes" +:+ dq +:+ ": 5,
              " +:+ dq +:+ "loadDistribution" +:+ dq +:+ ": " +:+ dq +:+ "Default" +:+ dq +:+ ",
              " +:+ dq +:+ "probe" +:+ dq +:+ ": {
                " +:+ dq +:+ "id" +:+ dq +:+ ": " +:+ dq +:+ "[concat(variables('%sLbID'),'/probes/tcp%dProbe')]" +:+ dq +:+ "
              },
              " +:+ dq +:+ "protocol" +:+ dq +:+ ": " +:+ dq +:+ "tcp" +:+ dq +:+ "
            }
          }".

Definition probeFormat : string :=
  Eval vm_compute in
  "          {
            " +:+ dq +:+ "name" +:+ dq +:+ ": " +:+ dq +:+ "tcp%dProbe" +:+ dq +:+ ",
            " +:+ dq +:+ "properties" +:+ dq +:+ ": {
              " +:+ dq +:+ "intervalInSeconds" +:+ dq +:+ ": " +:+ dq +:+ "5" +:+ dq +:+ ",
              " +:+ dq +:+ "numberOfProbes" +:+ dq +:+ ": " +:+ dq +:+ "2" +:+ dq +:+ ",
              " +:+ dq +:+ "port" +:+ dq +:+ ": %d,
              " +:+ dq +:+ "protocol" +:+ dq +:+ ": " +:+ dq +:+ "tcp" +:+ dq +:+ "
            }
          }".

(** The loop of [getVNETSubnetDependencies]: [index] is the loop index on
    entry, [buf] the buffer so far. *)
Fixpoint getVNETSubnetDependencies_loop (index : Z)
    (profiles : list AgentPoolProfile.t) (buf : string) : string :=
  match profiles with
  | [] => buf
  | agentProfile :: rest =>
      let buf := if 0 <? index then buf +:+ ",
" else buf in
      getVNETSubnetDependencies_loop (index + 1) rest
        (buf +:+ Sprintf subnetDependencyFormat
                   [FStr (AgentPoolProfile.Name agentProfile)])
  end.

Definition getVNETSubnetDependencies (properties : Properties.t) : string :=
  getVNETSubnetDependencies_loop 0 (Properties.AgentPoolProfiles properties) "".

(** The loop of [getVNETSubnets]. *)
Fixpoint getVNETSubnets_loop (addNSG : bool)
    (profiles : list AgentPoolProfile.t) (buf : string) : string :=
  match profiles with
  | [] => buf
  | agentProfile :: rest =>
      let name := AgentPoolProfile.Name agentProfile in
      let buf := buf +:+ ",
" in
      let buf :=
        if addNSG
        then buf +:+ Sprintf agentSubnetNSGFormat [FStr name; FStr name; FStr name]
        else buf +:+ Sprintf agentSubnetFormat [FStr name; FStr name] in
      getVNETSubnets_loop addNSG rest buf
  end.

Definition getVNETSubnets (properties : Properties.t) (addNSG : bool) : string :=
  getVNETSubnets_loop addNSG (Properties.AgentPoolProfiles properties)
    masterSubnetString.

Definition getLBRule (name : string) (port : Z) : string :=
  Sprintf lbRuleFormat
    [FInt port; FStr name; FStr name; FInt port; FStr name; FInt port;
     FStr name; FInt port].

Fixpoint getLBRules_loop (name : string) (index : Z) (ports : list Z)
    (buf : string) : string :=
  match ports with
  | [] => buf
  | port :: rest =>
      let buf := if 0 <? index then buf +:+ ",
" else buf in
      getLBRules_loop name (index + 1) rest (buf +:+ getLBRule name port)
  end.

Definition getLBRules (name : string) (ports : list Z) : string :=
  getLBRules_loop name 0 ports "".

Definition getProbe (port : Z) : string :=
  Sprintf probeFormat [FInt port; FInt port].

Fixpoint getProbes_loop (index : Z) (ports : list Z) (buf : string) : string :=
  match ports with
  | [] => buf
  | port :: rest =>
      let buf := if 0 <? index then buf +:+ ",
" else buf in
      getProbes_loop (index + 1) rest (buf +:+ getProbe port)
  end.

Definition getProbes (ports : list Z) : string :=
  getProbes_loop 0 ports "".

(** *** The texts of a rule, a probe and a subnet, by their fields

    What the builders are compared with: the name of the probe for a
    port, the reference a rule makes to it and the name field of the
    probe; the reference to the security group of a pool. *)

Definition probeName (port : Z) : string := "tcp" +:+ pretty port +:+ "Probe".

Definition probeReference (name : string) (port : Z) : string :=
  dq +:+ "[concat(variables('" +:+ name +:+ "LbID'),'/probes/" +:+
  probeName port +:+ "')]" +:+ dq.

Definition probeNameField (port : Z) : string :=
  dq +:+ "name" +:+ dq +:+ ": " +:+ dq +:+ probeName port +:+ dq.

Definition securityGroupName (name : string) : string :=
  "variables('" +:+ name +:+ "NSGName')".

Definition lbRule_head (name : string) (port : Z) : string :=
  tab +:+ "          {
            " +:+ dq +:+ "name" +:+ dq +:+ ": " +:+ dq +:+ "LBRule" +:+
  pretty port +:+
  dq +:+ ",
            " +:+ dq +:+ "properties" +:+ dq +:+ ": {
              " +:+ dq +:+ "backendAddressPool" +:+ dq +:+ ": {
                " +:+ dq +:+ "id" +:+ dq +:+ ": " +:+ dq +:+ "[concat(variables('" +:+
  name +:+
  "LbID'), '/backendAddressPools/', variables('" +:+
  name +:+
  "LbBackendPoolName'))]" +:+ dq +:+ "
              },
              " +:+ dq +:+ "backendPort" +:+ dq +:+ ": " +:+
  pretty port +:+
  ",
              " +:+ dq +:+ "enableFloatingIP" +:+ dq +:+ ": false,
              " +:+ dq +:+ "frontendIPConfiguration" +:+ dq +:+ ": {
                " +:+ dq +:+ "id" +:+ dq +:+ ": " +:+ dq +:+ "[variables('" +:+
  name +:+
  "LbIPConfigID')]" +:+ dq +:+ "
              },
              " +:+ dq +:+ "frontendPort" +:+ dq +:+ ": " +:+
  pretty port +:+
  ",
              " +:+ dq +:+ "idleTimeoutInMinutes" +:+ dq +:+ ": 5,
              " +:+ dq +:+ "loadDistribution" +:+ dq +:+ ": " +:+ dq +:+ "Default" +:+ dq +:+ ",
              " +:+ dq +:+ "probe" +:+ dq +:+ ": {
                " +:+ dq +:+ "id" +:+ dq +:+ ": ".

Definition lbRule_tail : string :=
  Eval vm_compute in
  "
              },
              " +:+ dq +:+ "protocol" +:+ dq +:+ ": " +:+ dq +:+ "tcp" +:+ dq +:+ "
            }
          }".

Definition probe_head : string :=
  Eval vm_compute in
  "          {
            ".

Definition probe_tail (port : Z) : string :=
  ",
            " +:+ dq +:+ "properties" +:+ dq +:+ ": {
              " +:+ dq +:+ "intervalInSeconds" +:+ dq +:+ ": " +:+ dq +:+ "5" +:+ dq +:+ ",
              " +:+ dq +:+ "numberOfProbes" +:+ dq +:+ ": " +:+ dq +:+ "2" +:+ dq +:+ ",
              " +:+ dq +:+ "port" +:+ dq +:+ ": " +:+
  pretty port +:+
  ",
              " +:+ dq +:+ "protocol" +:+ dq +:+ ": " +:+ dq +:+ "tcp" +:+ dq +:+ "
            }
          }".

Definition agentSubnetNSG_head (name : string) : string :=
  "          {
            " +:+ dq +:+ "name" +:+ dq +:+ ": " +:+ dq +:+ "[variables('" +:+
  name +:+
  "SubnetName')]" +:+ dq +:+ ",
            " +:+ dq +:+ "properties" +:+ dq +:+ ": {
              " +:+ dq +:+ "addressPrefix" +:+ dq +:+ ": " +:+ dq +:+ "[variables('" +:+
  name +:+
  "Subnet')]" +:+ dq +:+ ",
              " +:+ dq +:+ "networkSecurityGroup" +:+ dq +:+ ": {
                " +:+ dq +:+ "id" +:+ dq +:+ ": " +:+ dq +:+ "[resourceId('Microsoft.Network/networkSecurityGroups', ".

Definition agentSubnetNSG_tail : string :=
  Eval vm_compute in
  ")]" +:+ dq +:+ "
              }
            }
          }".

Definition subnetDependency_head : string :=
  Eval vm_compute in
  "        " +:+ dq +:+ "[concat('Microsoft.Network/networkSecurityGroups/', ".

Definition subnetDependency_tail : string :=
  Eval vm_compute in
  ")]" +:+ dq.

(** ** Single-line escaping *)

Definition escapeSingleLine (escapedStr : string) : string :=
  let escapedStr := GoStrings.Replace escapedStr "\" "\\" in
  let escapedStr := GoStrings.Replace escapedStr crlf "\n" in
  let escapedStr := GoStrings.Replace escapedStr lf "\n" in
  let escapedStr := GoStrings.Replace escapedStr dq ("\" +:+ dq) in
  escapedStr.

(** The reading of a text as the body of a JSON string, for the three
    escapes [escapeSingleLine] writes: a backslash starts one of the
    escapes for a backslash, a line feed and a double quote; a double
    quote or a line feed that is not escaped ends the reading with
    nothing. *)
Fixpoint unescape (s : string) : option string :=
  match s with
  | EmptyString => Some EmptyString
  | String c rest =>
      if Ascii.eqb c "\"
      then
        match rest with
        | EmptyString => None
        | String e rest' =>
            if Ascii.eqb e "\" then option_map (String "\") (unescape rest')
            else if Ascii.eqb e "n" then option_map (String LF) (unescape rest')
            else if Ascii.eqb e "034"
                 then option_map (String "034") (unescape rest')
                 else None
        end
      else
        if (Ascii.eqb c LF || Ascii.eqb c "034")%bool then None
        else option_map (String c) (unescape rest)
  end.

(** ** Storage account type of a VM size *)

Section StorageAccountType.

(** [strings.Map(unicode.ToLower, s)], which [strings.ToLower] comes to for
    a string that holds a byte outside ASCII. *)
Variable unicode_ToLower_Map : string -> string.

Definition isASCII (c : ascii) : bool := utf8.byte_of c <? 128.

(** [unicode.ToLower] on a byte of ASCII. *)
Definition lowerByte (c : ascii) : ascii :=
  if utf8.in_range 65 90 c then ascii_of_N (N_of_ascii c + 32) else c.

Fixpoint lowerBytes (s : string) : string :=
  match s with
  | EmptyString => EmptyString
  | String c s' => String (lowerByte c) (lowerBytes s')
  end.

(** [strings.ToLower s]: byte by byte for a string of ASCII. *)
Definition ToLower (s : string) : string :=
  if allBytes isASCII s then lowerBytes s else unicode_ToLower_Map s.

(** [strings.Split s sep] for a separator of one byte. *)
Definition Split (s : string) (sep : ascii) : list string := splitOn sep s.

Definition getStorageAccountType (sizeName : string) : result string :=
  let spl := Split sizeName "_" in
  if (length spl <? 2)%nat
  then Err (Sprintf "Invalid sizeName: %s" [FStr sizeName])
  else
    let capability := nth 1 spl "" in
    if GoStrings.Contains (ToLower capability) "s"
    then Ok "Premium_LRS"
    else Ok "Standard_LRS".

End StorageAccountType.

(** *** The VM type of a linked template, and the rest of the splice *)

Definition spliceVMType (vmType dta : string) : string :=
  GoStrings.Replace dta "EXTENSION_TARGET_VM_TYPE" vmType.

(** The substitutions of [internalGetPoolLinkedTemplateText] that follow
    the one of the VM type. *)
Definition spliceAfterVMType (extTargetVMNamePrefix : string)
    (extensionProfile : ExtensionProfile.t) (loopCount : loopCountText)
    (loopOffset : string) (dta : string) : string :=
  let dta :=
    GoStrings.Replace dta "EXTENSION_PARAMETERS_REPLACE"
      ("[parameters('" +:+ ExtensionProfile.Name extensionProfile
       +:+ "Parameters')]") in
  let dta :=
    GoStrings.Replace dta "EXTENSION_URL_REPLACE"
      (ExtensionProfile.RootURL extensionProfile) in
  let dta :=
    GoStrings.Replace dta "EXTENSION_TARGET_VM_NAME_PREFIX"
      extTargetVMNamePrefix in
  GoStrings.Replace (spliceLoopCount loopCount dta)
    "EXTENSION_LOOP_OFFSET" loopOffset.

(** A template that names the VM type, and a server that has it. *)
Definition vmTypeTemplate : string :=
  "{" +:+ dq +:+ "type" +:+ dq +:+ ": " +:+ dq +:+ "EXTENSION_TARGET_VM_TYPE"
  +:+ dq +:+ "}".

Definition vmTypeServer : list (string * string) :=
  [("https://example.com/extensions/hello-world/v1/supported-orchestrators.json",
    "[" +:+ dq +:+ "Kubernetes" +:+ dq +:+ "]");
   ("https://example.com/extensions/hello-world/v1/template-link.json",
    vmTypeTemplate)].

(** *** Secret paths with another byte for the dot *)

Definition providerPath (separator : ascii)
    (subscription resourceGroup vault name : string) : string :=
  "/subscriptions/" +:+ subscription +:+ "/resourceGroups/" +:+ resourceGroup
  +:+ "/providers/Microsoft" +:+ String separator "KeyVault/vaults/" +:+ vault
  +:+ "/secrets/" +:+ name.

(** ** The preprovision commands of an agent pool *)

Section PreprovisionCommands.
Context `{Env}.

(** [makeAgentExtensionScriptCommands]; [PreprovisionExtension] is a
    pointer, whose [Name] both builders read. *)
Definition makeAgentExtensionScriptCommands (properties : Properties.t)
    (profile : AgentPoolProfile.t) : outcome string :=
  let copyIndex := "',copyIndex(),'" in
  let copyIndex :=
    if IsAvailabilitySets profile
    then Sprintf "',copyIndex(variables('%sOffset')),'"
           [FStr (AgentPoolProfile.Name profile)]
    else copyIndex in
  match AgentPoolProfile.PreprovisionExtension profile with
  | None => Panics "invalid memory address or nil pointer dereference"
  | Some extension =>
      if String.eqb (AgentPoolProfile.OSType profile) Windows
      then makeWindowsExtensionScriptCommands extension
             (Properties.ExtensionProfiles properties) copyIndex
      else makeExtensionScriptCommands extension
             (Properties.ExtensionProfiles properties) copyIndex
  end.

End PreprovisionCommands.

(** *** Counting a byte, and targets that do not print *)

Fixpoint countByte (c : ascii) (s : string) : nat :=
  match s with
  | EmptyString => O
  | String x t => ((if Ascii.eqb x c then 1 else 0) + countByte c t)%nat
  end.

(** A computation that leaves standard output as it finds it. *)
Definition keepsStdout `{Env} {A : Type} (m : M A) : Prop :=
  forall rt : RT, stdout (snd (m rt)) = stdout rt.

(** ** Data disks *)

(** An agent pool profile with the two fields that [getDataDisks] reads
    beside its name. *)
Module AgentPoolDisks.
Record t : Type := {
  Profile : AgentPoolProfile.t;
  StorageProfile : string;
  DiskSizesGB : list Z
}.
End AgentPoolDisks.




Section DataDisks.

(** The method [HasDisks] of an agent pool profile and the constants
    [api.StorageAccount] and [api.ManagedDisks]. *)
Variable HasDisks : AgentPoolDisks.t -> bool.
Variables StorageAccount ManagedDisks : string.






End DataDisks.

(** * Part II: the theorems *)

(** ** Strings *)

Lemma append_nil_r (s : string) : s +:+ "" = s.
Proof. induction s as [|c s IH]; simpl; [reflexivity | now rewrite IH]. Qed.

Lemma append_assoc (a b c : string) : (a +:+ b) +:+ c = a +:+ (b +:+ c).
Proof. induction a as [|x a IH]; simpl; [reflexivity | now rewrite IH]. Qed.

Lemma append_cons (c : ascii) (s t : string) :
  String c s +:+ t = String c (s +:+ t).
Proof. reflexivity. Qed.

(** ** Security rules (claim C4) *)

Lemma int_wrap_small (z : Z) : - 2 ^ 63 <= z < 2 ^ 63 -> int_wrap z = z.
Proof.
  intros Hz. unfold int_wrap.
  rewrite Z.mod_small by lia. lia.
Qed.

Lemma getSecurityRule_text (port portIndex : Z) :
  getSecurityRule port portIndex =
  securityRuleWithPriority port (int_add BaseLBPriority portIndex).
Proof.
  unfold getSecurityRule, securityRuleWithPriority, securityRule_head,
    priorityKey.
  cbn [Sprintf securityRuleFormat Ascii.eqb Bool.eqb orb andb fmt_operand].
  rewrite ?append_assoc. reflexivity.
Qed.

Lemma getSecurityRules_loop_spec (ports : list Z) (k : nat) (buf : string) :
  getSecurityRules_loop (Z.of_nat k) ports buf =
  buf +:+ fragments_from (fun i port => getSecurityRule port (Z.of_nat i)) k ports.
Proof.
  revert k buf. induction ports as [|port rest IH]; intros k buf.
  - simpl. now rewrite append_nil_r.
  - cbn [getSecurityRules_loop fragments_from].
    replace (Z.of_nat k + 1) with (Z.of_nat (S k)) by lia.
    rewrite IH. destruct k as [|k].
    + change (0 <? Z.of_nat 0) with false. cbv iota.
      now rewrite !append_assoc.
    + replace (0 <? Z.of_nat (S k)) with true by (symmetry; apply Z.ltb_lt; lia).
      unfold fragmentSeparator. now rewrite !append_assoc.
Qed.

Lemma fragments_from_ext {A : Type} (f g : nat -> A -> string) (xs : list A) (k : nat) :
  (forall i x, xs !! i = Some x -> f (k + i)%nat x = g (k + i)%nat x) ->
  fragments_from f k xs = fragments_from g k xs.
Proof.
  revert k. induction xs as [|x rest IH]; intros k Hfg; [reflexivity|].
  cbn [fragments_from]. f_equal. f_equal.
  - specialize (Hfg O x eq_refl). now rewrite Nat.add_0_r in Hfg.
  - apply IH. intros i y Hy. specialize (Hfg (S i) y Hy).
    now replace (S k + i)%nat with (k + S i)%nat by lia.
Qed.

Lemma fragments_from_lookup {A : Type} (f : nat -> A -> string) (xs : list A)
    (k i : nat) (x : A) :
  xs !! i = Some x ->
  exists before after : string,
    fragments_from f k xs =
    before +:+ (match (k + i)%nat with O => "" | S _ => fragmentSeparator end)
           +:+ f (k + i)%nat x +:+ after.
Proof.
  revert k i. induction xs as [|y rest IH]; intros k i Hi; [discriminate|].
  destruct i as [|i].
  - injection Hi as ->. exists "", (fragments_from f (S k) rest).
    rewrite Nat.add_0_r. reflexivity.
  - destruct (IH (S k) i Hi) as (b & a & E).
    exists ((match k with O => "" | S _ => fragmentSeparator end) +:+ f k y +:+ b), a.
    cbn [fragments_from]. rewrite E.
    replace (S k + i)%nat with (k + S i)%nat by lia.
    now rewrite !append_assoc.
Qed.

(** C4.  For a port list (shorter than 2^63 - 200, as every Go slice is),
    [getSecurityRules] writes one rule per port, in the order of the list
    and separated by a comma and a line feed, and the rule for the port at
    zero-based index [i] carries the priority [200 + i]; so the priority is
    [200] at index 0 and strictly increasing with the index. *)
Theorem C4_security_rule_priority (ports : list Z) :
  Z.of_nat (length ports) < 2 ^ 63 - 200 ->
  getSecurityRules ports =
    fragments_from
      (fun i port => securityRuleWithPriority port (200 + Z.of_nat i)) O ports
  /\ (forall (i : nat) (port : Z), ports !! i = Some port ->
        getSecurityRule port (Z.of_nat i) =
          securityRuleWithPriority port (200 + Z.of_nat i)
        /\ exists before after : string,
             getSecurityRules ports =
             before +:+ securityRuleWithPriority port (200 + Z.of_nat i) +:+ after)
  /\ (forall (i j : nat), (i < j < length ports)%nat ->
        int_add BaseLBPriority (Z.of_nat i) < int_add BaseLBPriority (Z.of_nat j))
  /\ int_add BaseLBPriority 0 = 200.
Proof.
  intros Hlen.
  assert (Hprio : forall i : nat, (i < length ports)%nat ->
            int_add BaseLBPriority (Z.of_nat i) = 200 + Z.of_nat i).
  { intros i Hi. unfold int_add, BaseLBPriority. apply int_wrap_small. lia. }
  assert (Hrule : forall (i : nat) (port : Z), ports !! i = Some port ->
            getSecurityRule port (Z.of_nat i) =
            securityRuleWithPriority port (200 + Z.of_nat i)).
  { intros i port Hi. rewrite getSecurityRule_text, Hprio; [reflexivity|].
    now apply lookup_lt_Some in Hi. }
  assert (Hall : getSecurityRules ports =
            fragments_from
              (fun i port => securityRuleWithPriority port (200 + Z.of_nat i))
              O ports).
  { unfold getSecurityRules.
    change 0 with (Z.of_nat O).
    rewrite (getSecurityRules_loop_spec ports O ""). cbn [String.append].
    apply fragments_from_ext. intros i x Hx. now apply Hrule. }
  split; [exact Hall|]. split; [|split].
  - intros i port Hi. split; [now apply Hrule|].
    rewrite Hall.
    destruct (fragments_from_lookup
                (fun i port => securityRuleWithPriority port (200 + Z.of_nat i))
                ports O i port Hi) as (b & a & E).
    rewrite E. cbn [Nat.add].
    exists (b +:+ match i with O => "" | S _ => fragmentSeparator end), a.
    now rewrite !append_assoc.
  - intros i j Hij. rewrite !Hprio by lia. lia.
  - reflexivity.
Qed.

Lemma C4_security_rule_priority_witness :
  Z.of_nat (length [80; 443; 8080]) < 2 ^ 63 - 200 /\
  getSecurityRule 8080 2 = securityRuleWithPriority 8080 202.
Proof.
  assert (H : Z.of_nat (length [80; 443; 8080]) < 2 ^ 63 - 200)
    by (vm_compute; reflexivity).
  split; [exact H|].
  exact (proj1 (proj1 (proj2 (C4_security_rule_priority [80; 443; 8080] H))
                  2%nat 8080 eq_refl)).
Defined.

(** ** Windows pod subnets (claim C5) *)

Section PodSubnets.
Context `{Env}.

Lemma subnetString_text (k : Z) :
  fragmentSeparator +:+ Sprintf subnetString [FInt k; FInt k] = podSubnetFragment k.
Proof.
  unfold podSubnetFragment.
  cbn [Sprintf subnetString Ascii.eqb Bool.eqb orb andb fmt_operand].
  rewrite ?append_assoc. reflexivity.
Qed.

Lemma strcat_app (l1 l2 : list string) :
  strcat (l1 ++ l2) = strcat l1 +:+ strcat l2.
Proof.
  induction l1 as [|x l1 IH]; [reflexivity|].
  cbn [strcat fold_right app]. fold (strcat (l1 ++ l2)). fold (strcat l1).
  now rewrite IH, append_assoc.
Qed.

Lemma getKubernetesSubnets_vms_spec (n : nat) (cidrIndex : Z) (buf : string) :
  - 2 ^ 63 <= cidrIndex -> cidrIndex + Z.of_nat n < 2 ^ 63 ->
  getKubernetesSubnets_vms n cidrIndex buf =
  (cidrIndex + Z.of_nat n,
   buf +:+ strcat (map podSubnetFragment (seqZ cidrIndex (Z.of_nat n)))).
Proof.
  revert cidrIndex buf. induction n as [|n IH]; intros k buf Hlo Hhi.
  - cbn. now rewrite Z.add_0_r, append_nil_r.
  - cbn [getKubernetesSubnets_vms].
    unfold int_add. rewrite int_wrap_small by lia.
    rewrite IH by lia. f_equal; [lia|].
    replace (Z.of_nat (S n)) with (Z.succ (Z.of_nat n)) by lia.
    rewrite (seqZ_cons k) by lia. rewrite Z.pred_succ.
    cbn [map strcat fold_right]. rewrite <- (subnetString_text k).
    unfold fragmentSeparator, Z.succ.
    now rewrite !append_assoc.
Qed.

Lemma windowsNodeCount_nonneg (profiles : list AgentPoolProfile.t) :
  Forall (fun p => 0 <= AgentPoolProfile.Count p) profiles ->
  0 <= windowsNodeCount profiles.
Proof.
  induction 1 as [|p rest Hp _ IH]; cbn [windowsNodeCount]; [lia|].
  destruct (String.eqb _ _); lia.
Qed.

Lemma nonWindowsNodeCount_nonneg (profiles : list AgentPoolProfile.t) :
  Forall (fun p => 0 <= AgentPoolProfile.Count p) profiles ->
  0 <= nonWindowsNodeCount profiles.
Proof.
  induction 1 as [|p rest Hp _ IH]; cbn [nonWindowsNodeCount]; [lia|].
  destruct (String.eqb _ _); lia.
Qed.

Lemma getKubernetesSubnets_loop_spec (profiles : list AgentPoolProfile.t)
    (cidrIndex : Z) (buf : string) :
  Forall (fun p => 0 <= AgentPoolProfile.Count p) profiles ->
  - 2 ^ 63 <= cidrIndex -> cidrIndex + windowsNodeCount profiles < 2 ^ 63 ->
  getKubernetesSubnets_loop profiles cidrIndex buf =
  buf +:+ strcat (map podSubnetFragment
                    (seqZ cidrIndex (windowsNodeCount profiles))).
Proof.
  intros Hall. revert cidrIndex buf.
  induction Hall as [|p rest Hp Hrest IH]; intros k buf Hlo Hhi.
  - cbn. now rewrite append_nil_r.
  - pose proof (windowsNodeCount_nonneg rest Hrest) as Hw.
    cbn [getKubernetesSubnets_loop windowsNodeCount] in *.
    destruct (String.eqb (AgentPoolProfile.OSType p) Windows).
    + rewrite getKubernetesSubnets_vms_spec by lia.
      rewrite Z2Nat.id by lia. rewrite IH by lia.
      rewrite seqZ_app by lia.
      now rewrite map_app, strcat_app, append_assoc.
    + rewrite IH by lia. reflexivity.
Qed.

Lemma getKubernetesPodStartIndex_loop_spec (profiles : list AgentPoolProfile.t)
    (nodeCount : Z) :
  Forall (fun p => 0 <= AgentPoolProfile.Count p) profiles ->
  - 2 ^ 63 <= nodeCount -> nodeCount + nonWindowsNodeCount profiles < 2 ^ 63 ->
  getKubernetesPodStartIndex_loop profiles nodeCount =
  nodeCount + nonWindowsNodeCount profiles.
Proof.
  intros Hall. revert nodeCount.
  induction Hall as [|p rest Hp Hrest IH]; intros n Hlo Hhi.
  - cbn. lia.
  - pose proof (nonWindowsNodeCount_nonneg rest Hrest) as Hw.
    cbn [getKubernetesPodStartIndex_loop nonWindowsNodeCount] in *.
    destruct (String.eqb (AgentPoolProfile.OSType p) Windows); cbn [negb].
    + rewrite IH by lia. lia.
    + unfold int_add. rewrite int_wrap_small by lia. rewrite IH by lia. lia.
Qed.

Lemma nonWindowsNodeCount_Permutation (l l' : list AgentPoolProfile.t) :
  Permutation l l' -> nonWindowsNodeCount l = nonWindowsNodeCount l'.
Proof.
  induction 1; cbn [nonWindowsNodeCount]; lia.
Qed.

Lemma windowsNodeCount_Permutation (l l' : list AgentPoolProfile.t) :
  Permutation l l' -> windowsNodeCount l = windowsNodeCount l'.
Proof.
  induction 1; cbn [windowsNodeCount]; lia.
Qed.

End PodSubnets.

Section PodSubnetsClaim.
Context `{Env}.

(** C5.  For a cluster whose counts are not negative and sum up to less
    than 2^63, the Windows pod subnet generator writes one 10.244.k.0/24
    fragment per Windows agent machine; [k] starts at one plus the master
    count plus the counts of all pools that are not Windows pools and
    grows by one per machine, across pools; the start does not depend on
    the order of the pools. *)
Theorem C5_windows_pod_subnets (properties : Properties.t) :
  let master := MasterProfile.Count (Properties.MasterProfile properties) in
  let pools := Properties.AgentPoolProfiles properties in
  0 <= master ->
  Forall (fun p => 0 <= AgentPoolProfile.Count p) pools ->
  1 + master + nonWindowsNodeCount pools + windowsNodeCount pools < 2 ^ 63 ->
  getKubernetesPodStartIndex properties = 1 + (master + nonWindowsNodeCount pools)
  /\ getKubernetesSubnets properties =
       strcat (map podSubnetFragment
                 (seqZ (1 + (master + nonWindowsNodeCount pools))
                       (windowsNodeCount pools)))
  /\ (forall properties' : Properties.t,
        Properties.MasterProfile properties' = Properties.MasterProfile properties ->
        Permutation pools (Properties.AgentPoolProfiles properties') ->
        getKubernetesPodStartIndex properties' =
        getKubernetesPodStartIndex properties).
Proof.
  intros master pools Hm Hall Hsum.
  pose proof (nonWindowsNodeCount_nonneg pools Hall) as Hn.
  pose proof (windowsNodeCount_nonneg pools Hall) as Hw.
  assert (Hstart : forall q : Properties.t,
            Properties.MasterProfile q = Properties.MasterProfile properties ->
            Permutation pools (Properties.AgentPoolProfiles q) ->
            getKubernetesPodStartIndex q =
            1 + (master + nonWindowsNodeCount pools)).
  { intros q Hq Hperm. unfold getKubernetesPodStartIndex.
    rewrite Hq. fold master.
    assert (Hall' : Forall (fun p => 0 <= AgentPoolProfile.Count p)
                      (Properties.AgentPoolProfiles q)).
    { rewrite Forall_forall in *. intros p Hp. apply Hall.
      rewrite list_elem_of_In in *.
      eapply Permutation_in; [symmetry; exact Hperm | exact Hp]. }
    pose proof (nonWindowsNodeCount_Permutation _ _ Hperm) as Hsame.
    unfold int_add at 2. rewrite (int_wrap_small (0 + master)) by lia.
    rewrite getKubernetesPodStartIndex_loop_spec;
      [|exact Hall'|lia|rewrite <- Hsame; lia].
    rewrite <- Hsame.
    unfold int_add. rewrite int_wrap_small by lia. lia. }
  assert (H0 : getKubernetesPodStartIndex properties =
               1 + (master + nonWindowsNodeCount pools))
    by (apply Hstart; reflexivity).
  split; [exact H0|]. split.
  - unfold getKubernetesSubnets. cbv zeta. rewrite H0. fold pools.
    rewrite getKubernetesSubnets_loop_spec by (try exact Hall; lia).
    reflexivity.
  - intros q Hq Hperm. now rewrite H0, (Hstart q Hq Hperm).
Qed.

End PodSubnetsClaim.

Lemma C5_windows_pod_subnets_witness :
  getKubernetesPodStartIndex (H := Demo.env) Demo.mixedCluster = 4
  /\ getKubernetesSubnets (H := Demo.env) Demo.mixedCluster =
     strcat (map podSubnetFragment [4; 5; 6]).
Proof.
  destruct (C5_windows_pod_subnets (H := Demo.env) Demo.mixedCluster)
    as (Hstart & Hsubnets & _).
  - vm_compute. discriminate.
  - repeat constructor; vm_compute; discriminate.
  - vm_compute. reflexivity.
  - split; [exact Hstart | exact Hsubnets].
Defined.

(** ** Address prefixes (claim C1) *)

Lemma getVNETAddressPrefixes_loop_spec (visitedSubnets : gmap string bool)
    (profiles : list AgentPoolProfile.t) (buf : string) :
  getVNETAddressPrefixes_loop visitedSubnets profiles buf =
  buf +:+
  strcat (map (fun p => agentAddressPrefix (AgentPoolProfile.Name p))
            (filter (fun p => visitedSubnets !! AgentPoolProfile.Subnet p = None)
               profiles)).
Proof.
  revert buf. induction profiles as [|p rest IH]; intros buf.
  - cbn. now rewrite append_nil_r.
  - cbn [getVNETAddressPrefixes_loop]. rewrite IH, filter_cons.
    destruct (visitedSubnets !! AgentPoolProfile.Subnet p) eqn:E.
    + rewrite decide_False by discriminate. reflexivity.
    + rewrite decide_True by reflexivity.
      cbn [map strcat fold_right]. unfold agentAddressPrefix.
      now rewrite append_assoc.
Qed.

(** X1.  What [getVNETAddressPrefixes] computes: the entry of the master, then
    one entry for every agent pool whose subnet is not the subnet of the
    master, whether or not an earlier pool has the same subnet. *)
Lemma getVNETAddressPrefixes_spec (properties : Properties.t) :
  getVNETAddressPrefixes properties =
  masterAddressPrefix +:+
  strcat (map (fun p => agentAddressPrefix (AgentPoolProfile.Name p))
            (filter (fun p => AgentPoolProfile.Subnet p <>
                              MasterProfile.Subnet (Properties.MasterProfile properties))
               (Properties.AgentPoolProfiles properties))).
Proof.
  unfold getVNETAddressPrefixes. cbv zeta.
  rewrite getVNETAddressPrefixes_loop_spec. do 3 f_equal.
  apply list_filter_iff. intros p.
  rewrite lookup_insert_None, lookup_empty. intuition congruence.
Qed.

(** C1, at an input where the code and the claim part.  The master is on
    10.240.0.0/16 and the pools agent1 and agent2 share 10.1.0.0/16: the
    claim gives the second pool no entry, the code writes one entry for
    each of the two pools. *)
Theorem C1_address_prefixes_shared_subnet :
  map AgentPoolProfile.Subnet
    (Properties.AgentPoolProfiles Demo.sharedSubnetCluster) =
    ["10.1.0.0/16"; "10.1.0.0/16"]
  /\ getVNETAddressPrefixes Demo.sharedSubnetCluster =
     masterAddressPrefix +:+ agentAddressPrefix "agent1" +:+
     agentAddressPrefix "agent2".
Proof. split; vm_compute; reflexivity. Qed.

(** ** The invariant of parameter maps (claim C9) *)

Lemma addValue_lookup (m : paramsMap) (k : string) (v : value) :
  addValue m k v !! k = Some (VParams {[ "value" := v ]}).
Proof. unfold addValue. apply lookup_insert_eq. Qed.

Lemma addValue_entry (m : paramsMap) (k : string) (v : value) :
  exists entry, addValue m k v !! k = Some entry /\
    hasValue entry /\ ~ hasReference entry.
Proof.
  eexists. split; [apply addValue_lookup|]. split.
  - cbn. rewrite lookup_singleton_eq. eauto.
  - cbn. rewrite lookup_singleton_ne by discriminate. intros [? ?]. discriminate.
Qed.

Lemma addKeyvaultReference_entry (m : paramsMap) (k a b c : string) :
  exists entry, addKeyvaultReference m k a b c !! k = Some entry /\
    hasReference entry /\ ~ hasValue entry.
Proof.
  eexists. split; [unfold addKeyvaultReference; apply lookup_insert_eq|]. split.
  - cbn. rewrite lookup_singleton_eq. eauto.
  - cbn. rewrite lookup_singleton_ne by discriminate. intros [? ?]. discriminate.
Qed.

(** [addSecret] is one of the two other writers. *)
Lemma addSecret_cases (m : paramsMap) (k : string) (v : value) (encode : bool) :
  (isSecretPath v = true /\
   exists a b c, addSecret m k v encode = addKeyvaultReference m k a b c) \/
  (isSecretPath v = false /\
   exists v', addSecret m k v encode = addValue m k v').
Proof.
  unfold addSecret, isSecretPath.
  destruct v as [| | |str| |]; try (right; split; [reflexivity|eauto]).
  destruct (FindStringSubmatch keyvaultSecretPathRe 4 str)
    as [[|p0 [|p1 [|p2 [|p3 [|p4 [|p5 ps]]]]]]|];
    try (right; split; [reflexivity|destruct encode; eauto]).
  left. split; [reflexivity|eauto].
Qed.

Lemma runWrite_written (m : paramsMap) (w : paramsWrite) :
  exists (k : string) (entry : value),
    runWrite m w = <[k := entry]> m /\ exactlyOneField entry.
Proof.
  assert (Hv : forall k v, exists entry,
            addValue m k v = <[k := entry]> m /\ exactlyOneField entry).
  { intros k v. destruct (addValue_entry m k v) as (e & He & Hval & Href).
    exists e. split; [|left; auto].
    unfold addValue in *. rewrite lookup_insert_eq in He. now injection He as <-. }
  assert (Hr : forall k a b c, exists entry,
            addKeyvaultReference m k a b c = <[k := entry]> m /\
            exactlyOneField entry).
  { intros k a b c.
    destruct (addKeyvaultReference_entry m k a b c) as (e & He & Href & Hval).
    exists e. split; [|right; auto].
    unfold addKeyvaultReference in *. rewrite lookup_insert_eq in He.
    now injection He as <-. }
  destruct w as [k v|k a b c|k v encode]; cbn [runWrite].
  - exists k. apply Hv.
  - exists k. apply Hr.
  - exists k.
    destruct (addSecret_cases m k v encode) as [(_ & a & b & c & ->)|(_ & v' & ->)];
      [apply Hr | apply Hv].
Qed.

Lemma runWrite_invariant (m : paramsMap) (w : paramsWrite) :
  paramsMapInvariant m -> paramsMapInvariant (runWrite m w).
Proof.
  intros Hm. destruct (runWrite_written m w) as (k & e & -> & He).
  intros k' e' Hk'. destruct (decide (k = k')) as [->|Hne].
  - rewrite lookup_insert_eq in Hk'. now injection Hk' as <-.
  - rewrite lookup_insert_ne in Hk' by exact Hne. now apply (Hm k').
Qed.

(** C9.  Each of the three writers leaves a map with the invariant a map
    with the invariant, and so does every sequence of them; the entry
    written by [addValue] and by [addSecret] outside its key vault branch
    has its value set and no reference, the entry written by
    [addKeyvaultReference] and by [addSecret] in its key vault branch has
    its reference set and no value. *)
Theorem C9_paramsMap_invariant (m : paramsMap) (ws : list paramsWrite) :
  paramsMapInvariant m ->
  paramsMapInvariant (runWrites m ws)
  /\ (forall k v, exists entry, addValue m k v !! k = Some entry /\
        hasValue entry /\ ~ hasReference entry)
  /\ (forall k a b c, exists entry,
        addKeyvaultReference m k a b c !! k = Some entry /\
        hasReference entry /\ ~ hasValue entry)
  /\ (forall k v encode, isSecretPath v = false ->
        exists entry, addSecret m k v encode !! k = Some entry /\
          hasValue entry /\ ~ hasReference entry)
  /\ (forall k v encode, isSecretPath v = true ->
        exists entry, addSecret m k v encode !! k = Some entry /\
          hasReference entry /\ ~ hasValue entry).
Proof.
  intros Hm. split; [|split; [|split; [|split]]].
  - unfold runWrites. revert m Hm.
    induction ws as [|w ws IH]; intros m Hm; [exact Hm|].
    cbn [fold_left]. apply IH. now apply runWrite_invariant.
  - intros k v. apply addValue_entry.
  - intros k a b c. apply addKeyvaultReference_entry.
  - intros k v encode Hv.
    destruct (addSecret_cases m k v encode) as [(Ht & _)|(_ & v' & ->)];
      [congruence | apply addValue_entry].
  - intros k v encode Hv.
    destruct (addSecret_cases m k v encode) as [(_ & a & b & c & ->)|(Hf & _)];
      [apply addKeyvaultReference_entry | congruence].
Qed.

Lemma C9_paramsMap_invariant_witness :
  paramsMapInvariant
    (runWrites ∅
       [WriteValue "location" (VString "westus");
        WriteSecret "servicePrincipalClientSecret" (VString "p@ss") true;
        WriteKeyvaultReference "caPrivateKey" "/subscriptions/S" "ca" "1";
        WriteValue "location" VNil]).
Proof.
  refine (proj1 (C9_paramsMap_invariant ∅ _ _)).
  intros k entry Hk. rewrite lookup_empty in Hk. discriminate.
Defined.

(** ** Extension names and letter case (claim C10) *)

Section ExtensionNames.
Context `{Env}.

Lemma validateProfileOptedForExtension_true (extensionName : string)
    (profileExtensions : list Extension.t) :
  fst (validateProfileOptedForExtension extensionName profileExtensions) = true
  <-> In extensionName (map Extension.Name profileExtensions).
Proof.
  induction profileExtensions as [|e rest IH]; cbn [validateProfileOptedForExtension map In].
  - cbn. split; [discriminate | tauto].
  - destruct (String.eqb_spec extensionName (Extension.Name e)) as [->|Hne].
    + cbn. tauto.
    + rewrite IH. split; [tauto|]. intros [E|?]; [congruence|assumption].
Qed.

Lemma lookupExtensionProfile_Some (extension : Extension.t)
    (extensionProfiles : list ExtensionProfile.t) (eP : ExtensionProfile.t) :
  lookupExtensionProfile extension extensionProfiles = Some eP ->
  In eP extensionProfiles /\
  EqualFold (ExtensionProfile.Name eP) (Extension.Name extension) = true.
Proof.
  induction extensionProfiles as [|p rest IH]; cbn [lookupExtensionProfile In];
    [discriminate|].
  destruct (EqualFold (ExtensionProfile.Name p) (Extension.Name extension)) eqn:E.
  - intros [= <-]. auto.
  - intros Hrest. destruct (IH Hrest). auto.
Qed.

Lemma lookupExtensionProfile_None (extension : Extension.t)
    (extensionProfiles : list ExtensionProfile.t) :
  lookupExtensionProfile extension extensionProfiles = None <->
  Forall (fun eP => EqualFold (ExtensionProfile.Name eP)
                      (Extension.Name extension) = false) extensionProfiles.
Proof.
  induction extensionProfiles as [|p rest IH]; cbn [lookupExtensionProfile].
  - split; [constructor | reflexivity].
  - destruct (EqualFold (ExtensionProfile.Name p) (Extension.Name extension))
      eqn:E.
    + split; [discriminate|]. intros Hall. inversion Hall; congruence.
    + rewrite IH. split; [now constructor | intros Hall; now inversion Hall].
Qed.

Lemma lookupExtensionProfile_first (extension : Extension.t)
    (before after : list ExtensionProfile.t) (eP : ExtensionProfile.t) :
  Forall (fun p => EqualFold (ExtensionProfile.Name p)
                     (Extension.Name extension) = false) before ->
  EqualFold (ExtensionProfile.Name eP) (Extension.Name extension) = true ->
  lookupExtensionProfile extension (before ++ eP :: after) = Some eP.
Proof.
  intros Hbefore Hfold.
  induction Hbefore as [|p before Hp _ IH]; cbn [app lookupExtensionProfile].
  - now rewrite Hfold.
  - now rewrite Hp.
Qed.

Lemma lookupExtensionProfile_found (extension : Extension.t)
    (extensionProfiles : list ExtensionProfile.t) (found : ExtensionProfile.t) :
  lookupExtensionProfile extension extensionProfiles = Some found <->
  exists before after : list ExtensionProfile.t,
    extensionProfiles = (before ++ found :: after)%list
    /\ Forall (fun p => EqualFold (ExtensionProfile.Name p)
                          (Extension.Name extension) = false) before
    /\ EqualFold (ExtensionProfile.Name found) (Extension.Name extension) = true.
Proof.
  split.
  - induction extensionProfiles as [|p rest IH]; cbn [lookupExtensionProfile];
      [discriminate|].
    destruct (EqualFold (ExtensionProfile.Name p) (Extension.Name extension))
      eqn:E.
    + intros [= <-]. exists [], rest. repeat split; [constructor | exact E].
    + intros Hrest. destruct (IH Hrest) as (before & after & -> & Hb & Hf).
      exists (p :: before), after. repeat split; [now constructor | exact Hf].
  - intros (before & after & -> & Hbefore & Hfold).
    now apply lookupExtensionProfile_first.
Qed.

(** C10.  An extension profile named [declared] and an extension that a
    pool names [opted], the two names equal up to letter case and not
    equal: [validateProfileOptedForExtension] reports that the pool has
    not opted in (it compares with [==], and opts a pool in exactly when
    the declared name is among the names of the pool), while both command
    builders find the profile for the same pair of names (they compare
    with [strings.EqualFold]) and do not panic, in a catalog of that one
    profile and in every catalog where no profile before it has the name
    of the extension up to letter case.  In any catalog the lookup of
    the builders finds no profile exactly when no profile of the catalog
    has the name of the extension up to letter case, and the builders
    panic exactly then; it finds a profile exactly when that is the first
    profile of the catalog with such a name. *)
Theorem C10_extension_name_case (eP : ExtensionProfile.t)
    (extension : Extension.t) (copyIndex : string) :
  let declared := ExtensionProfile.Name eP in
  let opted := Extension.Name extension in
  let unnamed :=
    Forall (fun p => EqualFold (ExtensionProfile.Name p) opted = false) in
  EqualFold declared opted = true ->
  declared <> opted ->
  validateProfileOptedForExtension declared [extension] = (false, "")
  /\ (forall profileExtensions : list Extension.t,
        fst (validateProfileOptedForExtension declared profileExtensions) = true
        <-> In declared (map Extension.Name profileExtensions))
  /\ lookupExtensionProfile extension [eP] = Some eP
  /\ (exists commands : string,
        makeExtensionScriptCommands extension [eP] copyIndex = Returns commands)
  /\ (exists commands : string,
        makeWindowsExtensionScriptCommands extension [eP] copyIndex =
        Returns commands)
  /\ (forall before after : list ExtensionProfile.t,
        unnamed before ->
        lookupExtensionProfile extension (before ++ eP :: after) = Some eP
        /\ (exists commands : string,
              makeExtensionScriptCommands extension (before ++ eP :: after)
                copyIndex = Returns commands)
        /\ (exists commands : string,
              makeWindowsExtensionScriptCommands extension
                (before ++ eP :: after) copyIndex = Returns commands))
  /\ (forall extensionProfiles : list ExtensionProfile.t,
        lookupExtensionProfile extension extensionProfiles = None <->
        unnamed extensionProfiles)
  /\ (forall (extensionProfiles : list ExtensionProfile.t)
        (found : ExtensionProfile.t),
        lookupExtensionProfile extension extensionProfiles = Some found <->
        exists before after : list ExtensionProfile.t,
          extensionProfiles = (before ++ found :: after)%list
          /\ unnamed before
          /\ EqualFold (ExtensionProfile.Name found) opted = true)
  /\ (forall extensionProfiles : list ExtensionProfile.t,
        (exists msg : string,
           makeExtensionScriptCommands extension extensionProfiles copyIndex =
           Panics msg) <-> unnamed extensionProfiles)
  /\ (forall extensionProfiles : list ExtensionProfile.t,
        (exists msg : string,
           makeWindowsExtensionScriptCommands extension extensionProfiles
             copyIndex = Panics msg) <-> unnamed extensionProfiles).
Proof.
  intros declared opted unnamed Hfold Hne.
  assert (Hlookup : lookupExtensionProfile extension [eP] = Some eP).
  { cbn [lookupExtensionProfile]. fold declared opted. now rewrite Hfold. }
  split; [|split; [|split; [|split; [|split; [|split; [|split; [|split; [|split]]]]]]]].
  - cbn [validateProfileOptedForExtension]. fold opted.
    destruct (String.eqb_spec declared opted); [contradiction | reflexivity].
  - intros exts. apply validateProfileOptedForExtension_true.
  - exact Hlookup.
  - unfold makeExtensionScriptCommands. rewrite Hlookup. eauto.
  - unfold makeWindowsExtensionScriptCommands. rewrite Hlookup. eauto.
  - intros before after Hbefore.
    pose proof (lookupExtensionProfile_first extension before after eP
                  Hbefore Hfold) as Hfirst.
    split; [exact Hfirst|]. split.
    + unfold makeExtensionScriptCommands. rewrite Hfirst. eauto.
    + unfold makeWindowsExtensionScriptCommands. rewrite Hfirst. eauto.
  - intros profiles. apply lookupExtensionProfile_None.
  - intros profiles found. apply lookupExtensionProfile_found.
  - intros profiles. unfold unnamed, opted.
    rewrite <- lookupExtensionProfile_None. unfold makeExtensionScriptCommands.
    destruct (lookupExtensionProfile extension profiles).
    + split; [intros [msg Hmsg]; discriminate | discriminate].
    + split; [reflexivity | eauto].
  - intros profiles. unfold unnamed, opted.
    rewrite <- lookupExtensionProfile_None.
    unfold makeWindowsExtensionScriptCommands.
    destruct (lookupExtensionProfile extension profiles).
    + split; [intros [msg Hmsg]; discriminate | discriminate].
    + split; [reflexivity | eauto].
Qed.

End ExtensionNames.

(** An extension profile [hello-world], an extension [Hello-World] and a
    profile of another name. *)
Lemma C10_extension_name_case_witness :
  let helloProfile :=
    {| ExtensionProfile.Name := "hello-world";
       ExtensionProfile.Version := "v1";
       ExtensionProfile.RootURL := "https://example.com/";
       ExtensionProfile.Script := "hello.sh";
       ExtensionProfile.URLQuery := "" |} in
  let otherProfile :=
    {| ExtensionProfile.Name := "winrm";
       ExtensionProfile.Version := "v1";
       ExtensionProfile.RootURL := "https://example.com/";
       ExtensionProfile.Script := "winrm.ps1";
       ExtensionProfile.URLQuery := "" |} in
  let extension :=
    {| Extension.Name := "Hello-World"; Extension.SingleOrAll := "All" |} in
  validateProfileOptedForExtension "hello-world" [extension] = (false, "")
  /\ lookupExtensionProfile (H := Demo.env) extension [helloProfile] =
     Some helloProfile
  /\ lookupExtensionProfile (H := Demo.env) extension
       [otherProfile; helloProfile; otherProfile] = Some helloProfile
  /\ (lookupExtensionProfile (H := Demo.env) extension [otherProfile] = None
      <-> Forall (fun p => EqualFold (H := Demo.env) (ExtensionProfile.Name p)
                             "Hello-World" = false) [otherProfile]).
Proof.
  intros helloProfile otherProfile extension.
  pose proof (C10_extension_name_case (H := Demo.env) helloProfile extension
                "',copyIndex(),'") as Hclaim.
  cbv zeta in Hclaim.
  destruct Hclaim as (Hvalidate & _ & Hlookup & _ & _ & Hfirst & Hnone & _).
  - vm_compute. reflexivity.
  - discriminate.
  - split; [exact Hvalidate|]. split; [exact Hlookup|]. split.
    + refine (proj1 (Hfirst [otherProfile] [otherProfile] _)).
      constructor; [vm_compute; reflexivity | constructor].
    + exact (Hnone [otherProfile]).
Defined.

(** ** Replacement in strings *)

Lemma HasPrefix_append (old s : string) : GoStrings.HasPrefix (old +:+ s) old = true.
Proof.
  induction old as [|c old IH]; [reflexivity|].
  cbn [GoStrings.HasPrefix String.append]. now rewrite Ascii.eqb_refl, IH.
Qed.

Lemma replace_from_skip (old new a s : string) :
  GoStrings.replace_from old new (String.length a) (a +:+ s) =
  GoStrings.replace_from old new O s.
Proof. induction a as [|c a IH]; [reflexivity | exact IH]. Qed.

Lemma replace_from_match (old new s : string) :
  old <> "" ->
  GoStrings.replace_from old new O (old +:+ s) =
  new +:+ GoStrings.replace_from old new O s.
Proof.
  intros Hold. destruct old as [|c old]; [contradiction|].
  change (String c old +:+ s) with (String c (old +:+ s)).
  cbn [GoStrings.replace_from].
  change (String c (old +:+ s)) with (String c old +:+ s).
  rewrite HasPrefix_append. cbn [String.length Nat.pred].
  now rewrite replace_from_skip.
Qed.

Lemma replace_from_before (old new pre rest : string) :
  noMatchWithin old pre rest = true ->
  GoStrings.replace_from old new O (pre +:+ rest) =
  pre +:+ GoStrings.replace_from old new O rest.
Proof.
  induction pre as [|c pre IH]; [reflexivity|].
  cbn [noMatchWithin]. intros [Hhere Hlater]%andb_true_iff.
  apply negb_true_iff in Hhere.
  change (String c pre +:+ rest) with (String c (pre +:+ rest)) in *.
  cbn [GoStrings.replace_from]. rewrite Hhere, IH by exact Hlater. reflexivity.
Qed.

(** The leftmost occurrence: what comes before it stays, the occurrence
    becomes [new], and the replacement goes on behind it. *)
Lemma Replace_leftmost (old new pre post : string) :
  old <> "" ->
  noMatchWithin old pre (old +:+ post) = true ->
  GoStrings.Replace (pre +:+ old +:+ post) old new =
  pre +:+ new +:+ GoStrings.Replace post old new.
Proof.
  intros Hold Hpre. unfold GoStrings.Replace.
  destruct old as [|c old]; [contradiction|].
  rewrite replace_from_before by exact Hpre.
  now rewrite replace_from_match by discriminate.
Qed.

(** ** The loop count of a linked template (claim C6) *)

Section LoopCount.
Context `{Env}.

Lemma M_bind_run {A B : Type} (m : M A) (f : A -> M B) (rt rt' : RT) (a : A) :
  m rt = (a, rt') -> (m ≫= f) rt = f a rt'.
Proof. intros E. unfold mbind, M_bind. now rewrite E. Qed.

Lemma Atoi_bracket (s : string) : strconv.Atoi (String "[" s) = None.
Proof. reflexivity. Qed.

Lemma internalGetPoolLinkedTemplateText_ok
    (extTargetVMNamePrefix orchestratorType loopCount loopOffset : string)
    (extensionProfile : ExtensionProfile.t) (rt rt' : RT) (dta : string) :
  getLinkedTemplateTextForURL (ExtensionProfile.RootURL extensionProfile)
    orchestratorType (ExtensionProfile.Name extensionProfile)
    (ExtensionProfile.Version extensionProfile)
    (ExtensionProfile.URLQuery extensionProfile) rt = ((dta, None), rt') ->
  internalGetPoolLinkedTemplateText extTargetVMNamePrefix orchestratorType
    loopCount loopOffset extensionProfile rt =
  ((spliceLinkedTemplate extTargetVMNamePrefix extensionProfile
      (match strconv.Atoi loopCount with
       | Some _ => LiteralCount loopCount
       | None => ExpressionCount loopCount
       end) loopOffset dta, None), rt').
Proof.
  intros Hfetch. unfold internalGetPoolLinkedTemplateText.
  rewrite (M_bind_run _ _ _ _ _ Hfetch).
  unfold spliceLinkedTemplate, spliceBeforeLoopCount, spliceLoopCount.
  destruct (GoStrings.Contains extTargetVMNamePrefix "master");
    destruct (strconv.Atoi loopCount); reflexivity.
Qed.

End LoopCount.

Section LoopCountClaim.
Context `{Env}.

Lemma spliceLoopCount_literal (pre post digits : string) :
  noMatchWithin (dq +:+ "EXTENSION_LOOP_COUNT" +:+ dq) pre
    (dq +:+ "EXTENSION_LOOP_COUNT" +:+ dq +:+ post) = true ->
  spliceLoopCount (LiteralCount digits)
    (pre +:+ dq +:+ "EXTENSION_LOOP_COUNT" +:+ dq +:+ post) =
  pre +:+ digits +:+ spliceLoopCount (LiteralCount digits) post.
Proof.
  intros Hpre. cbn [spliceLoopCount].
  rewrite <- (Replace_leftmost (dq +:+ "EXTENSION_LOOP_COUNT" +:+ dq) digits pre post);
    [reflexivity | discriminate | exact Hpre].
Qed.

Lemma spliceLoopCount_expression (pre post expression : string) :
  noMatchWithin "EXTENSION_LOOP_COUNT" (pre +:+ dq)
    ("EXTENSION_LOOP_COUNT" +:+ dq +:+ post) = true ->
  spliceLoopCount (ExpressionCount expression)
    (pre +:+ dq +:+ "EXTENSION_LOOP_COUNT" +:+ dq +:+ post) =
  pre +:+ dq +:+ expression +:+ dq +:+
  spliceLoopCount (ExpressionCount expression) post.
Proof.
  intros Hpre. cbn [spliceLoopCount].
  replace (pre +:+ dq +:+ "EXTENSION_LOOP_COUNT" +:+ dq +:+ post)
    with ((pre +:+ dq) +:+ "EXTENSION_LOOP_COUNT" +:+ (dq +:+ post))
    by (now rewrite !append_assoc).
  rewrite Replace_leftmost; [|discriminate|exact Hpre].
  rewrite !append_assoc. reflexivity.
Qed.

(** C6.  Given that the template text [dta] of the extension is fetched:
    in single mode ([strings.EqualFold singleOrAll "single"]) the loop
    count is the integer literal 1, and every quoted placeholder, double
    quotes included, becomes the bare integer; otherwise the loop count is
    an expression, and every placeholder becomes the expression while the
    text around it, the double quotes included, stays.  In general the
    first form of replacement is taken exactly when [strconv.Atoi] reads
    the loop count as an integer. *)
Theorem C6_loop_count_substitution (masterProfile : MasterProfile.t)
    (agentPoolProfile : AgentPoolProfile.t) (orchestratorType : string)
    (extensionProfile : ExtensionProfile.t) (singleOrAll : string)
    (rt rt' : RT) (dta : string) :
  getLinkedTemplateTextForURL (ExtensionProfile.RootURL extensionProfile)
    orchestratorType (ExtensionProfile.Name extensionProfile)
    (ExtensionProfile.Version extensionProfile)
    (ExtensionProfile.URLQuery extensionProfile) rt = ((dta, None), rt') ->
  getMasterLinkedTemplateText masterProfile orchestratorType extensionProfile
    singleOrAll rt =
    ((spliceLinkedTemplate "variables('masterVMNamePrefix')" extensionProfile
        (if EqualFold singleOrAll "single" then LiteralCount "1"
         else ExpressionCount masterLoopCountExpression)
        "variables('masterOffset')" dta, None), rt')
  /\ getAgentPoolLinkedTemplateText agentPoolProfile orchestratorType
       extensionProfile singleOrAll rt =
     ((spliceLinkedTemplate
         ("variables('" +:+ AgentPoolProfile.Name agentPoolProfile
          +:+ "VMNamePrefix')") extensionProfile
         (if EqualFold singleOrAll "single" then LiteralCount "1"
          else ExpressionCount (agentLoopCountExpression agentPoolProfile))
         (agentLoopOffset agentPoolProfile) dta, None), rt')
  /\ (forall extTargetVMNamePrefix loopCount loopOffset : string,
        internalGetPoolLinkedTemplateText extTargetVMNamePrefix
          orchestratorType loopCount loopOffset extensionProfile rt =
        ((spliceLinkedTemplate extTargetVMNamePrefix extensionProfile
            (match strconv.Atoi loopCount with
             | Some _ => LiteralCount loopCount
             | None => ExpressionCount loopCount
             end) loopOffset dta, None), rt'))
  /\ (forall pre post digits : string,
        noMatchWithin (dq +:+ "EXTENSION_LOOP_COUNT" +:+ dq) pre
          (dq +:+ "EXTENSION_LOOP_COUNT" +:+ dq +:+ post) = true ->
        spliceLoopCount (LiteralCount digits)
          (pre +:+ dq +:+ "EXTENSION_LOOP_COUNT" +:+ dq +:+ post) =
        pre +:+ digits +:+ spliceLoopCount (LiteralCount digits) post)
  /\ (forall pre post expression : string,
        noMatchWithin "EXTENSION_LOOP_COUNT" (pre +:+ dq)
          ("EXTENSION_LOOP_COUNT" +:+ dq +:+ post) = true ->
        spliceLoopCount (ExpressionCount expression)
          (pre +:+ dq +:+ "EXTENSION_LOOP_COUNT" +:+ dq +:+ post) =
        pre +:+ dq +:+ expression +:+ dq +:+
        spliceLoopCount (ExpressionCount expression) post).
Proof.
  intros Hfetch.
  pose proof (fun p c o =>
    internalGetPoolLinkedTemplateText_ok p orchestratorType c o
      extensionProfile rt rt' dta Hfetch) as Hinternal.
  split; [|split; [|split; [|split]]].
  - unfold getMasterLinkedTemplateText. rewrite Hinternal.
    destruct (EqualFold singleOrAll "single"); reflexivity.
  - unfold getAgentPoolLinkedTemplateText, agentLoopCountExpression,
      agentLoopOffset.
    destruct (IsAvailabilitySets agentPoolProfile);
      destruct (EqualFold singleOrAll "single");
      rewrite Hinternal; reflexivity.
  - exact Hinternal.
  - exact spliceLoopCount_literal.
  - exact spliceLoopCount_expression.
Qed.

End LoopCountClaim.

Lemma C6_loop_count_substitution_witness :
  getMasterLinkedTemplateText (H := Demo.env) Demo.master "Kubernetes"
    helloWorld "single" (demoState helloWorldServer) =
    (("{" +:+ dq +:+ "count" +:+ dq +:+ ": 1, " +:+ dq +:+ "offset" +:+ dq +:+ ": "
      +:+ dq +:+ "variables('masterOffset')" +:+ dq +:+ "}", None),
     demoState helloWorldServer)
  /\ getMasterLinkedTemplateText (H := Demo.env) Demo.master "Kubernetes"
       helloWorld "All" (demoState helloWorldServer) =
     (("{" +:+ dq +:+ "count" +:+ dq +:+ ": " +:+ dq +:+ masterLoopCountExpression
       +:+ dq +:+ ", " +:+ dq +:+ "offset" +:+ dq +:+ ": "
       +:+ dq +:+ "variables('masterOffset')" +:+ dq +:+ "}", None),
      demoState helloWorldServer).
Proof.
  assert (Hfetch :
    getLinkedTemplateTextForURL (H := Demo.env)
      (ExtensionProfile.RootURL helloWorld) "Kubernetes"
      (ExtensionProfile.Name helloWorld) (ExtensionProfile.Version helloWorld)
      (ExtensionProfile.URLQuery helloWorld) (demoState helloWorldServer) =
    ((helloWorldTemplate, None), demoState helloWorldServer))
    by reflexivity.
  split.
  - rewrite (proj1 (C6_loop_count_substitution (H := Demo.env) Demo.master
               (Demo.pool "agents" "Linux" "10.1.0.0/16" 1 []) "Kubernetes"
               helloWorld "single" _ _ _ Hfetch)).
    reflexivity.
  - rewrite (proj1 (C6_loop_count_substitution (H := Demo.env) Demo.master
               (Demo.pool "agents" "Linux" "10.1.0.0/16" 1 []) "Kubernetes"
               helloWorld "All" _ _ _ Hfetch)).
    reflexivity.
Defined.

(** ** Failed resolutions (claim C2) *)

Section Resolution.
Context `{Env}.

Lemma appendLinkedTemplate_error (result : string) (t : target) (rt rt' : RT)
    (dta msg : string) :
  t rt = ((dta, Some msg), rt') ->
  appendLinkedTemplate result t rt = (Return "", snd (Println msg rt')).
Proof.
  intros E. unfold appendLinkedTemplate.
  rewrite (M_bind_run _ _ _ _ _ E). reflexivity.
Qed.

Lemma appendLinkedTemplate_text (result : string) (t : target) (rt rt' : RT)
    (dta : string) :
  t rt = ((dta, None), rt') ->
  appendLinkedTemplate result t rt = (Continue ((result +:+ ",") +:+ dta), rt').
Proof.
  intros E. unfold appendLinkedTemplate.
  rewrite (M_bind_run _ _ _ _ _ E). reflexivity.
Qed.

Lemma resolveAll_app (l1 l2 : list target) (result : string) (rt : RT) :
  resolveAll (l1 ++ l2) result rt =
  match resolveAll l1 result rt with
  | (Return v, rt1) => (Return v, rt1)
  | (Continue r, rt1) => resolveAll l2 r rt1
  end.
Proof.
  revert result rt. induction l1 as [|t l1 IH]; intros result rt; [reflexivity|].
  cbn [resolveAll app]. unfold mbind, M_bind.
  destruct (appendLinkedTemplate result t rt) as [[r|v] rt1]; [apply IH | reflexivity].
Qed.

Lemma agentPools_loop_resolveAll (orchestratorType : string)
    (extensionProfile : ExtensionProfile.t)
    (agentPoolProfiles : list AgentPoolProfile.t) (result : string) (rt : RT) :
  agentPools_loop orchestratorType extensionProfile agentPoolProfiles result rt =
  resolveAll (agentTargets orchestratorType extensionProfile agentPoolProfiles)
    result rt.
Proof.
  revert result rt.
  induction agentPoolProfiles as [|p rest IH]; intros result rt; [reflexivity|].
  cbn [agentPools_loop agentTargets flat_map].
  destruct (validateProfileOptedForExtension
              (ExtensionProfile.Name extensionProfile)
              (AgentPoolProfile.Extensions p)) as [[|] singleOrAll].
  - cbn [app resolveAll]. unfold mbind, M_bind.
    destruct (appendLinkedTemplate result _ rt) as [[r|v] rt1];
      [apply IH | reflexivity].
  - cbn [app]. unfold mbind, M_bind, mret, M_ret. apply IH.
Qed.

Lemma extensions_loop_resolveAll (properties : Properties.t)
    (orchestratorType : string) (extensions : list ExtensionProfile.t)
    (result : string) (rt : RT) :
  extensions_loop properties orchestratorType extensions result rt =
  resolveAll (flat_map (extensionTargets properties orchestratorType) extensions)
    result rt.
Proof.
  revert result rt.
  induction extensions as [|eP rest IH]; intros result rt; [reflexivity|].
  cbn [extensions_loop flat_map]. unfold extensionTargets at 1.
  destruct (validateProfileOptedForExtension (ExtensionProfile.Name eP)
              (MasterProfile.Extensions (Properties.MasterProfile properties)))
    as [[|] singleOrAll].
  - cbn [app resolveAll]. unfold mbind, M_bind.
    destruct (appendLinkedTemplate result _ rt) as [[r|v] rt1]; [|reflexivity].
    rewrite resolveAll_app, agentPools_loop_resolveAll.
    destruct (resolveAll _ r rt1) as [[r'|v] rt2]; [apply IH | reflexivity].
  - cbn [app]. unfold mbind, M_bind, mret, M_ret.
    rewrite resolveAll_app, agentPools_loop_resolveAll.
    destruct (resolveAll _ result rt) as [[r'|v] rt2]; [apply IH | reflexivity].
Qed.

Lemma resolveAll_FirstFailure (targets : list target) (result : string)
    (rt rt' : RT) (msg : string) :
  FirstFailure targets rt msg rt' ->
  resolveAll targets result rt = (Return "", snd (Println msg rt')).
Proof.
  intros Hfail. revert result.
  induction Hfail as [t rest rt rt' dta msg E | t rest rt rt1 rt' dta msg E _ IH];
    intros result; cbn [resolveAll]; unfold mbind, M_bind.
  - now rewrite (appendLinkedTemplate_error result t rt rt' dta msg E).
  - rewrite (appendLinkedTemplate_text result t rt rt1 dta E). apply IH.
Qed.

Lemma resolveAll_AllResolved (targets : list target) (result : string)
    (rt rt' : RT) (texts : list string) :
  AllResolved targets rt texts rt' ->
  resolveAll targets result rt =
  (Continue (result +:+ strcat (map (String.append ",") texts)), rt').
Proof.
  intros Hall. revert result.
  induction Hall as [rt | t rest rt rt1 rt' dta texts E _ IH]; intros result.
  - cbn. now rewrite append_nil_r.
  - cbn [resolveAll]. unfold mbind, M_bind.
    rewrite (appendLinkedTemplate_text result t rt rt1 dta E), IH.
    cbn [map strcat fold_right]. now rewrite !append_assoc.
Qed.

(** The errors of [getLinkedTemplateTextForURL]: a request that fails, an
    answer whose status is not 200 or whose body cannot be read, a list of
    orchestrators that does not parse or does not hold the orchestrator.
    In each case the text is empty. *)
Lemma getLinkedTemplateTextForURL_outcome
    (rootURL orchestrator extensionName version query : string) (rt : RT) :
  let url1 := getExtensionURL rootURL extensionName version
                "supported-orchestrators.json" query in
  let url2 := getExtensionURL rootURL extensionName version
                "template-link.json" query in
  match getLinkedTemplateTextForURL rootURL orchestrator extensionName version
          query rt with
  | ((text, None), rt') =>
      exists status1 status2 body1 supported w1,
        http_Get url1 (world rt) = (HttpResponse 200 status1 (Ok body1), w1) /\
        json_Unmarshal_strings body1 = Some supported /\
        stringInSlice orchestrator supported = true /\
        http_Get url2 w1 = (HttpResponse 200 status2 (Ok text), world rt') /\
        stdout rt' = stdout rt
  | ((text, Some _), rt') => text = "" /\ stdout rt' = stdout rt
  end.
Proof.
  intros url1 url2.
  unfold getLinkedTemplateTextForURL, orchestratorSupportsExtension,
    getExtensionResource, httpGet, mbind, M_bind, mret, M_ret.
  fold url1 url2.
  destruct (http_Get url1 (world rt)) as [[err|code1 status1 body1r] w1];
    cbn; [split; reflexivity|].
  destruct (Z.eqb_spec code1 200) as [->|Hne]; cbn; [|split; reflexivity].
  destruct body1r as [body1|err]; cbn; [|split; reflexivity].
  destruct (json_Unmarshal_strings body1) as [supported|] eqn:Ejson; cbn;
    [|split; reflexivity].
  destruct (stringInSlice orchestrator supported) eqn:Ein; cbn;
    [|split; reflexivity].
  destruct (http_Get url2 w1) as [[err|code2 status2 body2r] w2] eqn:E2;
    cbn; [split; reflexivity|].
  destruct (Z.eqb_spec code2 200) as [->|Hne]; cbn; [|split; reflexivity].
  destruct body2r as [body2|err]; cbn; [|split; reflexivity].
  exists status1, status2, body1, supported, w1. repeat split; auto.
Qed.

End Resolution.

Section ResolutionClaim.
Context `{Env}.

(** C2, amended.  When the resolution of an opted-in target fails, in a
    request, in the status of the answer or in the list of supported
    orchestrators, [getLinkedTemplatesForExtensions] returns the empty
    string: the fragments gathered before are dropped and later targets
    are not tried.  The error is not returned (the function returns a
    string only); its message is one more line on standard output.  When
    no target fails, the result is all fragments, each after a comma. *)
Theorem C2_failed_resolution (properties : Properties.t)
    (orchestratorProfile : OrchestratorProfile.t) (rt rt' : RT) :
  Properties.OrchestratorProfile properties = Some orchestratorProfile ->
  let targets :=
    allTargets properties
      (OrchestratorProfile.OrchestratorType orchestratorProfile) in
  (forall msg : string,
     FirstFailure targets rt msg rt' ->
     getLinkedTemplatesForExtensions properties rt =
     (Returns "", {| world := world rt'; stdout := stdout rt' ++ [msg] |}))
  /\ (forall texts : list string,
        AllResolved targets rt texts rt' ->
        getLinkedTemplatesForExtensions properties rt =
        (Returns (strcat (map (String.append ",") texts)), rt')).
Proof.
  intros Horch targets. unfold getLinkedTemplatesForExtensions.
  rewrite Horch. unfold mbind, M_bind.
  split.
  - intros msg Hfail. rewrite extensions_loop_resolveAll.
    fold (allTargets properties
            (OrchestratorProfile.OrchestratorType orchestratorProfile)).
    fold targets. now rewrite (resolveAll_FirstFailure _ _ _ _ _ Hfail).
  - intros texts Hall. rewrite extensions_loop_resolveAll.
    fold (allTargets properties
            (OrchestratorProfile.OrchestratorType orchestratorProfile)).
    fold targets. now rewrite (resolveAll_AllResolved _ _ _ _ _ Hall).
Qed.

End ResolutionClaim.

Lemma C2_failed_resolution_witness :
  exists msg : string,
    getLinkedTemplatesForExtensions (H := Demo.env) optedInCluster (demoState []) =
    (Returns "", @Build_RT Demo.env [] [msg]).
Proof.
  eexists.
  refine (proj1 (C2_failed_resolution (H := Demo.env) optedInCluster
                   {| OrchestratorProfile.OrchestratorType := "Kubernetes";
                      OrchestratorProfile.KubernetesConfig := None |}
                   (demoState []) (demoState []) eq_refl) _ _).
  eapply FirstFailure_here. reflexivity.
Defined.

(** C2 as it is stated does not hold.  The master of [optedInCluster] has
    opted in to an extension that the server does not have (every request
    is answered with status 404), so its one target fails; still the
    caller gets the empty string, which is also what it gets for
    [plainCluster], a cluster without extensions, where nothing fails.
    The value returned carries no error. *)
Lemma C2_error_not_surfaced :
  (exists msg : string,
     FirstFailure (allTargets (H := Demo.env) optedInCluster "Kubernetes")
       (demoState []) msg (demoState []))
  /\ AllResolved (allTargets (H := Demo.env) plainCluster "Kubernetes")
       (demoState []) [] (demoState [])
  /\ fst (getLinkedTemplatesForExtensions (H := Demo.env) optedInCluster
            (demoState [])) =
     fst (getLinkedTemplatesForExtensions (H := Demo.env) plainCluster
            (demoState [])).
Proof.
  split; [|split].
  - eexists. eapply FirstFailure_here. reflexivity.
  - apply AllResolved_nil.
  - reflexivity.
Qed.

(** ** The kubeconfig (claim C7) *)

Lemma hasPair_cons (c1 c2 x : ascii) (s : string) :
  hasPair c1 c2 s = true -> hasPair c1 c2 (String x s) = true.
Proof.
  destruct s as [|y s]; [discriminate|]. intros Hs.
  change (hasPair c1 c2 (String x (String y s)))
    with ((Ascii.eqb x c1 && Ascii.eqb y c2) || hasPair c1 c2 (String y s)).
  rewrite Hs. apply orb_true_r.
Qed.

Lemma hasPair_append (c1 c2 : ascii) (a b : string) :
  hasPair c1 c2 a = false -> hasPair c1 c2 b = false ->
  startsWith c2 b = false ->
  hasPair c1 c2 (a +:+ b) = false.
Proof.
  intros Ha Hb Hstart. induction a as [|x a IH]; [exact Hb|].
  destruct a as [|y a].
  - cbn [String.append]. destruct b as [|z b]; [reflexivity|].
    cbn [hasPair startsWith] in *. rewrite Hstart, Hb.
    now rewrite andb_false_r.
  - change (hasPair c1 c2 (String x (String y a)))
      with ((Ascii.eqb x c1 && Ascii.eqb y c2) || hasPair c1 c2 (String y a)) in Ha.
    apply orb_false_iff in Ha as [Hxy Hrest].
    change (hasPair c1 c2 (String x (String y a) +:+ b))
      with ((Ascii.eqb x c1 && Ascii.eqb y c2)
            || hasPair c1 c2 (String y a +:+ b)).
    rewrite Hxy. now apply IH.
Qed.

Lemma hasByte_hasPair (c1 c2 : ascii) (s : string) :
  hasByte c2 s = false -> hasPair c1 c2 s = false.
Proof.
  induction s as [|x s IH]; [reflexivity|].
  cbn [hasByte]. intros [Hx Hs]%orb_false_iff.
  destruct s as [|y s]; [reflexivity|].
  change (hasPair c1 c2 (String x (String y s)))
    with ((Ascii.eqb x c1 && Ascii.eqb y c2) || hasPair c1 c2 (String y s)).
  rewrite (IH Hs). cbn [hasByte] in Hs. apply orb_false_iff in Hs as [Hy _].
  now rewrite Hy, andb_false_r.
Qed.

Lemma startsWith_append (c : ascii) (a b : string) :
  hasByte c a = false -> startsWith c b = false ->
  startsWith c (a +:+ b) = false.
Proof.
  destruct a as [|x a]; [auto|]. cbn [hasByte startsWith String.append].
  now intros [Hx _]%orb_false_iff _.
Qed.

Lemma get_hasByte (c : ascii) (alphabet : string) (k : nat) (x : ascii) :
  hasByte c alphabet = false -> String.get k alphabet = Some x ->
  Ascii.eqb x c = false.
Proof.
  revert k. induction alphabet as [|y alphabet IH]; intros k; [discriminate|].
  cbn [hasByte]. intros [Hy Hrest]%orb_false_iff.
  destruct k as [|k]; cbn [String.get].
  - now intros [= <-].
  - now apply IH.
Qed.

Lemma enc_not_hyphen (n : Z) : Ascii.eqb (base64.enc n) "-" = false.
Proof.
  unfold base64.enc.
  destruct (String.get (Z.to_nat n) base64.encodeStd) as [x|] eqn:E;
    [|reflexivity].
  now apply (get_hasByte "-" base64.encodeStd (Z.to_nat n)).
Qed.

(** The standard alphabet has no hyphen: neither has an encoded text. *)
Lemma EncodeToString_no_hyphen (src : string) :
  hasByte "-" (base64.EncodeToString src) = false.
Proof.
  assert (Hlen : forall (n : nat) (s : string),
            (String.length s <= n)%nat ->
            hasByte "-" (base64.EncodeToString s) = false).
  { induction n as [|n IH]; intros s Hs.
    - destruct s; [reflexivity | cbn in Hs; lia].
    - destruct s as [|a [|b [|c rest]]]; [reflexivity|..];
        cbn [base64.EncodeToString hasByte]; rewrite ?enc_not_hyphen;
        try reflexivity.
      cbn [orb]. apply IH. cbn [String.length] in Hs. lia. }
  now apply (Hlen (String.length src)).
Qed.

Lemma HasPrefix_auth_provider (s : string) :
  GoStrings.HasPrefix s "auth-provider" = true -> hasPair "h" "-" s = true.
Proof.
  destruct s as [|c0 [|c1 [|c2 [|c3 [|c4 s]]]]]; try discriminate;
    cbn [GoStrings.HasPrefix];
    rewrite ?andb_true_iff, ?Ascii.eqb_eq; try (intros; decompose [and] H; discriminate).
  intros (<- & <- & <- & <- & <- & _). reflexivity.
Qed.

Lemma Contains_auth_provider (s : string) :
  GoStrings.Contains s "auth-provider" = true -> hasPair "h" "-" s = true.
Proof.
  induction s as [|x s IH]; cbn [GoStrings.Contains].
  - rewrite orb_false_r. apply HasPrefix_auth_provider.
  - intros [Hhere|Hlater]%orb_true_iff.
    + now apply HasPrefix_auth_provider.
    + apply hasPair_cons. now apply IH.
Qed.

Lemma Contains_append_l (a b sub : string) :
  GoStrings.Contains a sub = true -> GoStrings.Contains (a +:+ b) sub = true.
Proof.
  assert (Hprefix : forall a, GoStrings.HasPrefix a sub = true ->
                              GoStrings.HasPrefix (a +:+ b) sub = true).
  { induction sub as [|c sub IHsub]; [reflexivity|].
    intros [|d a']; [discriminate|]. cbn [GoStrings.HasPrefix String.append].
    intros [Hc Hrest]%andb_true_iff. rewrite Hc. now apply IHsub. }
  induction a as [|x a IH].
  - cbn [GoStrings.Contains]. rewrite orb_false_r. intros Hp.
    apply Hprefix in Hp. cbn [String.append] in *.
    destruct b; cbn [GoStrings.Contains]; now rewrite Hp.
  - cbn [GoStrings.Contains String.append].
    intros [Hhere|Hlater]%orb_true_iff.
    + apply (Hprefix (String x a)) in Hhere. cbn [String.append] in Hhere.
      now rewrite Hhere.
    + rewrite (IH Hlater). apply orb_true_r.
Qed.

Lemma Contains_append_r (a b sub : string) :
  GoStrings.Contains b sub = true -> GoStrings.Contains (a +:+ b) sub = true.
Proof.
  intros Hb. induction a as [|x a IH]; [exact Hb|].
  cbn [GoStrings.Contains String.append]. rewrite IH. apply orb_true_r.
Qed.

(** Without an AAD profile the auth-info block has the two keys of a
    client certificate and no [auth-provider]. *)
Lemma certificateAuthInfo_keys (certificate key : string) :
  GoStrings.Contains (certificateAuthInfo certificate key)
    (dq +:+ "client-certificate-data" +:+ dq +:+ ":") = true
  /\ GoStrings.Contains (certificateAuthInfo certificate key)
       (dq +:+ "client-key-data" +:+ dq +:+ ":") = true
  /\ GoStrings.Contains (certificateAuthInfo certificate key) "auth-provider"
     = false.
Proof.
  set (lit1 := "{" +:+ dq +:+ "client-certificate-data" +:+ dq +:+ ":" +:+ dq).
  set (lit2 := dq +:+ "," +:+ dq +:+ "client-key-data" +:+ dq +:+ ":" +:+ dq).
  set (lit3 := dq +:+ "}").
  assert (Hshape : certificateAuthInfo certificate key =
            lit1 +:+ base64.EncodeToString certificate +:+ lit2 +:+
            base64.EncodeToString key +:+ lit3) by reflexivity.
  rewrite Hshape. split; [|split].
  - apply Contains_append_l. reflexivity.
  - apply Contains_append_r, Contains_append_r, Contains_append_l. reflexivity.
  - destruct (GoStrings.Contains _ "auth-provider") eqn:E; [|reflexivity].
    apply Contains_auth_provider in E.
    pose proof (EncodeToString_no_hyphen certificate) as Hc.
    pose proof (EncodeToString_no_hyphen key) as Hk.
    assert (H3 : hasPair "h" "-" (base64.EncodeToString key +:+ lit3) = false
                 /\ startsWith "-" (base64.EncodeToString key +:+ lit3) = false).
    { split; [apply hasPair_append | apply startsWith_append];
        auto using hasByte_hasPair. }
    destruct H3 as [H3p H3s].
    assert (H2 : hasPair "h" "-"
                   (lit2 +:+ base64.EncodeToString key +:+ lit3) = false)
      by (apply hasPair_append; auto).
    assert (H1 : hasPair "h" "-"
                   (base64.EncodeToString certificate +:+ lit2 +:+
                    base64.EncodeToString key +:+ lit3) = false
                 /\ startsWith "-"
                      (base64.EncodeToString certificate +:+ lit2 +:+
                       base64.EncodeToString key +:+ lit3) = false).
    { split; [apply hasPair_append | apply startsWith_append];
        auto using hasByte_hasPair. }
    destruct H1 as [H1p H1s].
    rewrite hasPair_append in E; [discriminate|auto..].
Qed.

Section KubeConfigClaim.
Context `{Env}.

Lemma authInfo_certificate (certificateProfile : CertificateProfile.t)
    (location : string) :
  authInfo certificateProfile None location =
  certificateAuthInfo
    (CertificateProfile.KubeConfigCertificate certificateProfile)
    (CertificateProfile.KubeConfigPrivateKey certificateProfile).
Proof. reflexivity. Qed.

Lemma authInfo_aad (certificateProfile : CertificateProfile.t)
    (aad : AADProfile.t) (location : string) :
  authInfo certificateProfile (Some aad) location =
  aadAuthInfo (GetCloudTargetEnv location)
    (match AADProfile.TenantID aad with
     | EmptyString => "common"
     | tenantID => tenantID
     end)
    (AADProfile.ServerAppID aad) (AADProfile.ClientAppID aad).
Proof.
  unfold authInfo. destruct (AADProfile.TenantID aad); reflexivity.
Qed.

(** C7.  With a certificate profile, a kubeconfig asset and at least one
    master, [GenerateKubeConfig] puts in the place of the address of the
    API server: for a private cluster with more than one master, the first
    static IP of the masters with the offset of the internal load balancer
    added to its last byte; for a private cluster with one master, the
    static IP of the master as it is written; and else the public DNS name
    of the region.  Without an AAD profile the auth-info block has the keys
    [client-certificate-data] and [client-key-data] and nowhere
    [auth-provider]; with one, the tenant is [common] when it is not set. *)
Theorem C7_kubeconfig_server_and_auth (properties : Properties.t)
    (certificateProfile : CertificateProfile.t) (template location : string) :
  let masterProfile := Properties.MasterProfile properties in
  let staticIP := MasterProfile.FirstConsecutiveStaticIP masterProfile in
  Properties.CertificateProfile properties = Some certificateProfile ->
  Asset kubeConfigJSON = Ok template ->
  1 <= MasterProfile.Count masterProfile ->
  (privateClusterEnabled properties = true ->
   1 < MasterProfile.Count masterProfile ->
   forall ip0 ip1 ip2 ip3 : Z,
     ParseIP_To4 staticIP = Some (ip0, ip1, ip2, ip3) ->
     GenerateKubeConfig (Some properties) location =
     Ok (kubeConfigWithServer template properties certificateProfile location
           (pretty ip0 +:+ "." +:+ pretty ip1 +:+ "." +:+ pretty ip2 +:+ "."
            +:+ pretty ((ip3 + DefaultInternalLbStaticIPOffset) mod 256))))
  /\ (privateClusterEnabled properties = true ->
      MasterProfile.Count masterProfile = 1 ->
      GenerateKubeConfig (Some properties) location =
      Ok (kubeConfigWithServer template properties certificateProfile location
            staticIP))
  /\ (privateClusterEnabled properties = false ->
      GenerateKubeConfig (Some properties) location =
      Ok (kubeConfigWithServer template properties certificateProfile location
            (FormatAzureProdFQDNByLocation
               (MasterProfile.DNSPrefix masterProfile) location)))
  /\ (Properties.AADProfile properties = None ->
      let info :=
        authInfo certificateProfile (Properties.AADProfile properties) location in
      info = certificateAuthInfo
               (CertificateProfile.KubeConfigCertificate certificateProfile)
               (CertificateProfile.KubeConfigPrivateKey certificateProfile)
      /\ GoStrings.Contains info
           (dq +:+ "client-certificate-data" +:+ dq +:+ ":") = true
      /\ GoStrings.Contains info (dq +:+ "client-key-data" +:+ dq +:+ ":") = true
      /\ GoStrings.Contains info "auth-provider" = false)
  /\ (forall aad : AADProfile.t,
        Properties.AADProfile properties = Some aad ->
        authInfo certificateProfile (Properties.AADProfile properties) location =
        aadAuthInfo (GetCloudTargetEnv location)
          (if String.eqb (AADProfile.TenantID aad) "" then "common"
           else AADProfile.TenantID aad)
          (AADProfile.ServerAppID aad) (AADProfile.ClientAppID aad)).
Proof.
  intros masterProfile staticIP Hcert Hasset Hcount.
  split; [|split; [|split; [|split]]].
  - intros Hprivate Hmany ip0 ip1 ip2 ip3 Hip.
    unfold GenerateKubeConfig. rewrite Hcert, Hasset, Hprivate.
    fold masterProfile. fold staticIP.
    replace (1 <? MasterProfile.Count masterProfile) with true
      by (symmetry; apply Z.ltb_lt; exact Hmany).
    rewrite Hip. reflexivity.
  - intros Hprivate Hone.
    unfold GenerateKubeConfig. rewrite Hcert, Hasset, Hprivate.
    fold masterProfile. rewrite Hone. reflexivity.
  - intros Hpublic.
    unfold GenerateKubeConfig. rewrite Hcert, Hasset, Hpublic. reflexivity.
  - intros Haad info. subst info. rewrite Haad, authInfo_certificate.
    split; [reflexivity | apply certificateAuthInfo_keys].
  - intros aad Haad. rewrite Haad, authInfo_aad.
    destruct (AADProfile.TenantID aad); reflexivity.
Qed.

End KubeConfigClaim.

Lemma C7_kubeconfig_server_and_auth_witness :
  GenerateKubeConfig (H := Demo.env) (Some (privateCluster 1)) "westus" =
  Ok ("server=https://10.0.0.4 ca=Y2E= name=demo user=" +:+
      certificateAuthInfo "cert" "key")
  /\ GenerateKubeConfig (H := Demo.env) (Some (privateCluster 3)) "westus" =
     Ok ("server=https://10.0.0.14 ca=Y2E= name=demo user=" +:+
         certificateAuthInfo "cert" "key").
Proof.
  split.
  - rewrite (proj1 (proj2 (C7_kubeconfig_server_and_auth (H := Demo.env)
               (privateCluster 1)
               {| CertificateProfile.CaCertificate := "ca";
                  CertificateProfile.KubeConfigCertificate := "cert";
                  CertificateProfile.KubeConfigPrivateKey := "key" |}
               Demo.kubeconfigAsset "westus" eq_refl eq_refl
               ltac:(vm_compute; discriminate))) eq_refl eq_refl).
    reflexivity.
  - rewrite (proj1 (C7_kubeconfig_server_and_auth (H := Demo.env)
               (privateCluster 3)
               {| CertificateProfile.CaCertificate := "ca";
                  CertificateProfile.KubeConfigCertificate := "cert";
                  CertificateProfile.KubeConfigPrivateKey := "key" |}
               Demo.kubeconfigAsset "westus" eq_refl eq_refl
               ltac:(vm_compute; discriminate)) eq_refl eq_refl 10 0 0 4 eq_refl).
    reflexivity.
Defined.

(** ** Base64 decodes what it encodes *)

Lemma byte_of_range (c : ascii) : 0 <= utf8.byte_of c < 256.
Proof.
  unfold utf8.byte_of. pose proof (N_ascii_bounded c). lia.
Qed.

Lemma char_of_byte_of (c : ascii) : base64.char_of (utf8.byte_of c) = c.
Proof.
  unfold base64.char_of, utf8.byte_of. rewrite N2Z.id. apply ascii_N_embedding.
Qed.

Lemma dec_enc_nat (k : nat) :
  (k < 64)%nat ->
  base64.dec (base64.enc (Z.of_nat k)) = Some (Z.of_nat k)
  /\ Ascii.eqb (base64.enc (Z.of_nat k)) base64.padChar = false.
Proof.
  intros Hk. unfold base64.enc. rewrite Nat2Z.id.
  do 64 (destruct k as [|k]; [split; reflexivity|]). lia.
Qed.

Lemma dec_enc (n : Z) :
  0 <= n < 64 ->
  base64.dec (base64.enc n) = Some n
  /\ Ascii.eqb (base64.enc n) base64.padChar = false.
Proof.
  intros Hn. rewrite <- (Z2Nat.id n) by lia. apply dec_enc_nat. lia.
Qed.

Lemma DecodeString_EncodeToString (src : string) :
  base64.DecodeString (base64.EncodeToString src) = Some src.
Proof.
  assert (Hlen : forall (n : nat) (s : string),
            (String.length s <= n)%nat ->
            base64.DecodeString (base64.EncodeToString s) = Some s).
  { induction n as [|n IH]; intros s Hs.
    - destruct s; [reflexivity | cbn in Hs; lia].
    - destruct s as [|a [|b [|c rest]]]; [reflexivity|..];
        cbn [base64.EncodeToString base64.DecodeString];
        pose proof (byte_of_range a) as Ha;
        set (x := utf8.byte_of a) in *.
      + destruct (dec_enc (x / 4)) as [-> _];
          [split; [apply Z.div_pos | apply Z.div_lt_upper_bound]; lia|].
        destruct (dec_enc (x mod 4 * 16)) as [-> _];
          [pose proof (Z.mod_pos_bound x 4); lia|].
        cbn. rewrite <- (char_of_byte_of a). fold x.
        rewrite Z.div_mul by lia. pose proof (Z.div_mod x 4).
        do 3 f_equal. lia.
      + pose proof (byte_of_range b) as Hb. set (y := utf8.byte_of b) in *.
        assert (0 <= y / 16 < 16)
          by (split; [apply Z.div_pos | apply Z.div_lt_upper_bound]; lia).
        pose proof (Z.mod_pos_bound x 4). pose proof (Z.mod_pos_bound y 16).
        destruct (dec_enc (x / 4)) as [-> _];
          [split; [apply Z.div_pos | apply Z.div_lt_upper_bound]; lia|].
        destruct (dec_enc (x mod 4 * 16 + y / 16)) as [-> _]; [lia|].
        destruct (dec_enc (y mod 16 * 4)) as [-> ->]; [lia|].
        cbn. f_equal.
        rewrite <- (char_of_byte_of a), <- (char_of_byte_of b). fold x y.
        assert (E1 : (x mod 4 * 16 + y / 16) / 16 = x mod 4)
          by (rewrite Z.div_add_l by lia; rewrite Z.div_small by lia; lia).
        assert (E2 : (x mod 4 * 16 + y / 16) mod 16 = y / 16)
          by (rewrite Z.add_comm, Z.mod_add by lia; apply Z.mod_small; lia).
        rewrite E1, E2, Z.div_mul by lia.
        pose proof (Z.div_mod x 4). pose proof (Z.div_mod y 16).
        do 2 f_equal; f_equal; lia.
      + pose proof (byte_of_range b) as Hb. set (y := utf8.byte_of b) in *.
        pose proof (byte_of_range c) as Hc. set (z := utf8.byte_of c) in *.
        assert (0 <= y / 16 < 16)
          by (split; [apply Z.div_pos | apply Z.div_lt_upper_bound]; lia).
        assert (0 <= z / 64 < 4)
          by (split; [apply Z.div_pos | apply Z.div_lt_upper_bound]; lia).
        pose proof (Z.mod_pos_bound x 4). pose proof (Z.mod_pos_bound y 16).
        pose proof (Z.mod_pos_bound z 64).
        destruct (dec_enc (x / 4)) as [-> _];
          [split; [apply Z.div_pos | apply Z.div_lt_upper_bound]; lia|].
        destruct (dec_enc (x mod 4 * 16 + y / 16)) as [-> _]; [lia|].
        destruct (dec_enc (y mod 16 * 4 + z / 64)) as [-> ->]; [lia|].
        destruct (dec_enc (z mod 64)) as [-> ->]; [lia|].
        rewrite IH by (cbn [String.length] in Hs; lia).
        f_equal.
        rewrite <- (char_of_byte_of a), <- (char_of_byte_of b),
          <- (char_of_byte_of c). fold x y z.
        assert (E1 : (x mod 4 * 16 + y / 16) / 16 = x mod 4)
          by (rewrite Z.div_add_l by lia; rewrite Z.div_small by lia; lia).
        assert (E2 : (x mod 4 * 16 + y / 16) mod 16 = y / 16)
          by (rewrite Z.add_comm, Z.mod_add by lia; apply Z.mod_small; lia).
        assert (E3 : (y mod 16 * 4 + z / 64) / 4 = y mod 16)
          by (rewrite Z.div_add_l by lia; rewrite Z.div_small by lia; lia).
        assert (E4 : (y mod 16 * 4 + z / 64) mod 4 = z / 64)
          by (rewrite Z.add_comm, Z.mod_add by lia; apply Z.mod_small; lia).
        rewrite E1, E2, E3, E4.
        pose proof (Z.div_mod x 4). pose proof (Z.div_mod y 16).
        pose proof (Z.div_mod z 64).
        f_equal; [f_equal; lia|]. f_equal; [f_equal; lia|].
        f_equal. f_equal. lia. }
  now apply (Hlen (String.length src)).
Qed.

(** ** Line endings *)

Lemma Replace_crlf (s : string) :
  GoStrings.Replace s crlf lf = normalizeLineEndings s.
Proof.
  unfold GoStrings.Replace, crlf.
  assert (Hlen : forall (n : nat) (s : string),
            (String.length s <= n)%nat ->
            GoStrings.replace_from (String CR (String LF "")) lf O s =
            normalizeLineEndings s).
  { induction n as [|n IH]; intros t Ht.
    - destruct t; [reflexivity | cbn in Ht; lia].
    - destruct t as [|c t]; [reflexivity|].
      cbn [GoStrings.replace_from normalizeLineEndings GoStrings.HasPrefix
             String.length Nat.pred].
      cbn [String.length] in Ht.
      destruct t as [|d t].
      + rewrite andb_false_r. cbn [startsWith]. rewrite andb_false_r.
        reflexivity.
      + cbn [startsWith]. rewrite andb_true_r.
        rewrite (Ascii.eqb_sym CR c), (Ascii.eqb_sym LF d).
        destruct (Ascii.eqb c CR) eqn:Ec; cbn [andb].
        * destruct (Ascii.eqb_spec d LF) as [->|Hd].
          -- cbn [GoStrings.replace_from normalizeLineEndings].
             change (Ascii.eqb LF CR) with false. cbn [andb]. unfold lf.
             cbn [String.append]. f_equal. apply IH.
             cbn [String.length] in Ht. lia.
          -- f_equal. apply IH. lia.
        * f_equal. apply IH. lia. }
  now apply (Hlen (String.length s)).
Qed.

(** ** Custom script packaging (claim C8) *)

Section CustomScriptClaim.
Context `{Env}.

(** C8.  For a decompressor that gives back what [gzip] has compressed:
    the package of an asset is a function of the bytes of the asset (two
    assets with the same bytes have the same package), and decoding its
    base64 text and decompressing the result gives the bytes of the asset
    with every carriage return that a line feed follows left out.
    [getBase64CustomScriptFromStr] itself gives back its argument as it
    is. *)
Theorem C8_custom_script_round_trip (gzip_decompress : string -> option string)
    (csFilename b : string) :
  (forall s : string, gzip_decompress (gzip_compress s) = Some s) ->
  Asset csFilename = Ok b ->
  exists packaged : string,
    getBase64CustomScript csFilename = Returns packaged
    /\ (forall other : string,
          Asset other = Ok b -> getBase64CustomScript other = Returns packaged)
    /\ match base64.DecodeString packaged with
       | Some compressed => gzip_decompress compressed
       | None => None
       end = Some (normalizeLineEndings b)
    /\ (forall str : string,
          match base64.DecodeString (getBase64CustomScriptFromStr str) with
          | Some compressed => gzip_decompress compressed
          | None => None
          end = Some str).
Proof.
  intros Hgzip Hasset.
  exists (getBase64CustomScriptFromStr (GoStrings.Replace b crlf lf)).
  assert (Hstr : forall str : string,
            match base64.DecodeString (getBase64CustomScriptFromStr str) with
            | Some compressed => gzip_decompress compressed
            | None => None
            end = Some str).
  { intros str. unfold getBase64CustomScriptFromStr.
    rewrite DecodeString_EncodeToString. apply Hgzip. }
  split; [|split; [|split]].
  - unfold getBase64CustomScript. now rewrite Hasset.
  - intros other Hother. unfold getBase64CustomScript. now rewrite Hother.
  - rewrite Hstr. f_equal. apply Replace_crlf.
  - exact Hstr.
Qed.

End CustomScriptClaim.

Lemma C8_custom_script_round_trip_witness :
  exists packaged : string,
    getBase64CustomScript (H := Demo.env) "k8s/provision.sh" = Returns packaged
    /\ match base64.DecodeString packaged with
       | Some compressed => Demo.unframe compressed
       | None => None
       end = Some ("#!/bin/bash" +:+ lf +:+ "echo provisioned" +:+ lf).
Proof.
  destruct (C8_custom_script_round_trip (H := Demo.env) Demo.unframe
              "k8s/provision.sh" Demo.scriptAsset)
    as (packaged & Hpackaged & _ & Hround & _).
  - intros s. reflexivity.
  - reflexivity.
  - exists packaged. split; [exact Hpackaged | exact Hround].
Defined.

(** ** The search finds what the pattern matches *)

Lemma string_take_drop (n : nat) (s : string) :
  s = string_take n s +:+ string_drop n s.
Proof.
  revert s. induction n as [|n IH]; intros [|c s]; cbn; try reflexivity.
  now rewrite <- IH.
Qed.

Lemma HasPrefix_true (s l : string) :
  GoStrings.HasPrefix s l = true -> s = l +:+ string_drop (String.length l) s.
Proof.
  revert s. induction l as [|c l IH]; intros s; [reflexivity|].
  destruct s as [|d s]; [discriminate|]. cbn [GoStrings.HasPrefix].
  intros [Hc Hrest]%andb_true_iff. apply Ascii.eqb_eq in Hc as ->.
  cbn [String.length string_drop String.append]. f_equal. now apply IH.
Qed.

Lemma string_drop_append (l s : string) :
  string_drop (String.length l) (l +:+ s) = s.
Proof. induction l as [|c l IH]; [destruct s; reflexivity | exact IH]. Qed.

Lemma string_take_append (l s : string) :
  string_take (String.length l) (l +:+ s) = l.
Proof.
  induction l as [|c l IH]; [destruct s; reflexivity|].
  cbn [String.length String.append string_take]. now rewrite IH.
Qed.

Lemma plus_class_sound (p : ascii -> bool)
    (k : string -> string -> option captures) (acc s : string)
    (found : captures) :
  plus_class p k acc s = Some found ->
  exists m rest : string,
    s = m +:+ rest /\ m <> "" /\ allBytes p m = true /\
    k (acc +:+ m) rest = Some found.
Proof.
  revert acc. induction s as [|c s IH]; intros acc; [discriminate|].
  cbn [plus_class]. destruct (p c) eqn:Hc; [|discriminate].
  destruct (plus_class p k (acc +:+ String c "") s) as [found'|] eqn:E.
  - intros [= <-]. destruct (IH _ E) as (m & rest & -> & Hm & Hall & Hk).
    exists (String c m), rest. repeat split.
    + discriminate.
    + cbn [allBytes]. now rewrite Hc.
    + rewrite <- Hk. now rewrite append_assoc.
  - intros Hk. exists (String c ""), s. repeat split.
    + discriminate.
    + cbn [allBytes]. now rewrite Hc.
    + exact Hk.
Qed.

Lemma plus_class_complete (p : ascii -> bool)
    (k : string -> string -> option captures) (acc m rest : string) :
  m <> "" -> allBytes p m = true -> is_Some (k (acc +:+ m) rest) ->
  is_Some (plus_class p k acc (m +:+ rest)).
Proof.
  revert acc. induction m as [|c m IH]; intros acc Hm Hall Hk; [contradiction|].
  cbn [allBytes] in Hall. apply andb_true_iff in Hall as [Hc Hall].
  cbn [String.append plus_class]. rewrite Hc.
  destruct (plus_class p k (acc +:+ String c "") (m +:+ rest)) eqn:E; [eauto|].
  destruct m as [|d m].
  - exact Hk.
  - exfalso. assert (Hsome : is_Some (plus_class p k (acc +:+ String c "")
                                        (String d m +:+ rest))).
    { apply IH; [discriminate | exact Hall |]. now rewrite append_assoc. }
    rewrite E in Hsome. destruct Hsome as [? ?]. discriminate.
Qed.

Lemma exec_sound (r : re) (bot : bool) (s : string) (caps : captures)
    (k : cont) (found : captures) :
  exec r bot s caps k = Some found ->
  exists (m rest : string) (caps' : captures),
    s = m +:+ rest /\ matches r bot m rest caps caps' /\
    k m rest caps' = Some found.
Proof.
  revert bot s caps k found.
  induction r as [l| |p|r1 IH1 r2 IH2|n r IH|r IH| |];
    intros bot s caps k found; cbn [exec matches].
  - destruct (GoStrings.HasPrefix s l) eqn:E; [|discriminate].
    intros Hk. exists l, (string_drop (String.length l) s), caps.
    split; [now apply HasPrefix_true | auto].
  - destruct (utf8.DecodeRuneInString s) as [rune width] eqn:E.
    destruct width as [|w]; [discriminate|].
    destruct (Z.eqb_spec rune 10) as [->|Hne]; [discriminate|].
    intros Hk.
    exists (string_take (S w) s), (string_drop (S w) s), caps.
    rewrite <- string_take_drop. split; [reflexivity|]. split; [|exact Hk].
    exists rune, (S w). repeat split; auto.
  - intros Hk. apply plus_class_sound in Hk as (m & rest & -> & Hm & Hall & Hk).
    exists m, rest, caps. auto.
  - intros Hk.
    apply IH1 in Hk as (m1 & s1 & caps1 & -> & H1 & Hk).
    apply IH2 in Hk as (m2 & s2 & caps2 & -> & H2 & Hk).
    exists (m1 +:+ m2), s2, caps2. rewrite append_assoc.
    split; [reflexivity|]. split; [|exact Hk].
    exists m1, m2, caps1. auto.
  - intros Hk. apply IH in Hk as (m & rest & caps1 & -> & Hr & Hk).
    exists m, rest, (<[n := m]> caps1). split; [reflexivity|].
    split; [eauto | exact Hk].
  - destruct (exec r bot s caps k) as [found'|] eqn:E.
    + intros [= <-]. apply IH in E as (m & rest & caps1 & -> & Hr & Hk).
      exists m, rest, caps1. auto.
    + intros Hk. exists "", s, caps. auto.
  - destruct bot; [|discriminate]. intros Hk. exists "", s, caps. auto.
  - destruct s; [|discriminate]. intros Hk. exists "", "", caps. auto.
Qed.

Lemma exec_complete (r : re) (bot : bool) (m rest : string)
    (caps caps' : captures) (k : cont) :
  matches r bot m rest caps caps' -> is_Some (k m rest caps') ->
  is_Some (exec r bot (m +:+ rest) caps k).
Proof.
  revert bot m rest caps caps' k.
  induction r as [l| |p|r1 IH1 r2 IH2|n r IH|r IH| |];
    intros bot m rest caps caps' k; cbn [exec matches].
  - intros [-> ->] Hk. rewrite HasPrefix_append, string_drop_append. exact Hk.
  - intros (rune & width & E & Hw & Hrune & Hm & Hrest & ->) Hk.
    rewrite E. destruct width as [|w]; [contradiction|].
    destruct (Z.eqb_spec rune 10); [contradiction|].
    now rewrite <- Hm, <- Hrest.
  - intros (Hm & Hall & ->) Hk. now apply plus_class_complete.
  - intros (m1 & m2 & caps1 & -> & H1 & H2) Hk. rewrite append_assoc.
    eapply IH1; [exact H1|]. cbv beta. eapply IH2; [exact H2 | exact Hk].
  - intros (caps1 & Hr & ->) Hk. eapply IH; [exact Hr | exact Hk].
  - intros [Hr | [-> ->]] Hk.
    + destruct (IH _ _ _ _ _ _ Hr Hk) as [found ->]. eauto.
    + cbn [String.append]. destruct (exec r bot rest caps k); [eauto | exact Hk].
  - intros (-> & -> & ->) Hk. exact Hk.
  - intros (-> & -> & ->) Hk. exact Hk.
Qed.

(** ** The pattern of secret paths *)

Lemma search_not_at_start (s : string) :
  search keyvaultSecretPathRe 4 false s = None.
Proof. induction s as [|c s IH]; [reflexivity | exact IH]. Qed.

Lemma FindStringSubmatch_keyvault (s : string) :
  FindStringSubmatch keyvaultSecretPathRe 4 s =
  exec keyvaultSecretPathRe true s (replicate 5 "")
    (fun m _ caps => Some (<[O := m]> caps)).
Proof.
  unfold FindStringSubmatch. destruct s as [|c s]; cbn [search].
  - now destruct (exec _ _ _ _ _).
  - rewrite search_not_at_start. now destruct (exec _ _ _ _ _).
Qed.

(** A match of [keyvaultSecretPathRe] is the whole text; it splits into
    the vault identifier, [/secrets/], the name of the secret and the
    optional version, and these are the submatches 1, 2, 3 and 4. *)
Lemma FindStringSubmatch_keyvault_Some (s : string) (found : list string) :
  FindStringSubmatch keyvaultSecretPathRe 4 s = Some found ->
  exists vaultID name tail version : string,
    found = [s; vaultID; name; tail; version]
    /\ s = vaultID +:+ "/secrets/" +:+ name +:+ tail
    /\ isVaultID vaultID /\ isSegment name /\ isVersionTail tail version.
Proof.
  rewrite FindStringSubmatch_keyvault. intros Hexec.
  apply exec_sound in Hexec as (m & rest & caps' & -> & Hm & [= <-]).
  unfold keyvaultSecretPathRe in Hm. cbn [matches] in Hm.
  destruct Hm as (m0 & m1 & c0 & -> & (_ & -> & ->) & Hm).
  destruct Hm as (g1 & m2 & c1 & -> & (c1' & Hg1 & ->) & Hm).
  destruct Hm as (lit & m3 & c2 & -> & (-> & ->) & Hm).
  destruct Hm as (name & m4 & c3 & -> & (c3' & (Hname & Hnamep & ->) & ->) & Hm).
  destruct Hm as (tail & m5 & c4 & -> & Htail & (-> & -> & ->)).
  destruct Hg1 as (l1 & r1 & d1 & -> & (-> & ->) & Hg1).
  destruct Hg1 as (X & r2 & d2 & -> & (HX & HXp & ->) & Hg1).
  destruct Hg1 as (l2 & r3 & d3 & -> & (-> & ->) & Hg1).
  destruct Hg1 as (Y & r4 & d4 & -> & (HY & HYp & ->) & Hg1).
  destruct Hg1 as (l3 & r5 & d5 & -> & (-> & ->) & Hg1).
  destruct Hg1 as (dot & r6 & d6 & -> & Hdot & Hg1).
  destruct Hg1 as (l4 & Z & d7 & -> & (-> & ->) & (HZ & HZp & ->)).
  destruct Hdot as (rune & width & Hdecode & Hwidth & Hrune & Htake & _ & ->).
  assert (Hvault : isVaultID
            ("/subscriptions/" +:+ X +:+ "/resourceGroups/" +:+ Y +:+
             "/providers/Microsoft" +:+ dot +:+ "KeyVault/vaults/" +:+ Z)).
  { exists X, Y, dot, Z. repeat split; auto.
    eexists _, rune, width. repeat split; eauto. }
  assert (Hversion : exists version : string,
            isVersionTail tail version /\
            c4 = <[3%nat := tail]> (<[4%nat := version]>
                   (<[2%nat := name]> (<[1%nat := "/subscriptions/" +:+ X +:+
                       "/resourceGroups/" +:+ Y +:+ "/providers/Microsoft" +:+
                       dot +:+ "KeyVault/vaults/" +:+ Z]> (replicate 5 ""))))
            \/ (tail = "" /\
                c4 = <[2%nat := name]> (<[1%nat := "/subscriptions/" +:+ X +:+
                       "/resourceGroups/" +:+ Y +:+ "/providers/Microsoft" +:+
                       dot +:+ "KeyVault/vaults/" +:+ Z]> (replicate 5 "")))).
  { destruct Htail as [(c5 & Hgroup & ->) | [-> ->]].
    - destruct Hgroup as (l5 & W & d8 & -> & (-> & ->) &
                          (d9 & (HW & HWp & ->) & ->)).
      exists W. left. split; [right; repeat split; auto | reflexivity].
    - exists "". right. auto. }
  destruct Hversion as (version & [[Hv ->] | [-> ->]]).
  - exists ("/subscriptions/" +:+ X +:+ "/resourceGroups/" +:+ Y +:+
            "/providers/Microsoft" +:+ dot +:+ "KeyVault/vaults/" +:+ Z),
      name, tail, version.
    split; [|split; [|repeat split; auto]].
    + cbn. rewrite !append_nil_r. reflexivity.
    + cbn. rewrite !append_nil_r, !append_assoc. reflexivity.
  - exists ("/subscriptions/" +:+ X +:+ "/resourceGroups/" +:+ Y +:+
            "/providers/Microsoft" +:+ dot +:+ "KeyVault/vaults/" +:+ Z),
      name, "", "".
    split; [|split; [|repeat split; auto]].
    + cbn. rewrite !append_nil_r. reflexivity.
    + cbn. rewrite !append_nil_r, !append_assoc. reflexivity.
    + left. auto.
Qed.

Lemma secretPath_matches (subscription resourceGroup vault name : string)
    (version : option string) :
  isNonBlank subscription -> isNonBlank resourceGroup -> isNonBlank vault ->
  isSegment name ->
  match version with Some v => isNonBlank v | None => True end ->
  is_Some (FindStringSubmatch keyvaultSecretPathRe 4
             (secretPath subscription resourceGroup vault name version)).
Proof.
  intros [HS HSp] [HG HGp] [HV HVp] [HN HNp] Hversion.
  rewrite FindStringSubmatch_keyvault.
  pose (tail := match version with Some v => "/" +:+ v | None => "" end).
  assert (Htail : exists caps1 caps2 : captures,
            matches (Opt (Group 3 (Lit "/" ;; Group 4 (PlusClass notSpace))%re))
              false tail "" caps1 caps2 /\
            caps1 = <[2%nat := name]>
                      (<[1%nat := vaultPath subscription resourceGroup vault]>
                         (replicate 5 ""))).
  { destruct version as [v|]; subst tail; cbn [matches].
    - destruct Hversion as [Hv Hvp]. eexists _, _. split; [|reflexivity].
      left. eexists. split; [|reflexivity].
      exists "/", v. eexists. split; [reflexivity|]. split; [auto|].
      eexists. split; [|reflexivity]. auto.
    - eexists _, _. split; [|reflexivity]. right. auto. }
  destruct Htail as (caps1 & caps2 & Htail & ->).
  rewrite <- (append_nil_r (secretPath _ _ _ _ _)).
  eapply exec_complete; [|cbv beta; eauto].
  unfold keyvaultSecretPathRe. cbn [matches].
  exists "", (secretPath subscription resourceGroup vault name version).
  eexists. split; [reflexivity|]. split; [auto|].
  exists (vaultPath subscription resourceGroup vault),
    ("/secrets/" +:+ name +:+ tail).
  eexists. split; [reflexivity|]. split.
  { eexists. split; [|reflexivity].
    exists "/subscriptions/",
      (subscription +:+ "/resourceGroups/" +:+ resourceGroup +:+
       "/providers/Microsoft.KeyVault/vaults/" +:+ vault).
    eexists. split; [reflexivity|]. split; [auto|].
    exists subscription,
      ("/resourceGroups/" +:+ resourceGroup +:+
       "/providers/Microsoft.KeyVault/vaults/" +:+ vault).
    eexists. split; [reflexivity|]. split; [auto|].
    exists "/resourceGroups/",
      (resourceGroup +:+ "/providers/Microsoft.KeyVault/vaults/" +:+ vault).
    eexists. split; [reflexivity|]. split; [auto|].
    exists resourceGroup, ("/providers/Microsoft.KeyVault/vaults/" +:+ vault).
    eexists. split; [reflexivity|]. split; [auto|].
    exists "/providers/Microsoft", ("." +:+ "KeyVault/vaults/" +:+ vault).
    eexists. split; [reflexivity|]. split; [auto|].
    exists ".", ("KeyVault/vaults/" +:+ vault).
    eexists. split; [reflexivity|]. split.
    { exists 46, 1%nat. repeat split; try reflexivity; discriminate. }
    exists "KeyVault/vaults/", vault.
    eexists. split; [reflexivity|]. split; auto. }
  exists "/secrets/", (name +:+ tail).
  eexists. split; [reflexivity|]. split; [auto|].
  exists name, tail.
  eexists. split; [reflexivity|]. split.
  { eexists. split; [|reflexivity]. auto. }
  exists tail, "".
  exists caps2. split; [now rewrite append_nil_r|]. split; [|auto].
  exact Htail.
Qed.

(** ** The parts of a path *)

Lemma splitOn_not_nil (sep : ascii) (s : string) : splitOn sep s <> [].
Proof.
  induction s as [|c s IH]; cbn [splitOn]; [discriminate|].
  destruct (Ascii.eqb c sep); [discriminate|].
  destruct (splitOn sep s); discriminate.
Qed.

Lemma splitOn_append_sep (sep : ascii) (a b : string) :
  splitOn sep (a +:+ String sep b) = (splitOn sep a ++ splitOn sep b)%list.
Proof.
  induction a as [|c a IH]; cbn [String.append splitOn].
  - now rewrite Ascii.eqb_refl.
  - rewrite IH. destruct (Ascii.eqb c sep); [reflexivity|].
    pose proof (splitOn_not_nil sep a) as Hne.
    destruct (splitOn sep a); [contradiction | reflexivity].
Qed.

Lemma splitOn_no_sep (sep : ascii) (s : string) :
  hasByte sep s = false -> splitOn sep s = [s].
Proof.
  induction s as [|c s IH]; [reflexivity|]. cbn [hasByte splitOn].
  intros [Hc Hs]%orb_false_iff. now rewrite Hc, (IH Hs).
Qed.

Lemma joinWith_splitOn (sep : ascii) (s : string) :
  joinWith sep (splitOn sep s) = s.
Proof.
  induction s as [|c s IH]; [reflexivity|]. cbn [splitOn].
  pose proof (splitOn_not_nil sep s) as Hne.
  destruct (Ascii.eqb_spec c sep) as [->|Hc].
  - destruct (splitOn sep s); [contradiction|].
    change (joinWith sep ("" :: s0 :: l))
      with ("" +:+ String sep (joinWith sep (s0 :: l))).
    now rewrite IH.
  - destruct (splitOn sep s) as [|p [|q l]]; [contradiction|..].
    + cbn [joinWith] in *. now rewrite IH.
    + change (joinWith sep (String c p :: q :: l))
        with (String c (p +:+ String sep (joinWith sep (q :: l)))).
      change (joinWith sep (p :: q :: l))
        with (p +:+ String sep (joinWith sep (q :: l))) in IH.
      now rewrite IH.
Qed.

Lemma splitOn_single (sep : ascii) (s part : string) :
  splitOn sep s = [part] -> s = part.
Proof. intros E. now rewrite <- (joinWith_splitOn sep s), E. Qed.

Lemma segment_no_slash (s : string) :
  allBytes notSlashNorSpace s = true -> hasByte "/" s = false.
Proof.
  induction s as [|c s IH]; [reflexivity|]. cbn [allBytes hasByte].
  intros [Hc Hs]%andb_true_iff. rewrite (IH Hs).
  unfold notSlashNorSpace in Hc. apply andb_true_iff in Hc as [Hc _].
  apply negb_true_iff in Hc. now rewrite Hc.
Qed.

Lemma segment_nonblank (s : string) : isSegment s -> isNonBlank s.
Proof.
  intros [Hne Hall]. split; [exact Hne|].
  induction s as [|c s IH]; [reflexivity|]. cbn [allBytes] in *.
  apply andb_true_iff in Hall as [Hc Hs].
  unfold notSlashNorSpace in Hc. apply andb_true_iff in Hc as [_ Hc].
  unfold notSpace. rewrite Hc. destruct s; [reflexivity|].
  apply IH; [discriminate | exact Hs].
Qed.

Lemma byte_not_slash (c : ascii) : utf8.byte_of c <> 47 -> Ascii.eqb c "/" = false.
Proof.
  intros Hc. destruct (Ascii.eqb_spec c "/") as [->|]; [|reflexivity].
  now contradiction Hc.
Qed.

Lemma in_range_not_slash (lo hi : Z) (c : ascii) :
  47 < lo -> utf8.in_range lo hi c = true -> Ascii.eqb c "/" = false.
Proof.
  unfold utf8.in_range. intros Hlo [H1 _]%andb_true_iff.
  apply byte_not_slash. apply Z.leb_le in H1. lia.
Qed.

(** A rune is the slash, or its bytes hold no slash. *)
Lemma rune_slash (d : string) :
  isOneRune d -> d = "/" \/ hasByte "/" d = false.
Proof.
  intros (rest & rune & width & Hdecode & Hwidth & _ & Htake).
  rewrite Htake. clear Htake. revert Hdecode.
  generalize (d +:+ rest) as s. clear d rest. intros s.
  assert (Hone : forall c t, string_take 1 (String c t) = "/" \/
                             hasByte "/" (string_take 1 (String c t)) = false).
  { intros c t. cbn [string_take hasByte].
    destruct (Ascii.eqb_spec c "/") as [->|]; [left | right]; reflexivity. }
  unfold utf8.DecodeRuneInString.
  destruct s as [|c0 t0]; [intros [= _ <-]; contradiction|].
  destruct (utf8.byte_of c0 <? 128) eqn:E0; [intros [= _ <-]; apply Hone|].
  destruct ((utf8.byte_of c0 <? 194) || (244 <? utf8.byte_of c0)) eqn:E1;
    [intros [= _ <-]; apply Hone|].
  apply Z.ltb_ge in E0.
  assert (Hc0 : Ascii.eqb c0 "/" = false) by (apply byte_not_slash; lia).
  destruct t0 as [|c1 t1]; [intros [= _ <-]; apply Hone|].
  set (lo := if utf8.byte_of c0 =? 224 then 160
             else if utf8.byte_of c0 =? 240 then 144 else 128).
  assert (Hlo : 47 < lo)
    by (subst lo; repeat destruct (_ =? _); lia).
  destruct (utf8.in_range lo _ c1) eqn:R1; cbn [negb];
    [|intros [= _ <-]; apply Hone].
  pose proof (in_range_not_slash _ _ _ Hlo R1) as Hc1.
  destruct (utf8.byte_of c0 <? 224).
  { intros [= _ <-]. right. cbn [string_take hasByte]. now rewrite Hc0, Hc1. }
  destruct t1 as [|c2 t2]; [intros [= _ <-]; apply Hone|].
  destruct (utf8.in_range 128 191 c2) eqn:R2; cbn [negb];
    [|intros [= _ <-]; apply Hone].
  pose proof (in_range_not_slash 128 191 c2 ltac:(lia) R2) as Hc2.
  destruct (utf8.byte_of c0 <? 240).
  { intros [= _ <-]. right. cbn [string_take hasByte].
    now rewrite Hc0, Hc1, Hc2. }
  destruct t2 as [|c3 t3]; [intros [= _ <-]; apply Hone|].
  destruct (utf8.in_range 128 191 c3) eqn:R3; cbn [negb];
    [|intros [= _ <-]; apply Hone].
  pose proof (in_range_not_slash 128 191 c3 ltac:(lia) R3) as Hc3.
  intros [= _ <-]. right. cbn [string_take hasByte].
  now rewrite Hc0, Hc1, Hc2, Hc3.
Qed.

Lemma splitOn_joinWith (sep : ascii) (parts : list string) :
  parts <> [] ->
  splitOn sep (joinWith sep parts) = concat (map (splitOn sep) parts).
Proof.
  induction parts as [|p [|q l] IH]; intros Hne; [contradiction|..].
  - cbn. now rewrite app_nil_r.
  - change (joinWith sep (p :: q :: l))
      with (p +:+ String sep (joinWith sep (q :: l))).
    rewrite splitOn_append_sep, IH by discriminate. reflexivity.
Qed.

Lemma cons_eq_split {A : Type} (x y : A) (l r : list A) :
  x :: l = y :: r -> x = y /\ l = r.
Proof. intros [= -> ->]. auto. Qed.

Ltac list_eq_step :=
  match goal with
  | H : ?x :: ?l = ?y :: ?r |- _ =>
      let H1 := fresh "Hhd" in
      apply cons_eq_split in H; destruct H as [H1 H];
      first [ is_var x; subst x | is_var y; subst y
            | discriminate H1 | clear H1 ]
  | H : [] = _ :: _ |- _ => discriminate H
  | H : _ :: _ = [] |- _ => discriminate H
  | H : _ :: _ = (?l ++ _)%list |- _ =>
      is_var l; destruct l; cbn [app] in H
  | H : [] = (?l ++ _)%list |- _ =>
      is_var l; destruct l; cbn [app] in H
  end.

Lemma path_parts_unique (S G V NAME N : string)
    (last xs ys ds zs ws : list string) :
  xs <> [] -> ys <> [] -> zs <> [] ->
  (ds = ["Microsoft"; "KeyVault"] \/ exists mk : string, ds = [mk]) ->
  (last = [] \/ (exists v : string, last = [v]) /\ NAME <> "secrets") ->
  ([""; "subscriptions"; S; "resourceGroups"; G; "providers";
    "Microsoft.KeyVault"; "vaults"; V; "secrets"; NAME] ++ last)%list =
  ("" :: "subscriptions" :: xs ++ "resourceGroups" :: ys ++ "providers" ::
   ds ++ "vaults" :: zs ++ "secrets" :: N :: ws)%list ->
  xs = [S] /\ ys = [G] /\ ds = ["Microsoft.KeyVault"] /\ zs = [V] /\
  N = NAME /\ ws = last.
Proof.
  intros Hx Hy Hz Hds Hlast E.
  destruct Hds as [-> | [mk ->]];
    (destruct Hlast as [-> | [[v ->] Hname]]); cbn [app] in E.
  all: repeat list_eq_step.
  all: try congruence.
  all: subst; auto 10.
Qed.

Lemma hasByte_append (c : ascii) (a b : string) :
  hasByte c (a +:+ b) = hasByte c a || hasByte c b.
Proof.
  induction a as [|x a IH]; [reflexivity|].
  cbn [String.append hasByte]. now rewrite IH, orb_assoc.
Qed.

Lemma length_append (a b : string) :
  String.length (a +:+ b) = (String.length a + String.length b)%nat.
Proof. induction a as [|x a IH]; [reflexivity|]. cbn. now rewrite IH. Qed.

Lemma append_cancel_r (a b t : string) : a +:+ t = b +:+ t -> a = b.
Proof.
  revert b. induction a as [|x a IH]; intros [|y b] E.
  - reflexivity.
  - apply (f_equal String.length) in E. cbn [String.append String.length] in E.
    rewrite length_append in E. lia.
  - apply (f_equal String.length) in E. cbn [String.append String.length] in E.
    rewrite length_append in E. lia.
  - cbn [String.append] in E. injection E as -> E. f_equal. now apply IH.
Qed.

Lemma secretPath_parse_unique (S G V NAME : string) (version : option string)
    (X Y dot Z N tail W : string) :
  isSegment S -> isSegment G -> isSegment V -> isSegment NAME ->
  match version with
  | Some v => isSegment v /\ NAME <> "secrets"
  | None => True
  end ->
  isOneRune dot -> isSegment N -> isVersionTail tail W ->
  secretPath S G V NAME version =
  ("/subscriptions/" +:+ X +:+ "/resourceGroups/" +:+ Y +:+
   "/providers/Microsoft" +:+ dot +:+ "KeyVault/vaults/" +:+ Z) +:+
  "/secrets/" +:+ N +:+ tail ->
  X = S /\ Y = G /\ dot = "." /\ Z = V /\ N = NAME /\
  tail = match version with Some v => "/" +:+ v | None => "" end /\
  W = match version with Some v => v | None => "" end.
Proof.
  intros [_ HS%segment_no_slash] [_ HG%segment_no_slash]
    [_ HV%segment_no_slash] [_ HNAME%segment_no_slash] Hversion Hdot
    [_ HN%segment_no_slash] Htail Hpath.
  set (last := match version with Some v => [v] | None => [] end).
  assert (Hleft : secretPath S G V NAME version =
            joinWith "/"
              ([""; "subscriptions"; S; "resourceGroups"; G; "providers";
                "Microsoft.KeyVault"; "vaults"; V; "secrets"; NAME] ++ last)).
  { unfold secretPath, vaultPath. subst last. destruct version as [v|];
      rewrite ?append_nil_r, !append_assoc; reflexivity. }
  set (MK := "Microsoft" +:+ dot +:+ "KeyVault") in *.
  set (tailParts := match tail with EmptyString => [] | _ => [W] end).
  assert (Hright :
    ("/subscriptions/" +:+ X +:+ "/resourceGroups/" +:+ Y +:+
     "/providers/Microsoft" +:+ dot +:+ "KeyVault/vaults/" +:+ Z) +:+
    "/secrets/" +:+ N +:+ tail =
    joinWith "/"
      ([""; "subscriptions"; X; "resourceGroups"; Y; "providers"; MK;
        "vaults"; Z; "secrets"; N] ++ tailParts)).
  { subst MK tailParts.
    destruct Htail as [[-> ->] | [-> _]]; cbn [app joinWith];
      rewrite ?append_nil_r, !append_assoc; reflexivity. }
  rewrite Hleft, Hright in Hpath.
  apply (f_equal (splitOn "/")) in Hpath.
  rewrite !splitOn_joinWith in Hpath by discriminate.
  rewrite !map_app, !concat_app in Hpath. cbn [map concat] in Hpath.
  rewrite (splitOn_no_sep "/" S), (splitOn_no_sep "/" G),
    (splitOn_no_sep "/" V), (splitOn_no_sep "/" NAME),
    (splitOn_no_sep "/" N) in Hpath by assumption.
  replace (splitOn "/" "") with [""] in Hpath by reflexivity.
  replace (splitOn "/" "subscriptions") with ["subscriptions"] in Hpath
    by reflexivity.
  replace (splitOn "/" "resourceGroups") with ["resourceGroups"] in Hpath
    by reflexivity.
  replace (splitOn "/" "providers") with ["providers"] in Hpath by reflexivity.
  replace (splitOn "/" "Microsoft.KeyVault") with ["Microsoft.KeyVault"]
    in Hpath by reflexivity.
  replace (splitOn "/" "vaults") with ["vaults"] in Hpath by reflexivity.
  replace (splitOn "/" "secrets") with ["secrets"] in Hpath by reflexivity.
  rewrite <- !app_assoc in Hpath. cbn [app] in Hpath.
  assert (Hds : splitOn "/" MK = ["Microsoft"; "KeyVault"] \/
                exists mk : string, splitOn "/" MK = [mk]).
  { destruct (rune_slash dot Hdot) as [-> | Hd]; [left; reflexivity|].
    right. exists MK. apply splitOn_no_sep. subst MK.
    rewrite !hasByte_append, Hd. reflexivity. }
  assert (Hlast : concat (map (splitOn "/") last) = last /\
                  (last = [] \/ (exists v : string, last = [v]) /\
                   NAME <> "secrets")).
  { subst last. destruct version as [v|]; [|split; [reflexivity | left; reflexivity]].
    destruct Hversion as [[_ Hv%segment_no_slash] Hname].
    cbn [map concat]. rewrite (splitOn_no_sep "/" v Hv). split; [reflexivity|].
    right. eauto. }
  destruct Hlast as [Hlast_eq Hlast]. rewrite Hlast_eq in Hpath.
  apply path_parts_unique in Hpath;
    [|apply splitOn_not_nil|apply splitOn_not_nil|apply splitOn_not_nil
     |exact Hds|exact Hlast].
  destruct Hpath as (HX & HY & HMK & HZ & -> & Hws).
  apply splitOn_single in HX, HY, HMK, HZ. subst X Y Z.
  assert (Hdot' : dot = ".").
  { subst MK. cbn [String.append] in HMK.
    injection HMK as HMK. now apply (append_cancel_r dot "." "KeyVault"). }
  assert (Hversion' :
            tail = match version with Some v => "/" +:+ v | None => "" end /\
            W = match version with Some v => v | None => "" end).
  { subst last tailParts.
    destruct Htail as [[-> ->] | [-> [HW _]]]; destruct version as [v|];
      cbn [String.append map concat] in Hws; rewrite ?app_nil_r in Hws.
    - discriminate.
    - auto.
    - apply splitOn_single in Hws. now subst.
    - now apply splitOn_not_nil in Hws. }
  destruct Hversion' as [Ht HW']. repeat split; try reflexivity; assumption.
Qed.

(** The submatches of a secret path whose segments hold no slash: the
    vault, the name and the version are the ones the path was built
    from, unless the secret is called [secrets] and has a version. *)
Lemma FindStringSubmatch_secretPath (S G V NAME : string)
    (version : option string) :
  isSegment S -> isSegment G -> isSegment V -> isSegment NAME ->
  match version with
  | Some v => isSegment v /\ NAME <> "secrets"
  | None => True
  end ->
  FindStringSubmatch keyvaultSecretPathRe 4 (secretPath S G V NAME version) =
  Some [secretPath S G V NAME version; vaultPath S G V; NAME;
        match version with Some v => "/" +:+ v | None => "" end;
        match version with Some v => v | None => "" end].
Proof.
  intros HS HG HV HNAME Hversion.
  assert (Hv : match version with Some v => isNonBlank v | None => True end).
  { destruct version as [v|]; [|exact I]. now apply segment_nonblank. }
  destruct (secretPath_matches S G V NAME version
              (segment_nonblank _ HS) (segment_nonblank _ HG)
              (segment_nonblank _ HV) HNAME Hv) as [found Hfound].
  rewrite Hfound. f_equal.
  destruct (FindStringSubmatch_keyvault_Some _ _ Hfound)
    as (vaultID & name & tail & W & -> & Hpath & Hvault & Hname & Htail).
  destruct Hvault as (X & Y & dot & Z & -> & _ & _ & Hdot & _).
  destruct (secretPath_parse_unique S G V NAME version X Y dot Z name tail W)
    as (-> & -> & -> & -> & -> & -> & ->); auto.
Qed.

(** ** [addSecret] (claim C3) *)

(** X19.  For every string: when [keyvaultSecretPathRe] matches
    it, the entry is a reference whose vault identifier, secret name and
    version are the submatches 1, 2 and 4; the string is the vault
    identifier, [/secrets/], the name and, if there is one, a slash and
    the version, so the vault identifier is what stands before that
    [/secrets/].  For segments S, G, V, NAME and VERSION without slash or
    white space these are [/subscriptions/S/.../vaults/V], NAME and
    VERSION, provided that NAME is not [secrets] when there is a VERSION.
    When the pattern does not match, the entry is a value: the base64
    text of the string with [encode], the string itself without.  A value
    that is no string is stored as it is. *)
Theorem addSecret_submatches (m : paramsMap) (k str : string) (encode : bool) :
  (forall found : list string,
     FindStringSubmatch keyvaultSecretPathRe 4 str = Some found ->
     exists vaultID name tail version : string,
       found = [str; vaultID; name; tail; version]
       /\ str = vaultID +:+ "/secrets/" +:+ name +:+ tail
       /\ isVaultID vaultID /\ isSegment name /\ isVersionTail tail version
       /\ addSecret m k (VString str) encode =
          <[k := referenceEntry vaultID name version]> m)
  /\ (FindStringSubmatch keyvaultSecretPathRe 4 str = None ->
      addSecret m k (VString str) encode =
      <[k := valueEntry
               (VString (if encode then base64.EncodeToString str else str))]> m)
  /\ (forall (S G V NAME : string) (version : option string),
        isSegment S -> isSegment G -> isSegment V -> isSegment NAME ->
        match version with
        | Some v => isSegment v /\ NAME <> "secrets"
        | None => True
        end ->
        str = secretPath S G V NAME version ->
        addSecret m k (VString str) encode =
        <[k := referenceEntry (vaultPath S G V) NAME
                 (match version with Some v => v | None => "" end)]> m)
  /\ (forall v : value,
        (forall s : string, v <> VString s) ->
        addSecret m k v encode = <[k := valueEntry v]> m).
Proof.
  split; [|split; [|split]].
  - intros found Hfound.
    destruct (FindStringSubmatch_keyvault_Some _ _ Hfound)
      as (vaultID & name & tail & version & -> & Hstr & Hv & Hn & Ht).
    exists vaultID, name, tail, version.
    split; [reflexivity|]. split; [exact Hstr|]. split; [exact Hv|].
    split; [exact Hn|]. split; [exact Ht|].
    unfold addSecret. rewrite Hfound. reflexivity.
  - intros Hnone. unfold addSecret. rewrite Hnone.
    destruct encode; reflexivity.
  - intros S G V NAME version HS HG HV HNAME Hversion ->.
    unfold addSecret.
    rewrite (FindStringSubmatch_secretPath S G V NAME version) by assumption.
    reflexivity.
  - intros v Hv. destruct v; try reflexivity. now contradiction (Hv s).
Qed.

(** C3, at an input where the code and the claim part.  The path of the
    secret [secrets] with the version [VER] in the vault [V] is read as
    the secret [VER], without version, in a vault [V/secrets]: the
    repetition for the vault is greedy and reaches over the first
    [/secrets], while the group of the name stops at a slash. *)
Lemma C3_secret_named_secrets :
  FindStringSubmatch keyvaultSecretPathRe 4
    (secretPath "S" "G" "V" "secrets" (Some "VER")) =
    Some [secretPath "S" "G" "V" "secrets" (Some "VER");
          vaultPath "S" "G" "V" +:+ "/secrets"; "VER"; ""; ""]
  /\ addSecret ∅ "k" (VString (secretPath "S" "G" "V" "secrets" (Some "VER")))
       false =
     addKeyvaultReference ∅ "k" (vaultPath "S" "G" "V" +:+ "/secrets") "VER" ""
  /\ addSecret ∅ "k" (VString (secretPath "S" "G" "V" "secrets" (Some "VER")))
       false <>
     addKeyvaultReference ∅ "k" (vaultPath "S" "G" "V") "secrets" "VER".
Proof.
  assert (Hfound :
    FindStringSubmatch keyvaultSecretPathRe 4
      (secretPath "S" "G" "V" "secrets" (Some "VER")) =
    Some [secretPath "S" "G" "V" "secrets" (Some "VER");
          vaultPath "S" "G" "V" +:+ "/secrets"; "VER"; ""; ""])
    by (vm_compute; reflexivity).
  assert (Hadd :
    addSecret ∅ "k" (VString (secretPath "S" "G" "V" "secrets" (Some "VER")))
      false =
    addKeyvaultReference ∅ "k" (vaultPath "S" "G" "V" +:+ "/secrets") "VER" "")
    by (unfold addSecret; rewrite Hfound; reflexivity).
  split; [exact Hfound|]. split; [exact Hadd|].
  rewrite Hadd. intros E. apply (f_equal (lookup "k")) in E.
  unfold addKeyvaultReference in E. rewrite !lookup_insert_eq in E.
  apply (f_equal (fun entry =>
           match entry with
           | Some (VParams fields) => fields !! "reference"
           | _ => None
           end)) in E.
  cbv beta iota in E. rewrite !lookup_singleton_eq in E.
  apply (f_equal (fun field =>
           match field with
           | Some (VKeyVaultRef r) => KeyVaultRef.SecretName r
           | _ => ""
           end)) in E.
  discriminate E.
Qed.

(** * Further properties of the engine *)

(** ** Parameter maps: what a write leaves alone *)

Lemma runWrite_insert (m : paramsMap) (w : paramsWrite) :
  exists entry : value,
    forall m' : paramsMap, runWrite m' w = <[writeKey w := entry]> m'.
Proof.
  destruct w as [k v|k a b c|k v encode]; cbn [runWrite writeKey].
  - eexists. intros m'. reflexivity.
  - eexists. intros m'. reflexivity.
  - unfold addSecret. destruct v; try (eexists; intros m'; reflexivity).
    destruct (FindStringSubmatch keyvaultSecretPathRe 4 s)
      as [[|p0 [|p1 [|p2 [|p3 [|p4 [|p5 ps]]]]]]|];
      destruct encode; eexists; intros m'; reflexivity.
Qed.

(** X2.  A write changes the entry of its key and no other entry; the entry it
    leaves does not depend on what the map held before; so after a
    sequence of writes a key that no write names has the entry it had,
    and a key holds what the last write to it has put there. *)
Theorem paramsMap_writes_frame (m : paramsMap) (ws : list paramsWrite)
    (w : paramsWrite) (k : string) :
  (k <> writeKey w -> runWrite m w !! k = m !! k)
  /\ (forall m' : paramsMap,
        runWrite m w !! writeKey w = runWrite m' w !! writeKey w)
  /\ (~ In k (map writeKey ws) -> runWrites m ws !! k = m !! k)
  /\ (~ In (writeKey w) (map writeKey ws) ->
      runWrites m (w :: ws) !! writeKey w = runWrite ∅ w !! writeKey w).
Proof.
  assert (Hframe : forall (m0 : paramsMap) (w0 : paramsWrite) (k0 : string),
            k0 <> writeKey w0 -> runWrite m0 w0 !! k0 = m0 !! k0).
  { intros m0 w0 k0 Hk. destruct (runWrite_insert m0 w0) as [entry Hentry].
    rewrite Hentry. now apply lookup_insert_ne. }
  assert (Hseq : forall (ws0 : list paramsWrite) (m0 : paramsMap) (k0 : string),
            ~ In k0 (map writeKey ws0) -> runWrites m0 ws0 !! k0 = m0 !! k0).
  { induction ws0 as [|w0 ws0 IH]; intros m0 k0 Hk; [reflexivity|].
    cbn [map In] in Hk. unfold runWrites. cbn [fold_left].
    fold (runWrites (runWrite m0 w0) ws0).
    rewrite IH by tauto. apply Hframe. intros ->. tauto. }
  assert (Hsame : forall m1 m2 : paramsMap,
            runWrite m1 w !! writeKey w = runWrite m2 w !! writeKey w).
  { intros m1 m2. destruct (runWrite_insert m1 w) as [entry Hentry].
    now rewrite (Hentry m1), (Hentry m2), !lookup_insert_eq. }
  split; [apply Hframe|]. split; [apply Hsame|]. split; [apply Hseq|].
  intros Hk. unfold runWrites. cbn [fold_left].
  fold (runWrites (runWrite m w) ws). rewrite Hseq by exact Hk. apply Hsame.
Qed.

(** ** [addSecret]: the encoded value decodes to the secret *)

(** X3.  A string that is no secret path, stored with [encode]: the entry is a
    value, a string whose base64 decoding is the string given. *)
Theorem addSecret_encoded_round_trip (m : paramsMap) (k str : string) :
  FindStringSubmatch keyvaultSecretPathRe 4 str = None ->
  exists encoded : string,
    addSecret m k (VString str) true !! k = Some (valueEntry (VString encoded))
    /\ base64.DecodeString encoded = Some str
    /\ addSecret m k (VString str) false !! k = Some (valueEntry (VString str)).
Proof.
  intros Hnone. exists (base64.EncodeToString str).
  unfold addSecret. rewrite Hnone. unfold addValue.
  rewrite !lookup_insert_eq. repeat split.
  apply DecodeString_EncodeToString.
Qed.

Lemma addSecret_encoded_round_trip_witness :
  exists encoded : string,
    addSecret ∅ "clientSecret" (VString "p@ss w0rd") true !! "clientSecret" =
      Some (valueEntry (VString encoded))
    /\ base64.DecodeString encoded = Some "p@ss w0rd".
Proof.
  destruct (addSecret_encoded_round_trip ∅ "clientSecret" "p@ss w0rd")
    as (encoded & Hentry & Hdecode & _).
  - vm_compute. reflexivity.
  - exists encoded. split; [exact Hentry | exact Hdecode].
Defined.

(** ** [GenerateKubeConfig]: when it fails *)

Section KubeConfigErrors.
Context `{Env}.

(** X4.  [GenerateKubeConfig] returns an error in four cases and no other: no
    properties, no certificate profile, a template asset that cannot be
    read, and, for a private cluster of more than one master, a first
    static IP that is no IPv4 address.  The address of a private cluster
    of one master is not parsed: it cannot make the call fail. *)
Theorem GenerateKubeConfig_errors (properties : option Properties.t)
    (location : string) :
  ((exists msg : string, GenerateKubeConfig properties location = Err msg) <->
   properties = None \/
   exists p : Properties.t,
     properties = Some p /\
     (Properties.CertificateProfile p = None
      \/ (exists err : string, Asset kubeConfigJSON = Err err)
      \/ (Properties.CertificateProfile p <> None
          /\ (exists b : string, Asset kubeConfigJSON = Ok b)
          /\ privateClusterEnabled p = true
          /\ 1 < MasterProfile.Count (Properties.MasterProfile p)
          /\ ParseIP_To4
               (MasterProfile.FirstConsecutiveStaticIP
                  (Properties.MasterProfile p)) = None)))
  /\ (forall (p : Properties.t) (certificateProfile : CertificateProfile.t)
        (b : string),
        properties = Some p ->
        Properties.CertificateProfile p = Some certificateProfile ->
        Asset kubeConfigJSON = Ok b ->
        MasterProfile.Count (Properties.MasterProfile p) <= 1 ->
        exists kubeconfig : string,
          GenerateKubeConfig properties location = Ok kubeconfig).
Proof.
  split.
  - destruct properties as [p|]; cbn [GenerateKubeConfig].
    2:{ split; [intros _; now left | intros _; eauto]. }
    destruct (Properties.CertificateProfile p) as [cert|] eqn:Ecert.
    2:{ split; [intros _; right; exists p; auto | intros _; eauto]. }
    destruct (Asset kubeConfigJSON) as [b|err] eqn:Easset.
    2:{ split; [intros _; right; exists p; eauto | intros _; eauto]. }
    cbv beta zeta.
    destruct (privateClusterEnabled p) eqn:Epriv.
    2:{ split; [intros [msg Hmsg]; discriminate|].
        intros [E|(p' & [= <-] & [E|[[err E]|(_ & _ & E & _)]])]; congruence. }
    destruct (Z.ltb_spec 1 (MasterProfile.Count (Properties.MasterProfile p)))
      as [Hcount|Hcount].
    2:{ split; [intros [msg Hmsg]; discriminate|].
        intros [E|(p' & [= <-] & [E|[[err E]|(_ & _ & _ & E & _)]])];
          try congruence. lia. }
    destruct (ParseIP_To4 _) as [[[[ip0 ip1] ip2] ip3]|] eqn:Eip.
    + split; [intros [msg Hmsg]; discriminate|].
      intros [E|(p' & [= <-] & [E|[[err E]|(_ & _ & _ & _ & E)]])]; congruence.
    + split; [|intros _; eauto].
      intros _. right. exists p. split; [reflexivity|]. right. right.
      split; [congruence|]. split; [eauto|]. auto.
  - intros p cert b -> Ecert Easset Hcount. cbn [GenerateKubeConfig].
    rewrite Ecert, Easset. cbv beta zeta.
    destruct (privateClusterEnabled p); [|eauto].
    destruct (Z.ltb_spec 1 (MasterProfile.Count (Properties.MasterProfile p)));
      [lia | eauto].
Qed.

End KubeConfigErrors.

(** ** Extension script commands: when they panic *)

Section ScriptCommandsPanic.
Context `{Env}.

(** X5.  Both command builders panic exactly when no extension profile has the
    name of the extension, letter case put aside.  Otherwise the commands
    are those of the first such profile, whatever profiles come after it,
    and they do not depend on [copyIndex]. *)
Theorem extensionScriptCommands_panic (extension : Extension.t)
    (extensionProfiles : list ExtensionProfile.t) (copyIndex : string) :
  let unnamed :=
    Forall (fun eP => EqualFold (ExtensionProfile.Name eP)
                        (Extension.Name extension) = false) in
  ((exists msg : string,
      makeExtensionScriptCommands extension extensionProfiles copyIndex =
      Panics msg) <-> unnamed extensionProfiles)
  /\ ((exists msg : string,
         makeWindowsExtensionScriptCommands extension extensionProfiles copyIndex =
         Panics msg) <-> unnamed extensionProfiles)
  /\ (forall (before after : list ExtensionProfile.t) (eP : ExtensionProfile.t)
        (otherIndex : string),
        extensionProfiles = (before ++ eP :: after)%list ->
        unnamed before ->
        EqualFold (ExtensionProfile.Name eP) (Extension.Name extension) = true ->
        makeExtensionScriptCommands extension extensionProfiles copyIndex =
          makeExtensionScriptCommands extension [eP] otherIndex
        /\ makeWindowsExtensionScriptCommands extension extensionProfiles copyIndex =
           makeWindowsExtensionScriptCommands extension [eP] otherIndex).
Proof.
  intros unnamed. unfold unnamed.
  split; [|split].
  - rewrite <- lookupExtensionProfile_None. unfold makeExtensionScriptCommands.
    destruct (lookupExtensionProfile extension extensionProfiles).
    + split; [intros [msg Hmsg]; discriminate | discriminate].
    + split; [reflexivity | eauto].
  - rewrite <- lookupExtensionProfile_None.
    unfold makeWindowsExtensionScriptCommands.
    destruct (lookupExtensionProfile extension extensionProfiles).
    + split; [intros [msg Hmsg]; discriminate | discriminate].
    + split; [reflexivity | eauto].
  - intros before after eP otherIndex -> Hbefore Hfold.
    unfold makeExtensionScriptCommands, makeWindowsExtensionScriptCommands.
    rewrite (lookupExtensionProfile_first extension before after eP Hbefore Hfold).
    cbn [lookupExtensionProfile]. rewrite Hfold. split; reflexivity.
Qed.

End ScriptCommandsPanic.

(** ** [validateProfileOptedForExtension]: the first entry counts *)

(** X6.  A name that the extensions of a profile do not hold: not opted in,
    and an empty [singleOrAll].  A name they hold: opted in, with the
    [singleOrAll] of the first extension of that name; a later one of the
    same name is never read. *)
Theorem validateProfileOptedForExtension_first (extensionName : string)
    (profileExtensions : list Extension.t) :
  (~ In extensionName (map Extension.Name profileExtensions) ->
   validateProfileOptedForExtension extensionName profileExtensions =
   (false, ""))
  /\ (forall (before after : list Extension.t) (extension : Extension.t),
        profileExtensions = (before ++ extension :: after)%list ->
        Extension.Name extension = extensionName ->
        ~ In extensionName (map Extension.Name before) ->
        validateProfileOptedForExtension extensionName profileExtensions =
        (true, Extension.SingleOrAll extension)).
Proof.
  assert (Hnone : forall exts : list Extension.t,
            ~ In extensionName (map Extension.Name exts) ->
            validateProfileOptedForExtension extensionName exts = (false, "")).
  { induction exts as [|e rest IH]; intros Hnot; [reflexivity|].
    cbn [validateProfileOptedForExtension]. cbn [map In] in Hnot.
    destruct (String.eqb_spec extensionName (Extension.Name e)) as [->|Hne];
      [tauto | apply IH; tauto]. }
  split; [apply Hnone|].
  intros before after extension -> Hname Hnot.
  induction before as [|e before IH]; cbn [app validateProfileOptedForExtension].
  - rewrite Hname, String.eqb_refl. reflexivity.
  - cbn [map In] in Hnot.
    destruct (String.eqb_spec extensionName (Extension.Name e)) as [->|Hne];
      [tauto | apply IH; tauto].
Qed.

(** ** Subnets, load balancer rules and probes *)

Lemma getLBRule_text (name : string) (port : Z) :
  getLBRule name port =
  lbRule_head name port +:+ probeReference name port +:+ lbRule_tail.
Proof.
  unfold getLBRule, lbRule_head, probeReference, probeName.
  cbn [Sprintf lbRuleFormat Ascii.eqb Bool.eqb orb andb fmt_operand].
  rewrite ?append_assoc. reflexivity.
Qed.

Lemma getProbe_text (port : Z) :
  getProbe port = probe_head +:+ probeNameField port +:+ probe_tail port.
Proof.
  unfold getProbe, probe_tail, probeNameField, probeName.
  cbn [Sprintf probeFormat Ascii.eqb Bool.eqb orb andb fmt_operand].
  rewrite ?append_assoc. reflexivity.
Qed.

Lemma getLBRules_loop_spec (name : string) (ports : list Z) (k : nat)
    (buf : string) :
  getLBRules_loop name (Z.of_nat k) ports buf =
  buf +:+ fragments_from (fun _ port => getLBRule name port) k ports.
Proof.
  revert k buf. induction ports as [|port rest IH]; intros k buf.
  - simpl. now rewrite append_nil_r.
  - cbn [getLBRules_loop fragments_from].
    replace (Z.of_nat k + 1) with (Z.of_nat (S k)) by lia.
    rewrite IH. destruct k as [|k].
    + change (0 <? Z.of_nat 0) with false. cbv iota.
      now rewrite !append_assoc.
    + replace (0 <? Z.of_nat (S k)) with true by (symmetry; apply Z.ltb_lt; lia).
      unfold fragmentSeparator. now rewrite !append_assoc.
Qed.

Lemma getProbes_loop_spec (ports : list Z) (k : nat) (buf : string) :
  getProbes_loop (Z.of_nat k) ports buf =
  buf +:+ fragments_from (fun _ port => getProbe port) k ports.
Proof.
  revert k buf. induction ports as [|port rest IH]; intros k buf.
  - simpl. now rewrite append_nil_r.
  - cbn [getProbes_loop fragments_from].
    replace (Z.of_nat k + 1) with (Z.of_nat (S k)) by lia.
    rewrite IH. destruct k as [|k].
    + change (0 <? Z.of_nat 0) with false. cbv iota.
      now rewrite !append_assoc.
    + replace (0 <? Z.of_nat (S k)) with true by (symmetry; apply Z.ltb_lt; lia).
      unfold fragmentSeparator. now rewrite !append_assoc.
Qed.

Lemma fragments_from_part {A : Type} (f : nat -> A -> string) (xs : list A)
    (i : nat) (x : A) (head part tail : string) :
  xs !! i = Some x ->
  f i x = head +:+ part +:+ tail ->
  exists before after : string,
    fragments_from f O xs = before +:+ part +:+ after.
Proof.
  intros Hi Hf.
  destruct (fragments_from_lookup f xs O i x Hi) as (b & a & E).
  cbn [Nat.add] in E. rewrite Hf in E.
  exists (b +:+ (match i with O => "" | S _ => fragmentSeparator end) +:+ head),
    (tail +:+ a).
  rewrite E. now rewrite !append_assoc.
Qed.

(** X7.  [getLBRules] writes one rule per port and [getProbes] one probe per
    port, in the order of the list, a comma and a line feed between two
    of them and none at either end.  For every port of the list the rules
    hold a reference to the probe [tcp<port>Probe] of the load balancer
    and the probes hold a probe of that name: over the same ports, no rule
    names a probe that is not there. *)
Theorem lbRules_name_their_probes (name : string) (ports : list Z) :
  getLBRules name ports = fragments_from (fun _ port => getLBRule name port) O ports
  /\ getProbes ports = fragments_from (fun _ port => getProbe port) O ports
  /\ (forall (i : nat) (port : Z), ports !! i = Some port ->
        (exists before after : string,
           getLBRules name ports =
           before +:+ probeReference name port +:+ after)
        /\ (exists before after : string,
              getProbes ports = before +:+ probeNameField port +:+ after)).
Proof.
  assert (Hrules : getLBRules name ports =
            fragments_from (fun _ port => getLBRule name port) O ports).
  { unfold getLBRules. change 0 with (Z.of_nat O).
    now rewrite (getLBRules_loop_spec name ports O ""). }
  assert (Hprobes : getProbes ports =
            fragments_from (fun _ port => getProbe port) O ports).
  { unfold getProbes. change 0 with (Z.of_nat O).
    now rewrite (getProbes_loop_spec ports O ""). }
  split; [exact Hrules|]. split; [exact Hprobes|].
  intros i port Hi. rewrite Hrules, Hprobes. split.
  - exact (fragments_from_part _ ports i port _ _ _ Hi (getLBRule_text name port)).
  - exact (fragments_from_part _ ports i port _ _ _ Hi (getProbe_text port)).
Qed.

Lemma getVNETSubnetDependencies_loop_spec (profiles : list AgentPoolProfile.t)
    (k : nat) (buf : string) :
  getVNETSubnetDependencies_loop (Z.of_nat k) profiles buf =
  buf +:+
  fragments_from
    (fun _ p => Sprintf subnetDependencyFormat [FStr (AgentPoolProfile.Name p)])
    k profiles.
Proof.
  revert k buf. induction profiles as [|p rest IH]; intros k buf.
  - simpl. now rewrite append_nil_r.
  - cbn [getVNETSubnetDependencies_loop fragments_from].
    replace (Z.of_nat k + 1) with (Z.of_nat (S k)) by lia.
    rewrite IH. destruct k as [|k].
    + change (0 <? Z.of_nat 0) with false. cbv iota.
      now rewrite !append_assoc.
    + replace (0 <? Z.of_nat (S k)) with true by (symmetry; apply Z.ltb_lt; lia).
      unfold fragmentSeparator. now rewrite !append_assoc.
Qed.

Lemma getVNETSubnets_loop_spec (addNSG : bool)
    (profiles : list AgentPoolProfile.t) (buf : string) :
  getVNETSubnets_loop addNSG profiles buf =
  buf +:+
  strcat (map (fun p =>
                 let name := AgentPoolProfile.Name p in
                 fragmentSeparator +:+
                 (if addNSG
                  then Sprintf agentSubnetNSGFormat [FStr name; FStr name; FStr name]
                  else Sprintf agentSubnetFormat [FStr name; FStr name]))
            profiles).
Proof.
  revert buf. induction profiles as [|p rest IH]; intros buf.
  - cbn. now rewrite append_nil_r.
  - cbn [getVNETSubnets_loop map strcat fold_right]. cbv zeta.
    rewrite IH. unfold fragmentSeparator.
    destruct addNSG; now rewrite !append_assoc.
Qed.

Lemma strcat_part {A : Type} (f : A -> string) (xs : list A) (x : A)
    (head part tail : string) :
  In x xs ->
  f x = head +:+ part +:+ tail ->
  exists before after : string,
    strcat (map f xs) = before +:+ part +:+ after.
Proof.
  intros Hin Hf. induction xs as [|y rest IH]; [destruct Hin|].
  cbn [map strcat fold_right]. destruct Hin as [->|Hin].
  - exists head, (tail +:+ fold_right String.append "" (map f rest)).
    rewrite Hf. now rewrite !append_assoc.
  - destruct (IH Hin) as (b & a & E). unfold strcat in E. rewrite E.
    exists (f y +:+ b), a. now rewrite !append_assoc.
Qed.

(** X8.  [getVNETSubnets] starts with the subnet of the master, the same text
    with and without [addNSG], and writes after it a comma, a line feed
    and the subnet of each pool, in the order of the pools.  With
    [addNSG] the subnet of every pool refers to the security group of
    that pool, and [getVNETSubnetDependencies] lists a dependency on that
    same group: no subnet refers to a group the dependencies leave out. *)
Theorem vnetSubnets_depend_on_their_groups (properties : Properties.t)
    (addNSG : bool) :
  let pools := Properties.AgentPoolProfiles properties in
  getVNETSubnets properties addNSG =
    masterSubnetString +:+
    strcat (map (fun p =>
                   let name := AgentPoolProfile.Name p in
                   fragmentSeparator +:+
                   (if addNSG
                    then Sprintf agentSubnetNSGFormat
                           [FStr name; FStr name; FStr name]
                    else Sprintf agentSubnetFormat [FStr name; FStr name]))
              pools)
  /\ getVNETSubnetDependencies properties =
     fragments_from
       (fun _ p => Sprintf subnetDependencyFormat [FStr (AgentPoolProfile.Name p)])
       O pools
  /\ (forall p : AgentPoolProfile.t, In p pools ->
        (exists before after : string,
           getVNETSubnets properties true =
           before +:+ securityGroupName (AgentPoolProfile.Name p) +:+ after)
        /\ (exists before after : string,
              getVNETSubnetDependencies properties =
              before +:+ securityGroupName (AgentPoolProfile.Name p) +:+ after)).
Proof.
  intros pools. split; [|split].
  - unfold getVNETSubnets. now rewrite getVNETSubnets_loop_spec.
  - unfold getVNETSubnetDependencies. change 0 with (Z.of_nat O).
    now rewrite getVNETSubnetDependencies_loop_spec.
  - intros p Hp. split.
    + unfold getVNETSubnets. rewrite getVNETSubnets_loop_spec. fold pools.
      destruct (strcat_part
                  (fun p => fragmentSeparator +:+
                     Sprintf agentSubnetNSGFormat
                       [FStr (AgentPoolProfile.Name p);
                        FStr (AgentPoolProfile.Name p);
                        FStr (AgentPoolProfile.Name p)])
                  pools p
                  (fragmentSeparator +:+
                   agentSubnetNSG_head (AgentPoolProfile.Name p))
                  (securityGroupName (AgentPoolProfile.Name p))
                  agentSubnetNSG_tail Hp) as (b & a & E).
      { unfold agentSubnetNSG_head, securityGroupName.
        cbn [Sprintf agentSubnetNSGFormat Ascii.eqb Bool.eqb orb andb fmt_operand].
        rewrite ?append_assoc. reflexivity. }
      cbv zeta. rewrite E. exists (masterSubnetString +:+ b), a.
      now rewrite !append_assoc.
    + unfold getVNETSubnetDependencies. change 0 with (Z.of_nat O).
      rewrite getVNETSubnetDependencies_loop_spec. fold pools.
      cbn [String.append].
      apply list_elem_of_In, list_elem_of_lookup in Hp. destruct Hp as [i Hi].
      apply (fragments_from_part _ pools i p subnetDependency_head
               (securityGroupName (AgentPoolProfile.Name p))
               subnetDependency_tail Hi).
      unfold securityGroupName.
      cbn [Sprintf subnetDependencyFormat Ascii.eqb Bool.eqb orb andb fmt_operand].
      rewrite ?append_assoc. reflexivity.
Qed.

(** ** Single-line escaping *)

Lemma Replace_byte_cons (o : ascii) (new : string) (c : ascii) (r : string) :
  GoStrings.Replace (String c r) (String o "") new =
  (if Ascii.eqb o c then new else String c "") +:+
  GoStrings.Replace r (String o "") new.
Proof.
  unfold GoStrings.Replace.
  cbn [GoStrings.replace_from GoStrings.HasPrefix String.length Nat.pred].
  destruct (Ascii.eqb o c); reflexivity.
Qed.

Lemma Replace_pair_cons (o1 o2 : ascii) (new : string) (c : ascii) (r : string) :
  GoStrings.Replace (String c r) (String o1 (String o2 "")) new =
  match r with
  | String d r' =>
      if (Ascii.eqb o1 c && Ascii.eqb o2 d)%bool
      then new +:+ GoStrings.Replace r' (String o1 (String o2 "")) new
      else String c (GoStrings.Replace r (String o1 (String o2 "")) new)
  | EmptyString => String c ""
  end.
Proof.
  unfold GoStrings.Replace.
  cbn [GoStrings.replace_from GoStrings.HasPrefix String.length Nat.pred].
  destruct r as [|d r'].
  - rewrite andb_false_r. reflexivity.
  - rewrite andb_true_r. destruct (Ascii.eqb o1 c && Ascii.eqb o2 d)%bool; reflexivity.
Qed.

Lemma Replace_pair_other (o1 o2 : ascii) (new : string) (c : ascii) (r : string) :
  Ascii.eqb o1 c = false ->
  GoStrings.Replace (String c r) (String o1 (String o2 "")) new =
  String c (GoStrings.Replace r (String o1 (String o2 "")) new).
Proof.
  intros Hc. rewrite Replace_pair_cons, Hc. now destruct r.
Qed.

(** [escapeSingleLine], byte by byte. *)
Lemma escapeSingleLine_cons (c : ascii) (r : string) :
  escapeSingleLine (String c r) =
  if Ascii.eqb c "\" then "\\" +:+ escapeSingleLine r
  else if Ascii.eqb c LF then "\n" +:+ escapeSingleLine r
  else if Ascii.eqb c "034" then "\" +:+ dq +:+ escapeSingleLine r
  else if Ascii.eqb c CR
       then match r with
            | String d r' =>
                if Ascii.eqb d LF then "\n" +:+ escapeSingleLine r'
                else String CR (escapeSingleLine r)
            | EmptyString => String CR ""
            end
       else String c (escapeSingleLine r).
Proof.
  unfold escapeSingleLine, crlf, lf, dq. cbv zeta.
  destruct (Ascii.eqb_spec c "\") as [->|Hbs].
  { rewrite Replace_byte_cons. cbn [Ascii.eqb Bool.eqb andb String.append LF CR].
    rewrite !Replace_pair_other by reflexivity.
    rewrite !Replace_byte_cons. cbn [Ascii.eqb Bool.eqb andb String.append LF CR].
    rewrite !Replace_byte_cons. cbn [Ascii.eqb Bool.eqb andb String.append LF CR].
    reflexivity. }
  rewrite Replace_byte_cons.
  replace (Ascii.eqb "\" c) with false
    by (symmetry; apply Ascii.eqb_neq; congruence).
  cbn [String.append].
  destruct (Ascii.eqb_spec c LF) as [->|Hlf].
  { rewrite Replace_pair_other by reflexivity.
    rewrite !Replace_byte_cons. cbn [Ascii.eqb Bool.eqb andb String.append LF CR].
    rewrite !Replace_byte_cons. cbn [Ascii.eqb Bool.eqb andb String.append LF CR].
    reflexivity. }
  destruct (Ascii.eqb_spec c "034") as [->|Hdq].
  { rewrite Replace_pair_other by reflexivity.
    rewrite !Replace_byte_cons. cbn [Ascii.eqb Bool.eqb andb String.append LF CR].
    reflexivity. }
  destruct (Ascii.eqb_spec c CR) as [->|Hcr].
  2:{ rewrite Replace_pair_other by (apply Ascii.eqb_neq; congruence).
      rewrite Replace_byte_cons.
      replace (Ascii.eqb LF c) with false
        by (symmetry; apply Ascii.eqb_neq; congruence).
      cbn [String.append]. rewrite Replace_byte_cons.
      replace (Ascii.eqb "034" c) with false
        by (symmetry; apply Ascii.eqb_neq; congruence).
      reflexivity. }
  destruct r as [|d r'].
  { reflexivity. }
  destruct (Ascii.eqb_spec d LF) as [->|Hd].
  { rewrite Replace_byte_cons. cbn [Ascii.eqb Bool.eqb andb String.append LF CR].
    rewrite Replace_pair_cons. cbn [Ascii.eqb Bool.eqb andb String.append LF CR].
    rewrite !Replace_byte_cons. cbn [Ascii.eqb Bool.eqb andb String.append LF CR].
    rewrite !Replace_byte_cons. cbn [Ascii.eqb Bool.eqb andb String.append LF CR].
    reflexivity. }
  assert (Hhead : exists e rest,
            GoStrings.Replace (String d r') "\" "\\" = String e rest /\ e <> LF).
  { rewrite Replace_byte_cons. destruct (Ascii.eqb "\" d).
    - eexists _, _. split; [reflexivity | discriminate].
    - eexists _, _. split; [reflexivity | exact Hd]. }
  destruct Hhead as (e & rest & Hrest & He).
  rewrite Replace_pair_cons, Hrest.
  replace (Ascii.eqb LF e) with false
    by (symmetry; apply Ascii.eqb_neq; congruence).
  rewrite andb_false_r. rewrite <- Hrest.
  rewrite Replace_byte_cons. cbn [Ascii.eqb Bool.eqb andb String.append LF CR].
  rewrite Replace_byte_cons. cbn [Ascii.eqb Bool.eqb andb String.append LF CR].
  reflexivity.
Qed.

Lemma normalizeLineEndings_cons (c : ascii) (r : string) :
  GoStrings.Replace (String c r) crlf lf =
  match r with
  | String d r' =>
      if (Ascii.eqb c CR && Ascii.eqb d LF)%bool
      then String LF (GoStrings.Replace r' crlf lf)
      else String c (GoStrings.Replace r crlf lf)
  | EmptyString => String c ""
  end.
Proof.
  unfold crlf, lf. rewrite Replace_pair_cons. destruct r as [|d r']; [reflexivity|].
  rewrite (Ascii.eqb_sym CR c), (Ascii.eqb_sym LF d). reflexivity.
Qed.

(** X9.  [escapeSingleLine] writes a text that reads back, as the body of a
    JSON string, to the text it was given with every carriage return and
    line feed pair turned into a line feed: the output holds no line feed
    and no double quote that is not escaped, and every backslash of it
    starts an escape.  A carriage return that no line feed follows is
    left as it is. *)
Theorem escapeSingleLine_round_trip (escapedStr : string) :
  unescape (escapeSingleLine escapedStr) =
  Some (GoStrings.Replace escapedStr crlf lf).
Proof.
  assert (Hall : forall (n : nat) (s : string), (String.length s <= n)%nat ->
            unescape (escapeSingleLine s) = Some (GoStrings.Replace s crlf lf)).
  { induction n as [|n IH]; intros s Hlen.
    - destruct s; [reflexivity | cbn in Hlen; lia].
    - destruct s as [|c r]; [reflexivity|]. cbn [String.length] in Hlen.
      assert (Hr : unescape (escapeSingleLine r) =
                   Some (GoStrings.Replace r crlf lf)) by (apply IH; lia).
      rewrite escapeSingleLine_cons, normalizeLineEndings_cons.
      destruct (Ascii.eqb_spec c "\") as [->|Hbs].
      { cbn [String.append unescape Ascii.eqb Bool.eqb andb orb LF CR dq]. rewrite Hr.
        destruct r; reflexivity. }
      destruct (Ascii.eqb_spec c LF) as [->|Hlf].
      { cbn [String.append unescape Ascii.eqb Bool.eqb andb orb LF CR dq]. rewrite Hr.
        destruct r; reflexivity. }
      destruct (Ascii.eqb_spec c "034") as [->|Hdq].
      { cbn [String.append unescape Ascii.eqb Bool.eqb andb orb LF CR dq]. rewrite Hr.
        destruct r; reflexivity. }
      destruct (Ascii.eqb_spec c CR) as [->|Hcr].
      + destruct r as [|d r']; [reflexivity|].
        cbn [andb]. destruct (Ascii.eqb_spec d LF) as [->|Hd].
        * cbn [String.append unescape Ascii.eqb Bool.eqb andb orb LF CR dq].
          rewrite (IH r') by (cbn [String.length] in Hlen; lia). reflexivity.
        * cbn [unescape Ascii.eqb Bool.eqb andb orb CR LF]. now rewrite Hr.
      + cbn [unescape].
        replace (Ascii.eqb c "\") with false
          by (symmetry; apply Ascii.eqb_neq; congruence).
        replace (Ascii.eqb c LF) with false
          by (symmetry; apply Ascii.eqb_neq; congruence).
        replace (Ascii.eqb c "034") with false
          by (symmetry; apply Ascii.eqb_neq; congruence).
        cbn [orb]. rewrite Hr.
        destruct r as [|d r']; [reflexivity|].
        replace (Ascii.eqb c CR) with false
          by (symmetry; apply Ascii.eqb_neq; congruence).
        reflexivity. }
  exact (Hall (String.length escapedStr) escapedStr (le_n _)).
Qed.

(** ** Storage account type of a VM size *)

Lemma splitOn_has_sep (sep : ascii) (s : string) :
  hasByte sep s = true -> (2 <= length (splitOn sep s))%nat.
Proof.
  induction s as [|c s IH]; [discriminate|]. cbn [hasByte splitOn].
  pose proof (splitOn_not_nil sep s) as Hne.
  destruct (Ascii.eqb c sep).
  - intros _. destruct (splitOn sep s); [contradiction | cbn; lia].
  - cbn [orb]. intros Hs. specialize (IH Hs).
    destruct (splitOn sep s); [contradiction | exact IH].
Qed.

Lemma splitOn_parts (sep : ascii) (parts : list string) :
  parts <> [] ->
  Forall (fun part => hasByte sep part = false) parts ->
  splitOn sep (joinWith sep parts) = parts.
Proof.
  intros Hne Hparts. rewrite splitOn_joinWith by exact Hne.
  clear Hne. induction Hparts as [|p rest Hp _ IH]; [reflexivity|].
  cbn [map concat]. now rewrite (splitOn_no_sep sep p Hp), IH.
Qed.

Lemma lowerByte_s (c : ascii) :
  Ascii.eqb "s" (lowerByte c) = (Ascii.eqb c "s" || Ascii.eqb c "S")%bool.
Proof. destruct c as [[] [] [] [] [] [] [] []]; reflexivity. Qed.

Lemma Contains_lowerBytes_s (s : string) :
  GoStrings.Contains (lowerBytes s) "s" = (hasByte "s" s || hasByte "S" s)%bool.
Proof.
  induction s as [|c s IH]; [reflexivity|].
  cbn [lowerBytes GoStrings.Contains GoStrings.HasPrefix hasByte].
  rewrite IH, lowerByte_s, andb_true_r.
  destruct (Ascii.eqb c "s"), (Ascii.eqb c "S"), (hasByte "s" s), (hasByte "S" s);
    reflexivity.
Qed.

Section StorageAccountTypeTheorem.
Variable unicode_ToLower_Map : string -> string.

(** X10.  [getStorageAccountType] fails exactly for a size name without an
    underscore, with a message that holds the name.  For a name
    [family_capability] or [family_capability_more...] whose capability
    part is ASCII, the type is premium exactly when the capability part
    holds the letter s, in either case, and standard otherwise: what
    follows the capability part is not looked at. *)
Theorem getStorageAccountType_tier (sizeName : string) :
  ((exists msg : string,
      getStorageAccountType unicode_ToLower_Map sizeName = Err msg) <->
   hasByte "_" sizeName = false)
  /\ (hasByte "_" sizeName = false ->
      getStorageAccountType unicode_ToLower_Map sizeName =
      Err ("Invalid sizeName: " +:+ sizeName))
  /\ (forall (family capability : string) (more : list string),
        sizeName = joinWith "_" (family :: capability :: more) ->
        Forall (fun part => hasByte "_" part = false)
          (family :: capability :: more) ->
        allBytes isASCII capability = true ->
        getStorageAccountType unicode_ToLower_Map sizeName =
        Ok (if (hasByte "s" capability || hasByte "S" capability)%bool
            then "Premium_LRS" else "Standard_LRS")).
Proof.
  assert (Herr : hasByte "_" sizeName = false ->
            getStorageAccountType unicode_ToLower_Map sizeName =
            Err ("Invalid sizeName: " +:+ sizeName)).
  { intros Hno. unfold getStorageAccountType, Split. cbv zeta.
    rewrite (splitOn_no_sep "_" sizeName Hno). cbn [length Nat.ltb Nat.leb].
    cbn [Sprintf Ascii.eqb Bool.eqb orb andb fmt_operand].
    now rewrite append_nil_r. }
  split; [|split; [exact Herr|]].
  - split; [|intros Hno; rewrite (Herr Hno); eauto].
    intros [msg Hmsg]. destruct (hasByte "_" sizeName) eqn:Ehas; [|reflexivity].
    apply splitOn_has_sep in Ehas.
    apply Nat.ltb_ge in Ehas. exfalso. revert Hmsg.
    unfold getStorageAccountType, Split. cbv zeta. rewrite Ehas.
    destruct (GoStrings.Contains _ "s"); intros [=].
  - intros family capability more -> Hparts Hascii.
    unfold getStorageAccountType, Split. cbv zeta.
    rewrite (splitOn_parts "_" (family :: capability :: more)) by
      (discriminate || exact Hparts).
    cbn [length Nat.ltb Nat.leb nth]. unfold ToLower. rewrite Hascii.
    rewrite Contains_lowerBytes_s.
    destruct (hasByte "s" capability || hasByte "S" capability)%bool; reflexivity.
Qed.

End StorageAccountTypeTheorem.

(** ** The VM type of a linked template *)

Lemma HasPrefix_master_short (n : string) :
  (String.length n < 6)%nat ->
  GoStrings.HasPrefix (n +:+ "VMNamePrefix')") "master" = false.
Proof.
  intros Hlen.
  destruct n as [|c1 [|c2 [|c3 [|c4 [|c5 [|c6 r]]]]]];
    cbn [String.length] in Hlen; try lia;
    cbn [String.append GoStrings.HasPrefix Ascii.eqb Bool.eqb andb];
    rewrite ?andb_false_r; reflexivity.
Qed.

Lemma HasPrefix_master_long (n rest : string) :
  (6 <= String.length n)%nat ->
  GoStrings.HasPrefix (n +:+ rest) "master" = GoStrings.HasPrefix n "master".
Proof.
  intros Hlen.
  destruct n as [|c1 [|c2 [|c3 [|c4 [|c5 [|c6 r]]]]]];
    cbn [String.length] in Hlen; try lia.
  reflexivity.
Qed.

Lemma HasPrefix_master_length (n : string) :
  GoStrings.HasPrefix n "master" = true -> (6 <= String.length n)%nat.
Proof.
  destruct n as [|c1 [|c2 [|c3 [|c4 [|c5 [|c6 r]]]]]];
    cbn [GoStrings.HasPrefix]; rewrite ?andb_false_r; try discriminate.
  intros _. cbn [String.length]. lia.
Qed.

(** The name prefix variable of a pool holds [master] exactly when the
    name of the pool does. *)
Lemma Contains_master_prefix (name : string) :
  GoStrings.Contains ("variables('" +:+ name +:+ "VMNamePrefix')") "master" =
  GoStrings.Contains name "master".
Proof.
  change (GoStrings.Contains ("variables('" +:+ name +:+ "VMNamePrefix')") "master")
    with (GoStrings.Contains (name +:+ "VMNamePrefix')") "master").
  induction name as [|c n IH].
  - reflexivity.
  - cbn [String.append].
    change (GoStrings.Contains (String c (n +:+ "VMNamePrefix')")) "master")
      with (GoStrings.HasPrefix (String c (n +:+ "VMNamePrefix')")) "master"
            || GoStrings.Contains (n +:+ "VMNamePrefix')") "master")%bool.
    change (GoStrings.Contains (String c n) "master")
      with (GoStrings.HasPrefix (String c n) "master"
            || GoStrings.Contains n "master")%bool.
    rewrite IH. f_equal.
    destruct (Nat.lt_ge_cases (String.length (String c n)) 6) as [Hshort|Hlong].
    + pose proof (HasPrefix_master_short (String c n) Hshort) as Hs.
      cbn [String.append] in Hs. rewrite Hs.
      destruct (GoStrings.HasPrefix (String c n) "master") eqn:E; [|reflexivity].
      apply HasPrefix_master_length in E. lia.
    + exact (HasPrefix_master_long (String c n) "VMNamePrefix')" Hlong).
Qed.

Section VMType.
Context `{Env}.

(** X11.  Given that the template text [dta] of the extension is fetched: the
    VM type placeholder becomes [master] for the master, and for an
    agent pool it becomes [master] as well when the name of the pool
    holds the text master, and [agent] only when it does not. *)
Theorem linkedTemplate_vm_type (masterProfile : MasterProfile.t)
    (agentPoolProfile : AgentPoolProfile.t) (orchestratorType : string)
    (extensionProfile : ExtensionProfile.t) (singleOrAll : string)
    (rt rt' : RT) (dta : string) :
  getLinkedTemplateTextForURL (ExtensionProfile.RootURL extensionProfile)
    orchestratorType (ExtensionProfile.Name extensionProfile)
    (ExtensionProfile.Version extensionProfile)
    (ExtensionProfile.URLQuery extensionProfile) rt = ((dta, None), rt') ->
  getMasterLinkedTemplateText masterProfile orchestratorType extensionProfile
    singleOrAll rt =
    ((spliceAfterVMType "variables('masterVMNamePrefix')" extensionProfile
        (if EqualFold singleOrAll "single" then LiteralCount "1"
         else ExpressionCount masterLoopCountExpression)
        "variables('masterOffset')" (spliceVMType "master" dta), None), rt')
  /\ getAgentPoolLinkedTemplateText agentPoolProfile orchestratorType
       extensionProfile singleOrAll rt =
     ((spliceAfterVMType
         ("variables('" +:+ AgentPoolProfile.Name agentPoolProfile
          +:+ "VMNamePrefix')") extensionProfile
         (if EqualFold singleOrAll "single" then LiteralCount "1"
          else ExpressionCount (agentLoopCountExpression agentPoolProfile))
         (agentLoopOffset agentPoolProfile)
         (spliceVMType
            (if GoStrings.Contains (AgentPoolProfile.Name agentPoolProfile)
                  "master"
             then "master" else "agent") dta), None), rt').
Proof.
  intros Hfetch.
  pose proof (fun p c o =>
    internalGetPoolLinkedTemplateText_ok p orchestratorType c o
      extensionProfile rt rt' dta Hfetch) as Hinternal.
  split.
  - unfold getMasterLinkedTemplateText. rewrite Hinternal.
    destruct (EqualFold singleOrAll "single"); reflexivity.
  - unfold getAgentPoolLinkedTemplateText, agentLoopCountExpression,
      agentLoopOffset.
    rewrite <- (Contains_master_prefix (AgentPoolProfile.Name agentPoolProfile)).
    destruct (IsAvailabilitySets agentPoolProfile);
      destruct (EqualFold singleOrAll "single");
      rewrite Hinternal; reflexivity.
Qed.

End VMType.

Lemma linkedTemplate_vm_type_witness :
  getAgentPoolLinkedTemplateText (H := Demo.env)
    (Demo.pool "webmasters" "Linux" "10.1.0.0/16" 1 []) "Kubernetes"
    helloWorld "All" (demoState vmTypeServer) =
  (("{" +:+ dq +:+ "type" +:+ dq +:+ ": " +:+ dq +:+ "master" +:+ dq +:+ "}",
    None), demoState vmTypeServer).
Proof.
  assert (Hfetch :
    getLinkedTemplateTextForURL (H := Demo.env)
      (ExtensionProfile.RootURL helloWorld) "Kubernetes"
      (ExtensionProfile.Name helloWorld) (ExtensionProfile.Version helloWorld)
      (ExtensionProfile.URLQuery helloWorld) (demoState vmTypeServer) =
    ((vmTypeTemplate, None), demoState vmTypeServer))
    by reflexivity.
  rewrite (proj2 (linkedTemplate_vm_type (H := Demo.env) Demo.master
             (Demo.pool "webmasters" "Linux" "10.1.0.0/16" 1 []) "Kubernetes"
             helloWorld "All" _ _ _ Hfetch)).
  reflexivity.
Defined.

(** ** Secret paths: the dot of the pattern is any character *)

Lemma providerPath_matches (separator : ascii)
    (subscription resourceGroup vault name : string) :
  isNonBlank subscription -> isNonBlank resourceGroup -> isNonBlank vault ->
  isSegment name ->
  utf8.byte_of separator < 128 -> separator <> LF ->
  is_Some (FindStringSubmatch keyvaultSecretPathRe 4
             (providerPath separator subscription resourceGroup vault name)).
Proof.
  intros [HS HSp] [HG HGp] [HV HVp] [HN HNp] Hascii Hlf.
  rewrite FindStringSubmatch_keyvault.
  pose (vaultID :=
    "/subscriptions/" +:+ subscription +:+ "/resourceGroups/" +:+ resourceGroup
    +:+ "/providers/Microsoft" +:+ String separator "KeyVault/vaults/" +:+ vault).
  assert (Hpath :
    providerPath separator subscription resourceGroup vault name =
    vaultID +:+ "/secrets/" +:+ name).
  { unfold providerPath, vaultID. now rewrite !append_assoc. }
  rewrite Hpath.
  rewrite <- (append_nil_r (vaultID +:+ "/secrets/" +:+ name)).
  eapply exec_complete; [|cbv beta; eauto].
  unfold keyvaultSecretPathRe. cbn [matches].
  exists "", (vaultID +:+ "/secrets/" +:+ name).
  eexists. split; [reflexivity|]. split; [auto|].
  exists vaultID, ("/secrets/" +:+ name).
  eexists. split; [reflexivity|]. split.
  { eexists. split; [|reflexivity].
    exists "/subscriptions/",
      (subscription +:+ "/resourceGroups/" +:+ resourceGroup +:+
       "/providers/Microsoft" +:+ String separator "KeyVault/vaults/" +:+ vault).
    eexists. split; [reflexivity|]. split; [auto|].
    exists subscription,
      ("/resourceGroups/" +:+ resourceGroup +:+
       "/providers/Microsoft" +:+ String separator "KeyVault/vaults/" +:+ vault).
    eexists. split; [reflexivity|]. split; [auto|].
    exists "/resourceGroups/",
      (resourceGroup +:+ "/providers/Microsoft" +:+
       String separator "KeyVault/vaults/" +:+ vault).
    eexists. split; [reflexivity|]. split; [auto|].
    exists resourceGroup,
      ("/providers/Microsoft" +:+ String separator "KeyVault/vaults/" +:+ vault).
    eexists. split; [reflexivity|]. split; [auto|].
    exists "/providers/Microsoft", (String separator "KeyVault/vaults/" +:+ vault).
    eexists. split; [reflexivity|]. split; [auto|].
    exists (String separator ""), ("KeyVault/vaults/" +:+ vault).
    eexists. split; [reflexivity|]. split.
    { exists (utf8.byte_of separator), 1%nat.
      split.
      { cbn [String.append utf8.DecodeRuneInString]. cbv zeta.
        now rewrite (proj2 (Z.ltb_lt _ _) Hascii). }
      split; [discriminate|]. split.
      { intros Hten. apply Hlf. unfold utf8.byte_of in Hten.
        rewrite <- (ascii_N_embedding separator).
        replace (N_of_ascii separator) with 10%N by lia. reflexivity. }
      repeat split. }
    exists "KeyVault/vaults/", vault.
    eexists. split; [reflexivity|]. split; auto. }
  exists "/secrets/", (name +:+ "").
  eexists. split; [now rewrite append_nil_r|]. split; [auto|].
  exists name, "".
  eexists. split; [reflexivity|]. split.
  { eexists. split; [|reflexivity]. auto. }
  exists "", "".
  eexists. split; [reflexivity|]. split; [|auto].
  right. auto.
Qed.

(** X12.  The secret path pattern does not ask for the dot of
    [Microsoft.KeyVault]: with any byte of ASCII but a line feed in its
    place, a slash for one, the text is still taken for a secret path and
    [addSecret] stores a reference, whose vault and secret name are cut
    out of the text at [/secrets/]. *)
Theorem addSecret_provider_separator (m : paramsMap) (k : string)
    (separator : ascii) (subscription resourceGroup vault name : string)
    (encode : bool) :
  isNonBlank subscription -> isNonBlank resourceGroup -> isNonBlank vault ->
  isSegment name ->
  utf8.byte_of separator < 128 -> separator <> LF ->
  let str := providerPath separator subscription resourceGroup vault name in
  isSecretPath (VString str) = true
  /\ exists vaultID secretName tail version : string,
       str = vaultID +:+ "/secrets/" +:+ secretName +:+ tail
       /\ addSecret m k (VString str) encode =
          addKeyvaultReference m k vaultID secretName version.
Proof.
  intros HS HG HV HN Hascii Hlf str.
  destruct (providerPath_matches separator subscription resourceGroup vault name
              HS HG HV HN Hascii Hlf) as [found Hfound].
  fold str in Hfound.
  destruct (FindStringSubmatch_keyvault_Some _ _ Hfound)
    as (vaultID & secretName & tail & version & -> & Hstr & _).
  split.
  - unfold isSecretPath. now rewrite Hfound.
  - exists vaultID, secretName, tail, version. split; [exact Hstr|].
    unfold addSecret. now rewrite Hfound.
Qed.

Lemma addSecret_provider_separator_witness :
  isSecretPath
    (VString "/subscriptions/S/resourceGroups/G/providers/Microsoft/KeyVault/vaults/V/secrets/ca")
  = true.
Proof.
  refine (proj1 (addSecret_provider_separator ∅ "k" "/" "S" "G" "V" "ca" false
                   _ _ _ _ _ _)).
  - split; [discriminate | reflexivity].
  - split; [discriminate | reflexivity].
  - split; [discriminate | reflexivity].
  - split; [discriminate | reflexivity].
  - reflexivity.
  - discriminate.
Defined.

(** ** The preprovision commands of an agent pool *)

Section PreprovisionCommandsTheorem.
Context `{Env}.

(** X13.  [makeAgentExtensionScriptCommands] panics exactly when the pool has no
    preprovision extension or no extension profile has the name of that
    extension, letter case put aside.  What it returns depends on the
    pool through its preprovision extension and through whether its OS
    type is Windows, and on nothing else: the copy index it computes from
    the availability profile and the name of the pool does not reach the
    commands. *)
Theorem makeAgentExtensionScriptCommands_panic (properties : Properties.t)
    (profile : AgentPoolProfile.t) :
  ((exists msg : string,
      makeAgentExtensionScriptCommands properties profile = Panics msg) <->
   match AgentPoolProfile.PreprovisionExtension profile with
   | None => True
   | Some extension =>
       Forall (fun eP => EqualFold (ExtensionProfile.Name eP)
                           (Extension.Name extension) = false)
         (Properties.ExtensionProfiles properties)
   end)
  /\ (forall other : AgentPoolProfile.t,
        AgentPoolProfile.PreprovisionExtension other =
          AgentPoolProfile.PreprovisionExtension profile ->
        String.eqb (AgentPoolProfile.OSType other) Windows =
          String.eqb (AgentPoolProfile.OSType profile) Windows ->
        makeAgentExtensionScriptCommands properties other =
        makeAgentExtensionScriptCommands properties profile).
Proof.
  split.
  - unfold makeAgentExtensionScriptCommands. cbv zeta.
    destruct (AgentPoolProfile.PreprovisionExtension profile) as [extension|].
    2:{ split; [trivial | eauto]. }
    rewrite <- lookupExtensionProfile_None.
    unfold makeExtensionScriptCommands, makeWindowsExtensionScriptCommands.
    destruct (String.eqb (AgentPoolProfile.OSType profile) Windows);
      destruct (lookupExtensionProfile extension
                  (Properties.ExtensionProfiles properties));
      (split; [intros [msg Hmsg]; (discriminate || reflexivity)
              | intros Hnone; (discriminate || eauto)]).
  - intros other Hext Hos. unfold makeAgentExtensionScriptCommands. cbv zeta.
    rewrite Hext, Hos.
    destruct (AgentPoolProfile.PreprovisionExtension profile); [|reflexivity].
    unfold makeExtensionScriptCommands, makeWindowsExtensionScriptCommands.
    destruct (String.eqb (AgentPoolProfile.OSType profile) Windows); reflexivity.
Qed.

End PreprovisionCommandsTheorem.

(** ** The resolver: what it prints and what it asks for *)

Lemma stringInSlice_In (a : string) (l : list string) :
  stringInSlice a l = true <-> In a l.
Proof.
  induction l as [|b l IH]; cbn [stringInSlice In].
  - split; [discriminate | tauto].
  - destruct (String.eqb_spec b a) as [->|Hne].
    + tauto.
    + rewrite IH. split; [tauto|]. intros [E|?]; [congruence | assumption].
Qed.

Section ResolverEffects.
Context `{Env}.

(** X14.  [getLinkedTemplateTextForURL] returns a text and no error exactly
    when both documents of the extension are fetched with status 200, the
    list of supported orchestrators parses and holds the orchestrator:
    the text is then the body of [template-link.json], asked for after
    the list.  With an error the text is empty.  Nothing is printed in
    either case. *)
Theorem getLinkedTemplateTextForURL_result
    (rootURL orchestrator extensionName version query : string) (rt : RT) :
  let url1 := getExtensionURL rootURL extensionName version
                "supported-orchestrators.json" query in
  let url2 := getExtensionURL rootURL extensionName version
                "template-link.json" query in
  match getLinkedTemplateTextForURL rootURL orchestrator extensionName version
          query rt with
  | ((text, None), rt') =>
      exists (status1 status2 body1 : string) (supported : list string)
             (w1 : World),
        http_Get url1 (world rt) = (HttpResponse 200 status1 (Ok body1), w1) /\
        json_Unmarshal_strings body1 = Some supported /\
        In orchestrator supported /\
        http_Get url2 w1 = (HttpResponse 200 status2 (Ok text), world rt') /\
        stdout rt' = stdout rt
  | ((text, Some _), rt') => text = "" /\ stdout rt' = stdout rt
  end
  /\ (forall (status1 status2 body1 text : string) (supported : list string)
         (w1 w2 : World),
        http_Get url1 (world rt) = (HttpResponse 200 status1 (Ok body1), w1) ->
        json_Unmarshal_strings body1 = Some supported ->
        In orchestrator supported ->
        http_Get url2 w1 = (HttpResponse 200 status2 (Ok text), w2) ->
        getLinkedTemplateTextForURL rootURL orchestrator extensionName version
          query rt =
        ((text, None), {| world := w2; stdout := stdout rt |})).
Proof.
  intros url1 url2. split.
  - pose proof (getLinkedTemplateTextForURL_outcome rootURL orchestrator
                  extensionName version query rt) as Hout.
    cbv zeta in Hout. fold url1 url2 in Hout.
    destruct (getLinkedTemplateTextForURL _ _ _ _ _ rt) as [[text [e|]] rt'];
      [exact Hout|].
    destruct Hout as (s1 & s2 & b1 & l & w1 & E1 & Ej & Ein & E2 & Estd).
    exists s1, s2, b1, l, w1. repeat split; auto. now apply stringInSlice_In.
  - intros s1 s2 b1 text l w1 w2 E1 Ej Ein E2.
    apply stringInSlice_In in Ein.
    unfold getLinkedTemplateTextForURL, orchestratorSupportsExtension,
      getExtensionResource, httpGet, mbind, M_bind, mret, M_ret.
    fold url1 url2. rewrite E1. cbn. rewrite Ej. cbn. rewrite Ein. cbn.
    rewrite E2. reflexivity.
Qed.

(** X15.  [orchestratorSupportsExtension] answers [true] exactly when it
    returns no error, and that is when the list of supported
    orchestrators is fetched with status 200, parses, and holds the
    orchestrator, compared byte by byte: the error that
    [getLinkedTemplateTextForURL] wraps is never nil.  It makes one
    request and prints nothing. *)
Theorem orchestratorSupportsExtension_outcome
    (rootURL orchestrator extensionName version query : string) (rt : RT) :
  let url := getExtensionURL rootURL extensionName version
               "supported-orchestrators.json" query in
  match orchestratorSupportsExtension rootURL orchestrator extensionName
          version query rt with
  | ((supports, err), rt') =>
      (supports = true <-> err = None)
      /\ (supports = true <->
          exists (status body : string) (supported : list string),
            fst (http_Get url (world rt)) = HttpResponse 200 status (Ok body)
            /\ json_Unmarshal_strings body = Some supported
            /\ In orchestrator supported)
      /\ world rt' = snd (http_Get url (world rt))
      /\ stdout rt' = stdout rt
  end.
Proof.
  pose proof (stringInSlice_In orchestrator) as Hin.
  intros url.
  unfold orchestratorSupportsExtension, getExtensionResource, httpGet,
    mbind, M_bind, mret, M_ret.
  fold url.
  destruct (http_Get url (world rt)) as [[err|code status bodyr] w] eqn:Eget; cbn.
  { repeat split; try discriminate. intros (s & b & l & E & _). discriminate. }
  destruct (Z.eqb_spec code 200) as [->|Hne]; cbn.
  2:{ repeat split; try discriminate.
      intros (s & b & l & [= E _ _] & _). contradiction. }
  destruct bodyr as [body|err]; cbn.
  2:{ repeat split; try discriminate. intros (s & b & l & E & _). discriminate. }
  destruct (json_Unmarshal_strings body) as [supported|] eqn:Ejson; cbn.
  2:{ repeat split; try discriminate.
      intros (s & b & l & [= _ <-] & E & _). congruence. }
  destruct (stringInSlice orchestrator supported) eqn:Ein; cbn.
  - repeat split; auto. intros _. exists status, body, supported.
    repeat split; auto. now apply Hin.
  - repeat split; try discriminate.
    intros (s & b & l & [= _ <-] & E & Hl).
    assert (l = supported) as -> by congruence.
    apply Hin in Hl. congruence.
Qed.

Lemma internalGetPoolLinkedTemplateText_keepsStdout
    (extTargetVMNamePrefix orchestratorType loopCount loopOffset : string)
    (extensionProfile : ExtensionProfile.t) :
  keepsStdout (internalGetPoolLinkedTemplateText extTargetVMNamePrefix
                 orchestratorType loopCount loopOffset extensionProfile).
Proof.
  intros rt. unfold internalGetPoolLinkedTemplateText, mbind, M_bind.
  pose proof (getLinkedTemplateTextForURL_outcome
                (ExtensionProfile.RootURL extensionProfile) orchestratorType
                (ExtensionProfile.Name extensionProfile)
                (ExtensionProfile.Version extensionProfile)
                (ExtensionProfile.URLQuery extensionProfile) rt) as Hout.
  cbv zeta in Hout.
  destruct (getLinkedTemplateTextForURL _ _ _ _ _ rt) as [[text [e|]] rt1].
  - exact (proj2 Hout).
  - destruct Hout as (? & ? & ? & ? & ? & _ & _ & _ & _ & Hstd). exact Hstd.
Qed.

Lemma allTargets_keepStdout (properties : Properties.t)
    (orchestratorType : string) :
  Forall keepsStdout (allTargets properties orchestratorType).
Proof.
  unfold allTargets. apply Forall_flat_map, Forall_forall. intros eP _.
  unfold extensionTargets. cbv zeta.
  destruct (validateProfileOptedForExtension _ _) as [opted singleOrAll].
  apply Forall_app. split.
  - destruct opted; constructor; [|constructor].
    unfold getMasterLinkedTemplateText.
    apply internalGetPoolLinkedTemplateText_keepsStdout.
  - unfold agentTargets. apply Forall_flat_map, Forall_forall. intros p _.
    destruct (validateProfileOptedForExtension _ _) as [[|] single];
      constructor; [|constructor].
    unfold getAgentPoolLinkedTemplateText.
    destruct (IsAvailabilitySets p);
      apply internalGetPoolLinkedTemplateText_keepsStdout.
Qed.

Lemma resolveAll_stdout (targets : list target) :
  Forall keepsStdout targets ->
  forall (result : string) (rt : RT),
    match resolveAll targets result rt with
    | (Continue _, rt') => stdout rt' = stdout rt
    | (Return v, rt') =>
        v = "" /\ exists msg : string, stdout rt' = (stdout rt ++ [msg])%list
    end.
Proof.
  induction 1 as [|t rest Ht _ IH]; intros result rt; [reflexivity|].
  cbn [resolveAll]. unfold mbind, M_bind, appendLinkedTemplate.
  specialize (Ht rt). unfold mbind, M_bind.
  destruct (t rt) as [[dta [msg|]] rt1]; cbn [snd] in Ht.
  - cbn. split; [reflexivity|]. exists msg. congruence.
  - cbn. specialize (IH ((result +:+ ",") +:+ dta) rt1).
    destruct (resolveAll rest _ rt1) as [[r|v] rt2]; rewrite <- Ht; exact IH.
Qed.

(** X16.  [getLinkedTemplatesForExtensions] prints at most one line, and
    when it prints one it returns the empty string; when it returns
    without a line printed, what it returns is empty or starts with a
    comma.  With an orchestrator profile, when neither the master profile
    nor a pool has opted in to an extension profile, it returns the empty
    string without a request: the state of the network is the one it
    started in. *)
Theorem getLinkedTemplatesForExtensions_effects (properties : Properties.t)
    (rt : RT) :
  match getLinkedTemplatesForExtensions properties rt with
  | (out, rt') =>
      (stdout rt' = stdout rt
       /\ (forall v : string, out = Returns v ->
             v = "" \/ exists text : string, v = "," +:+ text))
      \/ (out = Returns ""
          /\ exists msg : string, stdout rt' = (stdout rt ++ [msg])%list)
  end
  /\ (forall orchestratorProfile : OrchestratorProfile.t,
        Properties.OrchestratorProfile properties = Some orchestratorProfile ->
        (forall eP : ExtensionProfile.t,
           In eP (Properties.ExtensionProfiles properties) ->
           ~ In (ExtensionProfile.Name eP)
               (map Extension.Name
                  (MasterProfile.Extensions
                     (Properties.MasterProfile properties)))
           /\ (forall p : AgentPoolProfile.t,
                 In p (Properties.AgentPoolProfiles properties) ->
                 ~ In (ExtensionProfile.Name eP)
                     (map Extension.Name (AgentPoolProfile.Extensions p)))) ->
        getLinkedTemplatesForExtensions properties rt = (Returns "", rt)).
Proof.
  assert (Hrun : forall orchestratorProfile : OrchestratorProfile.t,
            Properties.OrchestratorProfile properties = Some orchestratorProfile ->
            getLinkedTemplatesForExtensions properties rt =
            match resolveAll
                    (allTargets properties
                       (OrchestratorProfile.OrchestratorType orchestratorProfile))
                    "" rt with
            | (Return v, rt') => (Returns v, rt')
            | (Continue r, rt') => (Returns r, rt')
            end).
  { intros o Horch. unfold getLinkedTemplatesForExtensions. rewrite Horch.
    unfold mbind, M_bind. rewrite extensions_loop_resolveAll.
    fold (allTargets properties (OrchestratorProfile.OrchestratorType o)).
    destruct (resolveAll _ "" rt) as [[r|v] rt']; reflexivity. }
  split.
  - destruct (Properties.OrchestratorProfile properties) as [o|] eqn:Horch.
    2:{ unfold getLinkedTemplatesForExtensions. rewrite Horch.
        left. split; [reflexivity|]. intros v [=]. }
    set (targets := allTargets properties (OrchestratorProfile.OrchestratorType o)).
    assert (Hshape : forall (ts : list target) (result : string) (rt0 : RT),
              match resolveAll ts result rt0 with
              | (Continue r, _) =>
                  r = result \/ exists text, r = result +:+ "," +:+ text
              | (Return _, _) => True
              end).
    { induction ts as [|t ts IH]; intros result rt0; [now left|].
      cbn [resolveAll]. unfold mbind, M_bind, appendLinkedTemplate.
      unfold mbind, M_bind.
      destruct (t rt0) as [[dta [msg|]] rt1]; cbn; [trivial|].
      specialize (IH ((result +:+ ",") +:+ dta) rt1).
      destruct (resolveAll ts _ rt1) as [[r|v] rt2]; [|trivial].
      right. destruct IH as [->|[text ->]].
      - exists dta. now rewrite !append_assoc.
      - exists (dta +:+ "," +:+ text). now rewrite !append_assoc. }
    pose proof (resolveAll_stdout targets
                  (allTargets_keepStdout properties _) "" rt) as Hstd.
    specialize (Hshape targets "" rt). rewrite (Hrun o eq_refl). fold targets.
    destruct (resolveAll targets "" rt) as [[r|v] rt'].
    + left. split; [exact Hstd|]. intros v [= <-].
      destruct Hshape as [->|[text ->]]; [now left | right; now exists text].
    + right. destruct Hstd as [-> Hmsg]. split; [reflexivity | exact Hmsg].
  - intros orchestratorProfile Horch Hnone. rewrite (Hrun _ Horch).
    set (targets := allTargets properties
                      (OrchestratorProfile.OrchestratorType orchestratorProfile)).
    assert (targets = []) as ->; [|reflexivity].
    assert (Hagents : forall (eP : ExtensionProfile.t)
              (pools : list AgentPoolProfile.t),
              (forall p : AgentPoolProfile.t, In p pools ->
                 ~ In (ExtensionProfile.Name eP)
                     (map Extension.Name (AgentPoolProfile.Extensions p))) ->
              agentTargets
                (OrchestratorProfile.OrchestratorType orchestratorProfile)
                eP pools = []).
    { intros eP pools. induction pools as [|p pools IHp]; intros Hpools;
        [reflexivity|].
      unfold agentTargets in *. cbn [flat_map].
      rewrite IHp by (intros q Hq; apply Hpools; now right).
      rewrite app_nil_r.
      destruct (validateProfileOptedForExtension (ExtensionProfile.Name eP)
                  (AgentPoolProfile.Extensions p)) as [optedp single] eqn:Ep.
      destruct optedp; [|reflexivity]. exfalso.
      apply (Hpools p (or_introl eq_refl)).
      apply validateProfileOptedForExtension_true. now rewrite Ep. }
    unfold targets, allTargets. revert Hnone.
    generalize (Properties.ExtensionProfiles properties) as extensions.
    induction extensions as [|eP rest IH]; intros Hnone; [reflexivity|].
    cbn [flat_map]. rewrite IH by (intros e He; apply Hnone; now right).
    rewrite app_nil_r.
    destruct (Hnone eP (or_introl eq_refl)) as [Hmaster Hpools].
    unfold extensionTargets. cbv zeta.
    destruct (validateProfileOptedForExtension (ExtensionProfile.Name eP)
                (MasterProfile.Extensions (Properties.MasterProfile properties)))
      as [opted singleOrAll] eqn:Evalidate.
    assert (opted = false) as ->.
    { destruct opted; [|reflexivity]. exfalso. apply Hmaster.
      apply validateProfileOptedForExtension_true. now rewrite Evalidate. }
    cbn [app]. now apply Hagents.
Qed.

(** X17.  Outside single mode the loop count that
    [getMasterLinkedTemplateText] and [getAgentPoolLinkedTemplateText]
    hand to [internalGetPoolLinkedTemplateText] is an expression.  For a
    pool whose name has as many opening as closing parentheses, the
    expression of the master and the one of a pool in availability sets
    are balanced, and the one of any other pool closes one parenthesis
    more than it opens. *)
Theorem loopCountExpression_parentheses (masterProfile : MasterProfile.t)
    (agentPoolProfile : AgentPoolProfile.t) (orchestratorType : string)
    (extensionProfile : ExtensionProfile.t) (singleOrAll : string) :
  EqualFold singleOrAll "single" = false ->
  countByte "(" (AgentPoolProfile.Name agentPoolProfile) =
    countByte ")" (AgentPoolProfile.Name agentPoolProfile) ->
  exists masterCount agentCount : string,
    getMasterLinkedTemplateText masterProfile orchestratorType
      extensionProfile singleOrAll =
    internalGetPoolLinkedTemplateText "variables('masterVMNamePrefix')"
      orchestratorType masterCount "variables('masterOffset')"
      extensionProfile
    /\ masterCount = "[sub(variables('masterCount'), variables('masterOffset'))]"
    /\ countByte ")" masterCount = countByte "(" masterCount
    /\ getAgentPoolLinkedTemplateText agentPoolProfile orchestratorType
         extensionProfile singleOrAll =
       internalGetPoolLinkedTemplateText
         ("variables('" +:+ AgentPoolProfile.Name agentPoolProfile
          +:+ "VMNamePrefix')")
         orchestratorType agentCount (agentLoopOffset agentPoolProfile)
         extensionProfile
    /\ agentCount =
       (if IsAvailabilitySets agentPoolProfile
        then "[sub(variables('" +:+ AgentPoolProfile.Name agentPoolProfile
             +:+ "Count'), variables('"
             +:+ AgentPoolProfile.Name agentPoolProfile +:+ "Offset'))]"
        else "[variables('" +:+ AgentPoolProfile.Name agentPoolProfile
             +:+ "Count'))]")
    /\ countByte ")" agentCount =
       ((if IsAvailabilitySets agentPoolProfile then 0 else 1) +
        countByte "(" agentCount)%nat.
Proof.
  assert (Happ : forall (c : ascii) (a b : string),
            countByte c (a +:+ b) = (countByte c a + countByte c b)%nat).
  { intros c a b. induction a as [|x a IH]; [reflexivity|].
    cbn [String.append countByte]. rewrite IH. lia. }
  intros Hfold Hname.
  exists "[sub(variables('masterCount'), variables('masterOffset'))]",
    (if IsAvailabilitySets agentPoolProfile
     then "[sub(variables('" +:+ AgentPoolProfile.Name agentPoolProfile
          +:+ "Count'), variables('"
          +:+ AgentPoolProfile.Name agentPoolProfile +:+ "Offset'))]"
     else "[variables('" +:+ AgentPoolProfile.Name agentPoolProfile
          +:+ "Count'))]").
  split; [|split; [reflexivity|split; [reflexivity|split; [|split; [reflexivity|]]]]].
  - unfold getMasterLinkedTemplateText. now rewrite Hfold.
  - unfold getAgentPoolLinkedTemplateText, agentLoopOffset. cbv zeta.
    destruct (IsAvailabilitySets agentPoolProfile); rewrite Hfold; reflexivity.
  - destruct (IsAvailabilitySets agentPoolProfile);
      rewrite !Happ, Hname; cbn; lia.
Qed.

End ResolverEffects.

Lemma getLinkedTemplatesForExtensions_effects_witness :
  getLinkedTemplatesForExtensions (H := Demo.env)
    (Demo.cluster Demo.master [Demo.pool "agents" "Linux" "10.1.0.0/16" 1 []]
       [helloWorld])
    (demoState helloWorldServer) =
  (Returns "", demoState helloWorldServer).
Proof.
  refine (proj2 (getLinkedTemplatesForExtensions_effects (H := Demo.env)
                   (Demo.cluster Demo.master
                      [Demo.pool "agents" "Linux" "10.1.0.0/16" 1 []]
                      [helloWorld])
                   (demoState helloWorldServer)) _ eq_refl _).
  intros eP _. split.
  - intros [].
  - intros p [<-|[]]. intros [].
Defined.

Lemma loopCountExpression_parentheses_witness :
  exists agentCount : string,
    getAgentPoolLinkedTemplateText (H := Demo.env)
      (Demo.pool "agents" "Linux" "10.1.0.0/16" 1 []) "Kubernetes"
      helloWorld "All" =
    internalGetPoolLinkedTemplateText (H := Demo.env)
      "variables('agentsVMNamePrefix')" "Kubernetes" agentCount "" helloWorld
    /\ agentCount = "[variables('agentsCount'))]"
    /\ countByte ")" agentCount = 2%nat
    /\ countByte "(" agentCount = 1%nat.
Proof.
  destruct (loopCountExpression_parentheses (H := Demo.env) Demo.master
              (Demo.pool "agents" "Linux" "10.1.0.0/16" 1 []) "Kubernetes"
              helloWorld "All")
    as (masterCount & agentCount & _ & _ & _ & Hagent & Hcount & _).
  - reflexivity.
  - reflexivity.
  - exists agentCount. split; [exact Hagent|]. split; [exact Hcount|].
    rewrite Hcount. split; reflexivity.
Defined.

(** ** Data disks *)

Section DataDisksTheorem.
Variable HasDisks : AgentPoolDisks.t -> bool.
Variables StorageAccount ManagedDisks : string.



End DataDisksTheorem.
